(** * DevFlow Dashboard: the relational core and its data-access layer

    A shallow embedding of [database/database.sql] (tables, constraints,
    triggers, row-level-security policies, the progress function and the
    statistics view and the view of projects with their clients), of
    [lib/database.ts] (the server-side data-access functions), of the
    statements the components send themselves (the project modals, the
    settings form, the deletes of the list pages), of the statistics
    computed by the dashboard overview component and of the pagination of
    the list pages, followed by the properties proved about them.

    Conventions.
    - A table is the list of its rows, in heap order.
    - A nullable column is an [option]; a column declared [NOT NULL] is not.
    - [UUID] values are natural numbers, [TIMESTAMP WITH TIME ZONE] and
      [DATE] values are integers, [DECIMAL(10,2)] values are integers
      counting hundredths.
    - A statement either commits a new database or fails with an error and
      leaves the database as it was: statements return [result]. *)

From stdpp Require Import base option list strings sorting gmap.
From Stdlib Require Import ZArith Lia Ascii.

Local Open Scope Z_scope.

(** ** Scalar types *)

Abbreviation uuid := N.
Abbreviation timestamptz := Z.
Abbreviation date := Z.

(** [CREATE TYPE project_type AS ENUM ('client', 'personal', 'open_source')] *)
Inductive project_type := client | personal | open_source.

(** [CREATE TYPE project_status AS ENUM ('pending', 'in_progress', 'completed', 'delivered')] *)
Inductive project_status := pending | in_progress | completed | delivered.

(** [CREATE TYPE payment_status AS ENUM ('unpaid', 'partial', 'paid')] *)
Inductive payment_status := unpaid | partial | paid.

Global Instance project_type_eq_dec : EqDecision project_type.
Proof. solve_decision. Defined.
Global Instance project_status_eq_dec : EqDecision project_status.
Proof. solve_decision. Defined.
Global Instance payment_status_eq_dec : EqDecision payment_status.
Proof. solve_decision. Defined.

(** ** Errors and results *)

Inductive pg_error :=
  | not_null_violation
  | check_violation
  | unique_violation
  | foreign_key_violation
  | insufficient_privilege      (* new row violates row-level security policy *)
  | numeric_value_out_of_range
  | no_single_row               (* [.single()] on a result that is not one row *)
  | connection_failure.         (* storage or authentication unreachable *)

Inductive result (A : Type) :=
  | Ok (a : A)
  | Error (e : pg_error).
Arguments Ok {A} a.
Arguments Error {A} e.

Global Instance result_ret : MRet result := @Ok.
Global Instance result_bind : MBind result := λ A B f m,
  match m with Ok a => f a | Error e => Error e end.

Global Instance result_fmap : FMap result := λ A B f m,
  match m with Ok a => Ok (f a) | Error e => Error e end.

(** A constraint is a test on a row that names the error it raises. *)
Definition require (b : bool) (e : pg_error) : result unit :=
  if b then Ok () else Error e.

(** The spec's [ConstraintViolation]: a unique, check or foreign-key
    constraint failed. *)
Definition ConstraintViolation (e : pg_error) : bool :=
  match e with
  | unique_violation | check_violation | foreign_key_violation
  | not_null_violation => true
  | _ => false
  end.

(** ** SQL's three-valued logic

    A comparison with [NULL] is [NULL]; a [CHECK] constraint is satisfied
    unless its expression is false; a [USING] or [WHERE] clause keeps a row
    only when its expression is true. *)

Definition sql_bool := option bool.

Definition sql_ge (x : option Z) (y : Z) : sql_bool := (λ v, bool_decide (y ≤ v)) <$> x.
Definition sql_le (x : option Z) (y : Z) : sql_bool := (λ v, bool_decide (v ≤ y)) <$> x.
Definition sql_eq_uuid (x y : option uuid) : sql_bool :=
  match x, y with
  | Some a, Some b => Some (bool_decide (a = b))
  | _, _ => None
  end.
Definition sql_and (a b : sql_bool) : sql_bool :=
  match a, b with
  | Some false, _ | _, Some false => Some false
  | Some true, Some true => Some true
  | _, _ => None
  end.

Definition check_satisfied (b : sql_bool) : bool :=
  match b with Some false => false | _ => true end.
Definition is_true (b : sql_bool) : bool :=
  match b with Some true => true | _ => false end.

(** ** Rows, after [lib/types.ts] and the [CREATE TABLE] statements *)

(** A row of [auth.users], as far as [handle_new_user] reads it:
    [raw_user_meta_data] is a JSON object, here the map of its string
    members. *)
Record AuthUser := {
  auth_id : uuid;
  auth_email : string;
  raw_user_meta_data : gmap string string }.

Record Profile := {
  profiles_id : uuid;
  profiles_email : string;
  profiles_full_name : option string;
  profiles_avatar_url : option string;
  profiles_created_at : option timestamptz;
  profiles_updated_at : option timestamptz }.

Record Project := {
  projects_id : uuid;
  projects_user_id : uuid;
  projects_title : string;
  projects_description : option string;
  projects_type : project_type;
  projects_status : project_status;
  projects_payment_status : payment_status;
  projects_progress : option Z;
  projects_budget : option Z;
  projects_paid_amount : option Z;
  projects_start_date : option date;
  projects_end_date : option date;
  projects_deadline : option date;
  projects_created_at : option timestamptz;
  projects_updated_at : option timestamptz }.

Record Client := {
  clients_id : uuid;
  clients_user_id : uuid;
  clients_name : string;
  clients_email : option string;
  clients_phone : option string;
  clients_company : option string;
  clients_notes : option string;
  clients_created_at : option timestamptz;
  clients_updated_at : option timestamptz }.

Record ProjectClient := {
  project_clients_id : uuid;
  project_clients_project_id : uuid;
  project_clients_client_id : uuid;
  project_clients_reference_note : option string;
  project_clients_created_at : option timestamptz }.

Record Task := {
  tasks_id : uuid;
  tasks_project_id : uuid;
  tasks_title : string;
  tasks_description : option string;
  tasks_completed : option bool;
  tasks_priority : option Z;
  tasks_due_date : option date;
  tasks_created_at : option timestamptz;
  tasks_updated_at : option timestamptz }.

Record ProjectTimeline := {
  project_timeline_id : uuid;
  project_timeline_project_id : uuid;
  project_timeline_milestone : string;
  project_timeline_description : option string;
  project_timeline_completed : option bool;
  project_timeline_completed_at : option timestamptz;
  project_timeline_order_index : Z;
  project_timeline_created_at : option timestamptz }.

Global Instance AuthUser_eq_dec : EqDecision AuthUser.
Proof. solve_decision. Defined.
Global Instance Profile_eq_dec : EqDecision Profile.
Proof. solve_decision. Defined.
Global Instance Project_eq_dec : EqDecision Project.
Proof. solve_decision. Defined.
Global Instance Client_eq_dec : EqDecision Client.
Proof. solve_decision. Defined.
Global Instance ProjectClient_eq_dec : EqDecision ProjectClient.
Proof. solve_decision. Defined.
Global Instance Task_eq_dec : EqDecision Task.
Proof. solve_decision. Defined.
Global Instance ProjectTimeline_eq_dec : EqDecision ProjectTimeline.
Proof. solve_decision. Defined.

(** The database: one list of rows per table. *)
Record db := {
  auth_users : list AuthUser;
  profiles : list Profile;
  projects : list Project;
  clients : list Client;
  project_clients : list ProjectClient;
  tasks : list Task;
  project_timeline : list ProjectTimeline }.

Global Instance db_eq_dec : EqDecision db.
Proof. solve_decision. Defined.

Definition with_auth_users (s : db) (t : list AuthUser) : db :=
  {| auth_users := t; profiles := profiles s; projects := projects s;
     clients := clients s; project_clients := project_clients s;
     tasks := tasks s; project_timeline := project_timeline s |}.
Definition with_profiles (s : db) (t : list Profile) : db :=
  {| auth_users := auth_users s; profiles := t; projects := projects s;
     clients := clients s; project_clients := project_clients s;
     tasks := tasks s; project_timeline := project_timeline s |}.
Definition with_projects (s : db) (t : list Project) : db :=
  {| auth_users := auth_users s; profiles := profiles s; projects := t;
     clients := clients s; project_clients := project_clients s;
     tasks := tasks s; project_timeline := project_timeline s |}.
Definition with_clients (s : db) (t : list Client) : db :=
  {| auth_users := auth_users s; profiles := profiles s; projects := projects s;
     clients := t; project_clients := project_clients s;
     tasks := tasks s; project_timeline := project_timeline s |}.
Definition with_project_clients (s : db) (t : list ProjectClient) : db :=
  {| auth_users := auth_users s; profiles := profiles s; projects := projects s;
     clients := clients s; project_clients := t;
     tasks := tasks s; project_timeline := project_timeline s |}.
Definition with_tasks (s : db) (t : list Task) : db :=
  {| auth_users := auth_users s; profiles := profiles s; projects := projects s;
     clients := clients s; project_clients := project_clients s;
     tasks := t; project_timeline := project_timeline s |}.

Definition with_project_timeline (s : db) (t : list ProjectTimeline) : db :=
  {| auth_users := auth_users s; profiles := profiles s; projects := projects s;
     clients := clients s; project_clients := project_clients s;
     tasks := tasks s; project_timeline := t |}.

(** ** Row-level security

    [auth.uid()] is the caller's id, or [NULL] for an unauthenticated
    caller.  Every policy below is a [USING] or [WITH CHECK] expression of
    the schema; a row passes when the expression is true. *)

Section policies.
Variable auth_uid : option uuid.

(** [USING (auth.uid() = id)] on profiles *)
Definition profiles_policy (r : Profile) : bool :=
  is_true (sql_eq_uuid auth_uid (Some (profiles_id r))).

(** [USING (auth.uid() = user_id)]: the four policies on projects carry
    the same expression, as [USING] for select, update and delete, as
    [WITH CHECK] for insert. *)
Definition projects_policy (r : Project) : bool :=
  is_true (sql_eq_uuid auth_uid (Some (projects_user_id r))).

(** The same four policies on clients. *)
Definition clients_policy (r : Client) : bool :=
  is_true (sql_eq_uuid auth_uid (Some (clients_user_id r))).

(** [EXISTS (SELECT 1 FROM projects WHERE projects.id = <child>.project_id
    AND projects.user_id = auth.uid())]: the expression shared by the
    policies on project_clients, tasks and project_timeline. *)
Definition owns_project (s : db) (project_id : uuid) : bool :=
  bool_decide (Exists (λ p, projects_id p = project_id ∧
                            is_true (sql_eq_uuid (Some (projects_user_id p)) auth_uid))
                      (projects s)).

Definition project_clients_policy (s : db) (r : ProjectClient) : bool :=
  owns_project s (project_clients_project_id r).
Definition tasks_policy (s : db) (r : Task) : bool :=
  owns_project s (tasks_project_id r).
Definition project_timeline_policy (s : db) (r : ProjectTimeline) : bool :=
  owns_project s (project_timeline_project_id r).
End policies.

(** ** Statements, generically in the row type *)

Section statements.
Context {R : Type}.

(** [SELECT ... WHERE]: the rows the policy shows and the filter keeps. *)
Definition select_rows (policy where_ : R → bool) (tbl : list R) : list R :=
  filter (λ r, policy r && where_ r) tbl.

(** [UPDATE ... SET ... WHERE]: each row the policy shows and the filter
    keeps is assigned, passed through the [BEFORE UPDATE] row trigger and
    then checked; the first failing row aborts the statement.  Returns the
    table after the statement and the rows for [RETURNING]. *)
Fixpoint update_rows (policy where_ : R → bool) (assign trigger : R → R)
    (row_check : R → result unit) (tbl : list R) : result (list R * list R) :=
  match tbl with
  | [] => Ok ([], [])
  | r :: tbl' =>
      if policy r && where_ r then
        let r' := trigger (assign r) in
        _ ← row_check r';
        '(t, ret) ← update_rows policy where_ assign trigger row_check tbl';
        Ok (r' :: t, r' :: ret)
      else
        '(t, ret) ← update_rows policy where_ assign trigger row_check tbl';
        Ok (r :: t, ret)
  end.

(** [DELETE ... WHERE]: the rows removed and the rows left. *)
Definition delete_rows (policy where_ : R → bool) (tbl : list R) : list R * list R :=
  (filter (λ r, policy r && where_ r) tbl,
   filter (λ r, negb (policy r && where_ r)) tbl).

(** [.single()]: exactly one row, or an error. *)
Definition single (rows : list R) : result R :=
  match rows with
  | [r] => Ok r
  | _ => Error no_single_row
  end.
End statements.

(** ** Partial rows

    [Partial<Project>] and its siblings: the columns a caller supplies to an
    insert or an update.  An absent member is [None]; for a nullable column
    a supplied [null] is [Some None]. *)

Module PartialProject.
Record t := {
  id : option uuid;
  user_id : option uuid;
  title : option string;
  description : option (option string);
  type : option project_type;
  status : option project_status;
  payment_status : option payment_status;
  progress : option (option Z);
  budget : option (option Z);
  paid_amount : option (option Z);
  start_date : option (option date);
  end_date : option (option date);
  deadline : option (option date);
  created_at : option (option timestamptz);
  updated_at : option (option timestamptz) }.

Definition empty : t :=
  {| id := None; user_id := None; title := None; description := None;
     type := None; status := None; payment_status := None; progress := None;
     budget := None; paid_amount := None; start_date := None; end_date := None;
     deadline := None; created_at := None; updated_at := None |}.
End PartialProject.

Module PartialClient.
Record t := {
  id : option uuid;
  user_id : option uuid;
  name : option string;
  email : option (option string);
  phone : option (option string);
  company : option (option string);
  notes : option (option string);
  created_at : option (option timestamptz);
  updated_at : option (option timestamptz) }.

Definition empty : t :=
  {| id := None; user_id := None; name := None; email := None; phone := None;
     company := None; notes := None; created_at := None; updated_at := None |}.
End PartialClient.

Module PartialTask.
Record t := {
  id : option uuid;
  project_id : option uuid;
  title : option string;
  description : option (option string);
  completed : option (option bool);
  priority : option (option Z);
  due_date : option (option date);
  created_at : option (option timestamptz);
  updated_at : option (option timestamptz) }.

Definition empty : t :=
  {| id := None; project_id := None; title := None; description := None;
     completed := None; priority := None; due_date := None;
     created_at := None; updated_at := None |}.
End PartialTask.

Module PartialProjectClient.
Record t := {
  id : option uuid;
  project_id : option uuid;
  client_id : option uuid;
  reference_note : option (option string);
  created_at : option (option timestamptz) }.
End PartialProjectClient.

(** [UPDATE ... SET]: the supplied columns replace the stored ones. *)
Definition assign_project (u : PartialProject.t) (r : Project) : Project :=
  {| projects_id := default (projects_id r) (PartialProject.id u);
     projects_user_id := default (projects_user_id r) (PartialProject.user_id u);
     projects_title := default (projects_title r) (PartialProject.title u);
     projects_description := default (projects_description r) (PartialProject.description u);
     projects_type := default (projects_type r) (PartialProject.type u);
     projects_status := default (projects_status r) (PartialProject.status u);
     projects_payment_status :=
       default (projects_payment_status r) (PartialProject.payment_status u);
     projects_progress := default (projects_progress r) (PartialProject.progress u);
     projects_budget := default (projects_budget r) (PartialProject.budget u);
     projects_paid_amount := default (projects_paid_amount r) (PartialProject.paid_amount u);
     projects_start_date := default (projects_start_date r) (PartialProject.start_date u);
     projects_end_date := default (projects_end_date r) (PartialProject.end_date u);
     projects_deadline := default (projects_deadline r) (PartialProject.deadline u);
     projects_created_at := default (projects_created_at r) (PartialProject.created_at u);
     projects_updated_at := default (projects_updated_at r) (PartialProject.updated_at u) |}.

Definition assign_client (u : PartialClient.t) (r : Client) : Client :=
  {| clients_id := default (clients_id r) (PartialClient.id u);
     clients_user_id := default (clients_user_id r) (PartialClient.user_id u);
     clients_name := default (clients_name r) (PartialClient.name u);
     clients_email := default (clients_email r) (PartialClient.email u);
     clients_phone := default (clients_phone r) (PartialClient.phone u);
     clients_company := default (clients_company r) (PartialClient.company u);
     clients_notes := default (clients_notes r) (PartialClient.notes u);
     clients_created_at := default (clients_created_at r) (PartialClient.created_at u);
     clients_updated_at := default (clients_updated_at r) (PartialClient.updated_at u) |}.

Definition assign_task (u : PartialTask.t) (r : Task) : Task :=
  {| tasks_id := default (tasks_id r) (PartialTask.id u);
     tasks_project_id := default (tasks_project_id r) (PartialTask.project_id u);
     tasks_title := default (tasks_title r) (PartialTask.title u);
     tasks_description := default (tasks_description r) (PartialTask.description u);
     tasks_completed := default (tasks_completed r) (PartialTask.completed u);
     tasks_priority := default (tasks_priority r) (PartialTask.priority u);
     tasks_due_date := default (tasks_due_date r) (PartialTask.due_date u);
     tasks_created_at := default (tasks_created_at r) (PartialTask.created_at u);
     tasks_updated_at := default (tasks_updated_at r) (PartialTask.updated_at u) |}.

(** ** Triggers *)

(** The tables that have an [updated_at] column and a
    [BEFORE UPDATE ... EXECUTE FUNCTION update_updated_at_column()] trigger. *)
Class UpdatedAt (R : Type) := {
  updated_at : R → option timestamptz;
  set_updated_at : option timestamptz → R → R }.

Global Instance profiles_updated : UpdatedAt Profile := {|
  updated_at := profiles_updated_at;
  set_updated_at v r :=
    {| profiles_id := profiles_id r; profiles_email := profiles_email r;
       profiles_full_name := profiles_full_name r;
       profiles_avatar_url := profiles_avatar_url r;
       profiles_created_at := profiles_created_at r; profiles_updated_at := v |} |}.

Global Instance projects_updated : UpdatedAt Project := {|
  updated_at := projects_updated_at;
  set_updated_at v r :=
    {| projects_id := projects_id r; projects_user_id := projects_user_id r;
       projects_title := projects_title r; projects_description := projects_description r;
       projects_type := projects_type r; projects_status := projects_status r;
       projects_payment_status := projects_payment_status r;
       projects_progress := projects_progress r; projects_budget := projects_budget r;
       projects_paid_amount := projects_paid_amount r;
       projects_start_date := projects_start_date r;
       projects_end_date := projects_end_date r; projects_deadline := projects_deadline r;
       projects_created_at := projects_created_at r; projects_updated_at := v |} |}.

Global Instance clients_updated : UpdatedAt Client := {|
  updated_at := clients_updated_at;
  set_updated_at v r :=
    {| clients_id := clients_id r; clients_user_id := clients_user_id r;
       clients_name := clients_name r; clients_email := clients_email r;
       clients_phone := clients_phone r; clients_company := clients_company r;
       clients_notes := clients_notes r; clients_created_at := clients_created_at r;
       clients_updated_at := v |} |}.

Global Instance tasks_updated : UpdatedAt Task := {|
  updated_at := tasks_updated_at;
  set_updated_at v r :=
    {| tasks_id := tasks_id r; tasks_project_id := tasks_project_id r;
       tasks_title := tasks_title r; tasks_description := tasks_description r;
       tasks_completed := tasks_completed r; tasks_priority := tasks_priority r;
       tasks_due_date := tasks_due_date r; tasks_created_at := tasks_created_at r;
       tasks_updated_at := v |} |}.

(** [update_updated_at_column()]: [NEW.updated_at = CURRENT_TIMESTAMP;
    RETURN NEW]. *)
Definition update_updated_at_column {R} `{UpdatedAt R}
    (current_timestamp : timestamptz) (NEW : R) : R :=
  set_updated_at (Some current_timestamp) NEW.

(** ** Column types and [CHECK] constraints *)

(** [DECIMAL(10,2)] holds at most eight digits before the point. *)
Definition fits_decimal_10_2 (v : option Z) : bool :=
  match v with None => true | Some x => bool_decide (Z.abs x < 10 ^ 10) end.

(** [INTEGER] is 32 bits wide. *)
Definition fits_integer (v : option Z) : bool :=
  match v with
  | None => true
  | Some x => bool_decide (-2147483648 ≤ x ≤ 2147483647)
  end.

(** [CHECK (progress >= 0 AND progress <= 100)] *)
Definition projects_progress_check (r : Project) : sql_bool :=
  sql_and (sql_ge (projects_progress r) 0) (sql_le (projects_progress r) 100).

(** [CHECK (priority >= 1 AND priority <= 5)] *)
Definition tasks_priority_check (r : Task) : sql_bool :=
  sql_and (sql_ge (tasks_priority r) 1) (sql_le (tasks_priority r) 5).

(** What a new or updated row goes through, in PostgreSQL's order: the
    coercion to the column types, the policy's [WITH CHECK] expression, and
    the [CHECK] constraints. *)
Definition projects_row_check (auth_uid : option uuid) (r : Project) : result unit :=
  _ ← require (fits_integer (projects_progress r) &&
               fits_decimal_10_2 (projects_budget r) &&
               fits_decimal_10_2 (projects_paid_amount r)) numeric_value_out_of_range;
  _ ← require (projects_policy auth_uid r) insufficient_privilege;
  require (check_satisfied (projects_progress_check r)) check_violation.

Definition clients_row_check (auth_uid : option uuid) (r : Client) : result unit :=
  require (clients_policy auth_uid r) insufficient_privilege.

Definition tasks_row_check (auth_uid : option uuid) (s : db) (r : Task) : result unit :=
  _ ← require (fits_integer (tasks_priority r)) numeric_value_out_of_range;
  _ ← require (tasks_policy auth_uid s r) insufficient_privilege;
  require (check_satisfied (tasks_priority_check r)) check_violation.

(** ** [ON DELETE CASCADE] *)

(** Rows of project_clients, tasks and project_timeline reference
    [projects(id)]. *)
Definition cascade_projects (gone : list uuid) (s : db) : db :=
  {| auth_users := auth_users s; profiles := profiles s; projects := projects s;
     clients := clients s;
     project_clients :=
       filter (λ l, project_clients_project_id l ∉ gone) (project_clients s);
     tasks := filter (λ t, tasks_project_id t ∉ gone) (tasks s);
     project_timeline :=
       filter (λ e, project_timeline_project_id e ∉ gone) (project_timeline s) |}.

(** Rows of project_clients reference [clients(id)]. *)
Definition cascade_clients (gone : list uuid) (s : db) : db :=
  with_project_clients s
    (filter (λ l, project_clients_client_id l ∉ gone) (project_clients s)).

(** Rows of projects and clients reference [profiles(id)]. *)
Definition cascade_profiles (gone : list uuid) (s : db) : db :=
  let gone_projects := filter (λ p, projects_user_id p ∈ gone) (projects s) in
  let gone_clients := filter (λ c, clients_user_id c ∈ gone) (clients s) in
  cascade_clients (clients_id <$> gone_clients)
    (cascade_projects (projects_id <$> gone_projects)
       (with_clients
          (with_projects s (filter (λ p, projects_user_id p ∉ gone) (projects s)))
          (filter (λ c, clients_user_id c ∉ gone) (clients s)))).

(** [DELETE FROM profiles WHERE id = ...], as the owner of the tables
    (profiles has no [DELETE] policy). *)
Definition profiles_delete (id : uuid) (s : db) : db :=
  let gone := filter (λ r, profiles_id r = id) (profiles s) in
  cascade_profiles (profiles_id <$> gone)
    (with_profiles s (filter (λ r, profiles_id r ≠ id) (profiles s))).

(** [DELETE FROM auth.users WHERE id = ...]: profiles reference
    [auth.users(id)]. *)
Definition auth_users_delete (id : uuid) (s : db) : db :=
  let gone := filter (λ r, auth_id r = id) (auth_users s) in
  let s1 := with_auth_users s (filter (λ r, auth_id r ≠ id) (auth_users s)) in
  let gone_profiles := filter (λ r, profiles_id r ∈ auth_id <$> gone) (profiles s1) in
  cascade_profiles (profiles_id <$> gone_profiles)
    (with_profiles s1 (filter (λ r, profiles_id r ∉ auth_id <$> gone) (profiles s1))).

(** ** Statements on the tables

    Each takes [auth.uid()] of the caller.  Primary-key, unique and
    foreign-key constraints are checked against all rows of the tables
    concerned: referential-integrity checks bypass row security. *)

(** [INSERT INTO projects]: absent columns take their defaults. *)
Definition projects_insert (auth_uid : option uuid) (u : PartialProject.t)
    (gen_random_uuid : uuid) (now : timestamptz) (s : db) : result (db * Project) :=
  match PartialProject.user_id u, PartialProject.title u with
  | None, _ => Error insufficient_privilege
  | Some owner, None =>
      _ ← require (is_true (sql_eq_uuid auth_uid (Some owner))) insufficient_privilege;
      Error not_null_violation
  | Some owner, Some title =>
      let r :=
        {| projects_id := default gen_random_uuid (PartialProject.id u);
           projects_user_id := owner;
           projects_title := title;
           projects_description := default None (PartialProject.description u);
           projects_type := default personal (PartialProject.type u);
           projects_status := default pending (PartialProject.status u);
           projects_payment_status := default unpaid (PartialProject.payment_status u);
           projects_progress := default (Some 0) (PartialProject.progress u);
           projects_budget := default None (PartialProject.budget u);
           projects_paid_amount := default (Some 0) (PartialProject.paid_amount u);
           projects_start_date := default None (PartialProject.start_date u);
           projects_end_date := default None (PartialProject.end_date u);
           projects_deadline := default None (PartialProject.deadline u);
           projects_created_at := default (Some now) (PartialProject.created_at u);
           projects_updated_at := default (Some now) (PartialProject.updated_at u) |} in
      _ ← projects_row_check auth_uid r;
      _ ← require (bool_decide (projects_id r ∉ projects_id <$> projects s))
                  unique_violation;
      _ ← require (bool_decide (owner ∈ profiles_id <$> profiles s))
                  foreign_key_violation;
      Ok (with_projects s (projects s ++ [r]), r)
  end.

(** [UPDATE projects SET ... WHERE ...].  The keys are checked again only
    when the statement assigns them. *)
Definition projects_update (auth_uid : option uuid) (where_ : Project → bool)
    (u : PartialProject.t) (current_timestamp : timestamptz) (s : db)
    : result (db * list Project) :=
  '(tbl, ret) ← update_rows (projects_policy auth_uid) where_ (assign_project u)
                  (update_updated_at_column current_timestamp)
                  (projects_row_check auth_uid) (projects s);
  _ ← require (bool_decide (PartialProject.id u = None ∨ NoDup (projects_id <$> tbl)))
              unique_violation;
  _ ← require (bool_decide (PartialProject.user_id u = None ∨
                 Forall (λ r, projects_user_id r ∈ profiles_id <$> profiles s) ret))
              foreign_key_violation;
  _ ← require (bool_decide (PartialProject.id u = None ∨
                 Forall (λ i, i ∈ projects_id <$> projects s → i ∈ projects_id <$> tbl)
                   ((project_clients_project_id <$> project_clients s) ++
                    (tasks_project_id <$> tasks s) ++
                    (project_timeline_project_id <$> project_timeline s))))
              foreign_key_violation;
  Ok (with_projects s tbl, ret).

(** [DELETE FROM projects WHERE ...] *)
Definition projects_delete (auth_uid : option uuid) (where_ : Project → bool) (s : db)
    : db * list Project :=
  let '(gone, kept) := delete_rows (projects_policy auth_uid) where_ (projects s) in
  (cascade_projects (projects_id <$> gone) (with_projects s kept), gone).


(** [UPDATE clients SET ... WHERE ...] *)
Definition clients_update (auth_uid : option uuid) (where_ : Client → bool)
    (u : PartialClient.t) (current_timestamp : timestamptz) (s : db)
    : result (db * list Client) :=
  '(tbl, ret) ← update_rows (clients_policy auth_uid) where_ (assign_client u)
                  (update_updated_at_column current_timestamp)
                  (clients_row_check auth_uid) (clients s);
  _ ← require (bool_decide (PartialClient.id u = None ∨ NoDup (clients_id <$> tbl)))
              unique_violation;
  _ ← require (bool_decide (PartialClient.user_id u = None ∨
                 Forall (λ r, clients_user_id r ∈ profiles_id <$> profiles s) ret))
              foreign_key_violation;
  _ ← require (bool_decide (PartialClient.id u = None ∨
                 Forall (λ i, i ∈ clients_id <$> clients s → i ∈ clients_id <$> tbl)
                   (project_clients_client_id <$> project_clients s)))
              foreign_key_violation;
  Ok (with_clients s tbl, ret).

(** [DELETE FROM clients WHERE ...] *)
Definition clients_delete (auth_uid : option uuid) (where_ : Client → bool) (s : db)
    : db * list Client :=
  let '(gone, kept) := delete_rows (clients_policy auth_uid) where_ (clients s) in
  (cascade_clients (clients_id <$> gone) (with_clients s kept), gone).

(** [UPDATE tasks SET ... WHERE ...]: the policy is [FOR ALL USING], so its
    expression is also the check on the new row. *)
Definition tasks_update (auth_uid : option uuid) (where_ : Task → bool)
    (u : PartialTask.t) (current_timestamp : timestamptz) (s : db)
    : result (db * list Task) :=
  '(tbl, ret) ← update_rows (tasks_policy auth_uid s) where_ (assign_task u)
                  (update_updated_at_column current_timestamp)
                  (tasks_row_check auth_uid s) (tasks s);
  _ ← require (bool_decide (PartialTask.id u = None ∨ NoDup (tasks_id <$> tbl)))
              unique_violation;
  Ok (with_tasks s tbl, ret).

(** [INSERT INTO project_clients], one row. *)
Definition project_clients_insert_row (auth_uid : option uuid)
    (u : PartialProjectClient.t) (gen_random_uuid : uuid) (now : timestamptz) (s : db)
    : result db :=
  match PartialProjectClient.project_id u, PartialProjectClient.client_id u with
  | None, _ => Error insufficient_privilege
  | Some p, None =>
      _ ← require (owns_project auth_uid s p) insufficient_privilege;
      Error not_null_violation
  | Some p, Some c =>
      let r :=
        {| project_clients_id := default gen_random_uuid (PartialProjectClient.id u);
           project_clients_project_id := p;
           project_clients_client_id := c;
           project_clients_reference_note :=
             default None (PartialProjectClient.reference_note u);
           project_clients_created_at :=
             default (Some now) (PartialProjectClient.created_at u) |} in
      _ ← require (project_clients_policy auth_uid s r) insufficient_privilege;
      _ ← require (bool_decide
                     (project_clients_id r ∉ project_clients_id <$> project_clients s))
                  unique_violation;
      _ ← require (bool_decide
                     ((p, c) ∉ (λ l, (project_clients_project_id l,
                                      project_clients_client_id l))
                               <$> project_clients s))
                  unique_violation;
      _ ← require (bool_decide (p ∈ projects_id <$> projects s)) foreign_key_violation;
      _ ← require (bool_decide (c ∈ clients_id <$> clients s)) foreign_key_violation;
      Ok (with_project_clients s (project_clients s ++ [r]))
  end.

(** [INSERT INTO project_clients] with several rows: one statement, so all
    rows or none. *)
Fixpoint project_clients_insert (auth_uid : option uuid)
    (rows : list (PartialProjectClient.t * uuid)) (now : timestamptz) (s : db)
    : result db :=
  match rows with
  | [] => Ok s
  | (u, gen_random_uuid) :: rows' =>
      s' ← project_clients_insert_row auth_uid u gen_random_uuid now s;
      project_clients_insert auth_uid rows' now s'
  end.

(** [DELETE FROM project_clients WHERE ...] *)
Definition project_clients_delete (auth_uid : option uuid)
    (where_ : ProjectClient → bool) (s : db) : db :=
  with_project_clients s
    (delete_rows (project_clients_policy auth_uid s) where_ (project_clients s)).2.

(** A statement that fails leaves the database as it was. *)
Definition commit {A} (s : db) (r : result (db * A)) : db * result A :=
  match r with
  | Ok (s', a) => (s', Ok a)
  | Error e => (s, Error e)
  end.

(** ** Identity provisioning *)

(** [split_part(s, d, n)] for a one-character delimiter. *)
Fixpoint split_on (d : Ascii.ascii) (s : string) : list string :=
  match s with
  | EmptyString => [EmptyString]
  | String c s' =>
      if decide (c = d) then EmptyString :: split_on d s'
      else match split_on d s' with
           | w :: ws => String c w :: ws
           | [] => [String c EmptyString]
           end
  end.

Definition split_part (s : string) (d : Ascii.ascii) (n : nat) : string :=
  default EmptyString (split_on d s !! (n - 1)%nat).

(** [COALESCE]: the first argument that is not [NULL]. *)
Fixpoint COALESCE {A} (xs : list (option A)) : option A :=
  match xs with
  | [] => None
  | Some x :: _ => Some x
  | None :: xs' => COALESCE xs'
  end.

(** [handle_new_user()], [SECURITY DEFINER]: a plain [INSERT INTO
    public.profiles (id, email, full_name)]. *)
Definition handle_new_user (now : timestamptz) (NEW : AuthUser) (s : db) : result db :=
  let r :=
    {| profiles_id := auth_id NEW;
       profiles_email := auth_email NEW;
       profiles_full_name :=
         COALESCE [raw_user_meta_data NEW !! "full_name"%string;
                   raw_user_meta_data NEW !! "name"%string;
                   Some (split_part (auth_email NEW) "@"%char 1)];
       profiles_avatar_url := None;
       profiles_created_at := Some now;
       profiles_updated_at := Some now |} in
  _ ← require (bool_decide (profiles_id r ∉ profiles_id <$> profiles s)) unique_violation;
  _ ← require (bool_decide (profiles_email r ∉ profiles_email <$> profiles s))
              unique_violation;
  _ ← require (bool_decide (profiles_id r ∈ auth_id <$> auth_users s))
              foreign_key_violation;
  Ok (with_profiles s (profiles s ++ [r])).

(** [on_auth_user_created]: [AFTER INSERT ON auth.users FOR EACH ROW
    EXECUTE FUNCTION handle_new_user()].  An error raised by the trigger
    aborts the insert. *)
Definition auth_users_insert (now : timestamptz) (NEW : AuthUser) (s : db) : result db :=
  _ ← require (bool_decide (auth_id NEW ∉ auth_id <$> auth_users s)) unique_violation;
  handle_new_user now NEW (with_auth_users s (auth_users s ++ [NEW])).

(** ** [lib/database.ts] *)

(** What a call depends on besides its arguments and the database: the
    user [supabase.auth.getUser()] returns, the clock of the application
    server, the clock of the database, the value [gen_random_uuid()]
    yields, and whether the storage answers. *)
Record request := {
  user : option uuid;
  Date_now : timestamptz;
  CURRENT_TIMESTAMP : timestamptz;
  gen_random_uuid : uuid;
  storage_reachable : bool }.

(** One call of the supabase client: [{ data, error }]. *)
Definition supabase {A} (rq : request) (s : db) (stmt : result (db * A)) : db * result A :=
  if storage_reachable rq then commit s stmt else (s, Error connection_failure).

(** [.select().single()] after a mutation: unless exactly one row comes
    back the request fails, and the mutation with it. *)
Definition returning_single {A} (r : result (db * list A)) : result (db * A) :=
  '(s', rows) ← r;
  row ← single rows;
  Ok (s', row).

(** A project with the resources the [select] of [getProjects] and
    [getProject] embeds: under [clients] its project_clients rows, each with
    the clients row it names, under [tasks] its tasks, under [timeline] its
    project_timeline rows. *)
Module Embedded.
Record t := {
  row : Project;
  clients : list (option Client);
  tasks : list Task;
  timeline : list ProjectTimeline }.
End Embedded.

Definition embed (auth_uid : option uuid) (s : db) (p : Project) : Embedded.t :=
  {| Embedded.row := p;
     Embedded.clients :=
       (λ l, head (select_rows (clients_policy auth_uid)
                     (λ c, bool_decide (clients_id c = project_clients_client_id l))
                     (clients s)))
       <$> select_rows (project_clients_policy auth_uid s)
             (λ l, bool_decide (project_clients_project_id l = projects_id p))
             (project_clients s);
     Embedded.tasks :=
       select_rows (tasks_policy auth_uid s)
         (λ t, bool_decide (tasks_project_id t = projects_id p)) (tasks s);
     Embedded.timeline :=
       select_rows (project_timeline_policy auth_uid s)
         (λ e, bool_decide (project_timeline_project_id e = projects_id p))
         (project_timeline s) |}.

(** [ORDER BY updated_at DESC]: descending order puts [NULL] first. *)
Definition updated_at_desc (a b : Project) : Prop :=
  match projects_updated_at a, projects_updated_at b with
  | None, _ => True
  | Some _, None => False
  | Some x, Some y => y ≤ x
  end.
Global Instance updated_at_desc_dec a b : Decision (updated_at_desc a b).
Proof. unfold updated_at_desc. repeat case_match; apply _. Defined.

Definition getProjects (rq : request) (s : db) : list Embedded.t :=
  match user rq with
  | None => []
  | Some u =>
      if storage_reachable rq then
        embed (Some u) s <$>
          merge_sort updated_at_desc
            (select_rows (projects_policy (Some u))
               (λ p, bool_decide (projects_user_id p = u)) (projects s))
      else []
  end.

Definition getProject (rq : request) (id : uuid) (s : db) : option Embedded.t :=
  match user rq with
  | None => None
  | Some u =>
      if storage_reachable rq then
        match single (select_rows (projects_policy (Some u))
                        (λ p, bool_decide (projects_id p = id) &&
                              bool_decide (projects_user_id p = u)) (projects s)) with
        | Ok p => Some (embed (Some u) s p)
        | Error _ => None
        end
      else None
  end.

(** [{ ...project, user_id: user.id, created_at: now, updated_at: now }] *)
Definition projectData (project : PartialProject.t) (u : uuid) (now : timestamptz)
    : PartialProject.t :=
  {| PartialProject.id := PartialProject.id project;
     PartialProject.user_id := Some u;
     PartialProject.title := PartialProject.title project;
     PartialProject.description := PartialProject.description project;
     PartialProject.type := PartialProject.type project;
     PartialProject.status := PartialProject.status project;
     PartialProject.payment_status := PartialProject.payment_status project;
     PartialProject.progress := PartialProject.progress project;
     PartialProject.budget := PartialProject.budget project;
     PartialProject.paid_amount := PartialProject.paid_amount project;
     PartialProject.start_date := PartialProject.start_date project;
     PartialProject.end_date := PartialProject.end_date project;
     PartialProject.deadline := PartialProject.deadline project;
     PartialProject.created_at := Some (Some now);
     PartialProject.updated_at := Some (Some now) |}.

Definition createProject (rq : request) (project : PartialProject.t) (s : db)
    : db * option Project :=
  match user rq with
  | None => (s, None)
  | Some u =>
      match supabase rq s
              (projects_insert (Some u) (projectData project u (Date_now rq))
                 (gen_random_uuid rq) (CURRENT_TIMESTAMP rq) s) with
      | (s', Ok data) => (s', Some data)
      | (s', Error _) => (s', None)
      end
  end.

(** [{ ...updates, updated_at: new Date().toISOString() }] *)
Definition updatesWithTimestamp (updates : PartialProject.t) (now : timestamptz)
    : PartialProject.t :=
  {| PartialProject.id := PartialProject.id updates;
     PartialProject.user_id := PartialProject.user_id updates;
     PartialProject.title := PartialProject.title updates;
     PartialProject.description := PartialProject.description updates;
     PartialProject.type := PartialProject.type updates;
     PartialProject.status := PartialProject.status updates;
     PartialProject.payment_status := PartialProject.payment_status updates;
     PartialProject.progress := PartialProject.progress updates;
     PartialProject.budget := PartialProject.budget updates;
     PartialProject.paid_amount := PartialProject.paid_amount updates;
     PartialProject.start_date := PartialProject.start_date updates;
     PartialProject.end_date := PartialProject.end_date updates;
     PartialProject.deadline := PartialProject.deadline updates;
     PartialProject.created_at := PartialProject.created_at updates;
     PartialProject.updated_at := Some (Some now) |}.

Definition updateProject (rq : request) (id : uuid) (updates : PartialProject.t) (s : db)
    : db * option Project :=
  match user rq with
  | None => (s, None)
  | Some u =>
      match supabase rq s
              (returning_single
                 (projects_update (Some u)
                    (λ p, bool_decide (projects_id p = id) &&
                          bool_decide (projects_user_id p = u))
                    (updatesWithTimestamp updates (Date_now rq))
                    (CURRENT_TIMESTAMP rq) s)) with
      | (s', Ok data) => (s', Some data)
      | (s', Error _) => (s', None)
      end
  end.

Definition deleteProject (rq : request) (id : uuid) (s : db) : db * bool :=
  match user rq with
  | None => (s, false)
  | Some u =>
      match supabase rq s
              (Ok (projects_delete (Some u)
                     (λ p, bool_decide (projects_id p = id) &&
                           bool_decide (projects_user_id p = u)) s)) with
      | (s', Ok _) => (s', true)
      | (s', Error _) => (s', false)
      end
  end.

Section collation.
(** [ORDER BY name]: the order of text depends on the collation of the
    database. *)
Variable text_le : relation string.
Context `{∀ a b, Decision (text_le a b)}.

Definition getClients (rq : request) (s : db) : list Client :=
  match user rq with
  | None => []
  | Some u =>
      if storage_reachable rq then
        merge_sort (λ a b, text_le (clients_name a) (clients_name b))
          (select_rows (clients_policy (Some u))
             (λ c, bool_decide (clients_user_id c = u)) (clients s))
      else []
  end.
End collation.



(** ** The components' own statements

    The browser client sends the session of the signed-in user, so
    [auth.uid()] is [user rq]; these statements carry no [user_id] filter
    and rely on the policies alone. *)

(** [from("project_clients").insert(projectClientData)], as both project
    modals send it: one row per selected client. *)
Definition insert_project_clients (rq : request)
    (projectClientData : list (PartialProjectClient.t * uuid)) (s : db)
    : db * result unit :=
  supabase rq s
    ((λ s', (s', ())) <$>
       project_clients_insert (user rq) projectClientData (CURRENT_TIMESTAMP rq) s).

(** [from("project_clients").delete().eq("project_id", id)], as the edit
    modal sends it before it writes the selection again. *)
Definition delete_project_clients (rq : request) (project_id : uuid) (s : db)
    : db * result unit :=
  supabase rq s
    (Ok (project_clients_delete (user rq)
           (λ l, bool_decide (project_clients_project_id l = project_id)) s, ())).

(** [handleDeleteProject]: [from("projects").delete().eq("id", id)];
    returns whether the call reported no error. *)
Definition handleDeleteProject (rq : request) (id : uuid) (s : db) : db * bool :=
  match supabase rq s
          (Ok (projects_delete (user rq) (λ p, bool_decide (projects_id p = id)) s)) with
  | (s', Ok _) => (s', true)
  | (s', Error _) => (s', false)
  end.

(** [handleDeleteClient]: [from("clients").delete().eq("id", id)]. *)
Definition handleDeleteClient (rq : request) (id : uuid) (s : db) : db * bool :=
  match supabase rq s
          (Ok (clients_delete (user rq) (λ c, bool_decide (clients_id c = id)) s)) with
  | (s', Ok _) => (s', true)
  | (s', Error _) => (s', false)
  end.

(** ** NUMERIC arithmetic

    A [NUMERIC] value is an integer count of units of [10^-scale].
    Division rounds its quotient to the result scale and [ROUND] rounds to
    an integer, both to the nearest value with ties away from zero. *)

Record numeric := { digits : Z; scale : nat }.

Definition div_round (a b : Z) : Z :=
  Z.sgn a * Z.sgn b * ((2 * Z.abs a + Z.abs b) / (2 * Z.abs b)).

Definition numeric_of_integer (n : Z) : numeric := {| digits := n; scale := 0 |}.

Definition numeric_mul (x y : numeric) : numeric :=
  {| digits := digits x * digits y; scale := scale x + scale y |}.

(** [ROUND(x)], as an integer. *)
Definition numeric_round (x : numeric) : Z :=
  div_round (digits x) (10 ^ Z.of_nat (scale x)).

(** [INTEGER] is 32 bits wide; a value outside it is an error. *)
Definition int4_min : Z := -2147483648.
Definition int4_max : Z := 2147483647.
Definition to_integer (v : Z) : result Z :=
  _ ← require (bool_decide (int4_min ≤ v ≤ int4_max)) numeric_value_out_of_range;
  Ok v.

(** The spec's [round(n / d)] with round-half-up semantics, for [0 ≤ n]
    and [0 < d]: the integer [r] with [r - 1/2 ≤ n/d < r + 1/2]. *)
Definition round_half_up (n d : Z) : Z := (2 * n + d) / (2 * d).

Section progress.
(** The scale PostgreSQL selects for the quotient of a [NUMERIC]
    division; it is chosen from the operands so that the quotient keeps
    at least 16 significant digits. *)
Variable select_div_scale : Z → Z → nat.

Definition numeric_div (x y : numeric) : numeric :=
  let rscale := select_div_scale (digits x) (digits y) in
  {| digits := div_round (digits x * 10 ^ Z.of_nat (rscale + scale y))
                         (digits y * 10 ^ Z.of_nat (scale x));
     scale := rscale |}.

(** [calculate_project_progress(project_uuid)].  The function is not
    [SECURITY DEFINER]: it counts the tasks the caller's policies show. *)
Definition calculate_project_progress (auth_uid : option uuid) (s : db)
    (project_uuid : uuid) : result Z :=
  total_tasks ← to_integer (Z.of_nat (length
    (select_rows (tasks_policy auth_uid s)
       (λ t, bool_decide (tasks_project_id t = project_uuid)) (tasks s))));
  if bool_decide (total_tasks = 0) then Ok 0 else
  completed_tasks ← to_integer (Z.of_nat (length
    (select_rows (tasks_policy auth_uid s)
       (λ t, bool_decide (tasks_project_id t = project_uuid) &&
             bool_decide (tasks_completed t = Some true)) (tasks s))));
  progress_percentage ← to_integer (numeric_round
    (numeric_mul (numeric_div (numeric_of_integer completed_tasks)
                              (numeric_of_integer total_tasks))
                 (numeric_of_integer 100)));
  Ok progress_percentage.
End progress.

(** ** The [project_stats] view *)

Module ProjectStats.
Record t := {
  user_id : uuid;
  total_projects : Z;
  active_projects : Z;
  completed_projects : Z;
  delivered_projects : Z;
  total_budget : Z;
  total_revenue : Z;
  average_progress : numeric }.
End ProjectStats.

(** The running aggregates of one group of [GROUP BY user_id].  [SUM] and
    [AVG] skip [NULL] and are [NULL] until they have seen a value. *)
Record group := {
  count_all : Z;
  count_in_progress : Z;
  count_completed : Z;
  count_delivered : Z;
  sum_budget : option Z;
  sum_paid_amount : option Z;
  sum_progress : option Z;
  count_progress : Z }.

Definition group_init : group :=
  {| count_all := 0; count_in_progress := 0; count_completed := 0;
     count_delivered := 0; sum_budget := None; sum_paid_amount := None;
     sum_progress := None; count_progress := 0 |}.

Definition sum_step (v acc : option Z) : option Z :=
  match v with
  | None => acc
  | Some x => Some (x + default 0 acc)
  end.

Definition count_if (b : bool) (n : Z) : Z := if b then 1 + n else n.

Definition group_step (p : Project) (g : group) : group :=
  {| count_all := 1 + count_all g;
     count_in_progress :=
       count_if (bool_decide (projects_status p = in_progress)) (count_in_progress g);
     count_completed :=
       count_if (bool_decide (projects_status p = completed)) (count_completed g);
     count_delivered :=
       count_if (bool_decide (projects_status p = delivered)) (count_delivered g);
     sum_budget := sum_step (projects_budget p) (sum_budget g);
     sum_paid_amount := sum_step (projects_paid_amount p) (sum_paid_amount g);
     sum_progress := sum_step (projects_progress p) (sum_progress g);
     count_progress :=
       count_if (bool_decide (is_Some (projects_progress p))) (count_progress g) |}.

(** [FROM projects GROUP BY user_id]: a group exists once a row falls into
    it.  The aggregates are sums, so the order of the scan does not
    matter. *)
Definition group_by_user_id (rows : list Project) : gmap uuid group :=
  foldr (λ p m, <[projects_user_id p :=
                    group_step p (default group_init (m !! projects_user_id p))]> m)
        ∅ rows.

Section statistics.
Variable select_div_scale : Z → Z → nat.

(** [AVG(progress)] of an [INTEGER] column: the sum divided by the count,
    as [NUMERIC]; [NULL] when no value was seen. *)
Definition AVG (sum : option Z) (count : Z) : option numeric :=
  (λ x, numeric_div select_div_scale (numeric_of_integer x) (numeric_of_integer count))
  <$> sum.

Definition project_stats_row (u : uuid) (g : group) : ProjectStats.t :=
  {| ProjectStats.user_id := u;
     ProjectStats.total_projects := count_all g;
     ProjectStats.active_projects := count_in_progress g;
     ProjectStats.completed_projects := count_completed g;
     ProjectStats.delivered_projects := count_delivered g;
     ProjectStats.total_budget := default 0 (COALESCE [sum_budget g; Some 0]);
     ProjectStats.total_revenue := default 0 (COALESCE [sum_paid_amount g; Some 0]);
     ProjectStats.average_progress :=
       default (numeric_of_integer 0)
         (COALESCE [AVG (sum_progress g) (count_progress g);
                    Some (numeric_of_integer 0)]) |}.

(** The view, keyed by its [user_id] column: one row per group. *)
Definition project_stats (s : db) : gmap uuid ProjectStats.t :=
  map_imap (λ u g, Some (project_stats_row u g)) (group_by_user_id (projects s)).

(** What the spec asks of the aggregate over the projects an identity
    owns: the count, the count per status, the sums of [budget] and of
    [paid_amount] over the rows that have one, the average of [progress]
    over the rows that have one. *)
Definition total_of (f : Project → option Z) (l : list Project) : Z :=
  foldr Z.add 0 (omap f l).

Definition aggregate_of (u : uuid) (owned : list Project) : ProjectStats.t :=
  {| ProjectStats.user_id := u;
     ProjectStats.total_projects := Z.of_nat (length owned);
     ProjectStats.active_projects :=
       Z.of_nat (length (filter (λ p, projects_status p = in_progress) owned));
     ProjectStats.completed_projects :=
       Z.of_nat (length (filter (λ p, projects_status p = completed) owned));
     ProjectStats.delivered_projects :=
       Z.of_nat (length (filter (λ p, projects_status p = delivered) owned));
     ProjectStats.total_budget := total_of projects_budget owned;
     ProjectStats.total_revenue := total_of projects_paid_amount owned;
     ProjectStats.average_progress :=
       match omap projects_progress owned with
       | [] => numeric_of_integer 0
       | vs => numeric_div select_div_scale
                 (numeric_of_integer (foldr Z.add 0 vs))
                 (numeric_of_integer (Z.of_nat (length vs)))
       end |}.
End statistics.

(** The record the spec expects for an identity without projects. *)
Definition all_zero (u : uuid) : ProjectStats.t :=
  {| ProjectStats.user_id := u; ProjectStats.total_projects := 0;
     ProjectStats.active_projects := 0; ProjectStats.completed_projects := 0;
     ProjectStats.delivered_projects := 0; ProjectStats.total_budget := 0;
     ProjectStats.total_revenue := 0;
     ProjectStats.average_progress := numeric_of_integer 0 |}.

(** ** The statistics of the dashboard overview component *)

Module DashboardOverview.
Record statistics := {
  totalProjects : Z;
  activeProjects : Z;
  completedProjects : Z;
  totalRevenue : Z }.

(** [p.paid_amount || 0] *)
Definition paid_amount_or_0 (p : Project) : Z := default 0 (projects_paid_amount p).

Definition calculate (projects : list Project) : statistics :=
  {| totalProjects := Z.of_nat (length projects);
     activeProjects :=
       Z.of_nat (length (filter (λ p, projects_status p = in_progress) projects));
     completedProjects :=
       Z.of_nat (length (filter (λ p, projects_status p = completed ∨
                                      projects_status p = delivered) projects));
     totalRevenue :=
       foldl (λ sum p, sum + paid_amount_or_0 p) 0
         (filter (λ p, projects_type p = client) projects) |}.
End DashboardOverview.

(** ** Sample rows *)

Definition alice : uuid := 1%N.
Definition bob : uuid := 2%N.

Definition sample_profile (id : uuid) (email : string) : Profile :=
  {| profiles_id := id; profiles_email := email; profiles_full_name := None;
     profiles_avatar_url := None; profiles_created_at := Some 0;
     profiles_updated_at := Some 0 |}.

Definition sample_project (id owner : uuid) (status : project_status)
    (progress : option Z) : Project :=
  {| projects_id := id; projects_user_id := owner; projects_title := "site";
     projects_description := None; projects_type := client; projects_status := status;
     projects_payment_status := unpaid; projects_progress := progress;
     projects_budget := Some 150000; projects_paid_amount := Some 50000;
     projects_start_date := None; projects_end_date := None; projects_deadline := None;
     projects_created_at := Some 10; projects_updated_at := Some 10 |}.

Definition sample_client (id owner : uuid) : Client :=
  {| clients_id := id; clients_user_id := owner; clients_name := "Acme";
     clients_email := None; clients_phone := None; clients_company := None;
     clients_notes := None; clients_created_at := Some 10;
     clients_updated_at := Some 10 |}.

Definition sample_task (id project_id : uuid) (completed : bool) : Task :=
  {| tasks_id := id; tasks_project_id := project_id; tasks_title := "task";
     tasks_description := None; tasks_completed := Some completed;
     tasks_priority := Some 1; tasks_due_date := None; tasks_created_at := Some 10;
     tasks_updated_at := Some 10 |}.

Definition sample_link (id project_id client_id : uuid) : ProjectClient :=
  {| project_clients_id := id; project_clients_project_id := project_id;
     project_clients_client_id := client_id; project_clients_reference_note := None;
     project_clients_created_at := Some 10 |}.

Definition sample_auth_user (id : uuid) (email : string) : AuthUser :=
  {| auth_id := id; auth_email := email; raw_user_meta_data := ∅ |}.

(** Alice owns project 10, with four tasks of which three are done, and
    client 20, linked to the project; Bob owns project 11 and client 21. *)
Definition sample_db : db :=
  {| auth_users := [sample_auth_user alice "alice@example.org";
                    sample_auth_user bob "bob@example.org"];
     profiles := [sample_profile alice "alice@example.org";
                  sample_profile bob "bob@example.org"];
     projects := [sample_project 10 alice in_progress (Some 40);
                  sample_project 11 bob completed (Some 100)];
     clients := [sample_client 20 alice; sample_client 21 bob];
     project_clients := [sample_link 30 10 20];
     tasks := [sample_task 40 10 true; sample_task 41 10 true;
               sample_task 42 10 false; sample_task 43 10 true];
     project_timeline := [] |}.

Definition sample_request (u : option uuid) : request :=
  {| user := u; Date_now := 100; CURRENT_TIMESTAMP := 101; gen_random_uuid := 99%N;
     storage_reachable := true |}.

(** ** Notions used to state the properties *)

(** The pair that [UNIQUE(project_id, client_id)] keeps unique. *)
Definition link_pair (l : ProjectClient) : uuid * uuid :=
  (project_clients_project_id l, project_clients_client_id l).

(** The display name [handle_new_user] derives, in its order of
    preference. *)
Definition display_name (NEW : AuthUser) : string :=
  match raw_user_meta_data NEW !! "full_name"%string with
  | Some n => n
  | None =>
      match raw_user_meta_data NEW !! "name"%string with
      | Some n => n
      | None => split_part (auth_email NEW) "@" 1
      end
  end.

(** The invariant the spec states for [progress]. *)
Definition progress_in_range (r : Project) : Prop :=
  ∃ v, projects_progress r = Some v ∧ 0 ≤ v ≤ 100.

(** The invariant the [CHECK] constraint keeps. *)
Definition progress_null_or_in_range (r : Project) : Prop :=
  ∀ v, projects_progress r = Some v → 0 ≤ v ≤ 100.



(** Two updates of project 10; the first supplies an [updated_at] older
    than the stored one. *)
Definition sample_updates (progress : Z) (stamp : option timestamptz) : PartialProject.t :=
  {| PartialProject.id := None; PartialProject.user_id := None;
     PartialProject.title := None; PartialProject.description := None;
     PartialProject.type := None; PartialProject.status := None;
     PartialProject.payment_status := None;
     PartialProject.progress := Some (Some progress); PartialProject.budget := None;
     PartialProject.paid_amount := None; PartialProject.start_date := None;
     PartialProject.end_date := None; PartialProject.deadline := None;
     PartialProject.created_at := None; PartialProject.updated_at := Some <$> stamp |}.



(** The same for a client. *)
Definition without_client (id : uuid) (s : db) : db :=
  cascade_clients [id]
    (with_clients s (filter (λ c, clients_id c ≠ id) (clients s))).

(** A project a caller tries to create under an id of their choosing. *)
Definition sample_new_project (id : uuid) : PartialProject.t :=
  {| PartialProject.id := Some id; PartialProject.user_id := None;
     PartialProject.title := Some "probe"%string;
     PartialProject.description := None; PartialProject.type := None;
     PartialProject.status := None; PartialProject.payment_status := None;
     PartialProject.progress := None; PartialProject.budget := None;
     PartialProject.paid_amount := None; PartialProject.start_date := None;
     PartialProject.end_date := None; PartialProject.deadline := None;
     PartialProject.created_at := None; PartialProject.updated_at := None |}.

(** A link a caller tries to put between a project and a client. *)
Definition sample_new_link (project_id client_id : uuid) : PartialProjectClient.t :=
  {| PartialProjectClient.id := None;
     PartialProjectClient.project_id := Some project_id;
     PartialProjectClient.client_id := Some client_id;
     PartialProjectClient.reference_note := None;
     PartialProjectClient.created_at := None |}.

(** ** More of the code: profiles *)

Module PartialProfile.
Record t := {
  id : option uuid;
  email : option string;
  full_name : option (option string);
  avatar_url : option (option string);
  created_at : option (option timestamptz);
  updated_at : option (option timestamptz) }.
End PartialProfile.

Definition assign_profile (u : PartialProfile.t) (r : Profile) : Profile :=
  {| profiles_id := default (profiles_id r) (PartialProfile.id u);
     profiles_email := default (profiles_email r) (PartialProfile.email u);
     profiles_full_name := default (profiles_full_name r) (PartialProfile.full_name u);
     profiles_avatar_url := default (profiles_avatar_url r) (PartialProfile.avatar_url u);
     profiles_created_at := default (profiles_created_at r) (PartialProfile.created_at u);
     profiles_updated_at := default (profiles_updated_at r) (PartialProfile.updated_at u) |}.

Definition profiles_row_check (auth_uid : option uuid) (r : Profile) : result unit :=
  require (profiles_policy auth_uid r) insufficient_privilege.

(** [UPDATE profiles SET ... WHERE ...]: [id] is the primary key, [email]
    is [UNIQUE], [id] references [auth.users(id)], and projects and clients
    reference [profiles(id)]. *)
Definition profiles_update (auth_uid : option uuid) (where_ : Profile → bool)
    (u : PartialProfile.t) (current_timestamp : timestamptz) (s : db)
    : result (db * list Profile) :=
  '(tbl, ret) ← update_rows (profiles_policy auth_uid) where_ (assign_profile u)
                  (update_updated_at_column current_timestamp)
                  (profiles_row_check auth_uid) (profiles s);
  _ ← require (bool_decide (PartialProfile.id u = None ∨ NoDup (profiles_id <$> tbl)))
              unique_violation;
  _ ← require (bool_decide (PartialProfile.email u = None ∨
                            NoDup (profiles_email <$> tbl)))
              unique_violation;
  _ ← require (bool_decide (PartialProfile.id u = None ∨
                 Forall (λ r, profiles_id r ∈ auth_id <$> auth_users s) ret))
              foreign_key_violation;
  _ ← require (bool_decide (PartialProfile.id u = None ∨
                 Forall (λ i, i ∈ profiles_id <$> profiles s → i ∈ profiles_id <$> tbl)
                   ((projects_user_id <$> projects s) ++
                    (clients_user_id <$> clients s))))
              foreign_key_violation;
  Ok (with_profiles s tbl, ret).

Definition getProfile (rq : request) (s : db) : option Profile :=
  match user rq with
  | None => None
  | Some u =>
      if storage_reachable rq then
        match single (select_rows (profiles_policy (Some u))
                        (λ r, bool_decide (profiles_id r = u)) (profiles s)) with
        | Ok data => Some data
        | Error _ => None
        end
      else None
  end.

Definition updateProfile (rq : request) (updates : PartialProfile.t) (s : db)
    : db * option Profile :=
  match user rq with
  | None => (s, None)
  | Some u =>
      match supabase rq s
              (returning_single
                 (profiles_update (Some u) (λ r, bool_decide (profiles_id r = u))
                    updates (CURRENT_TIMESTAMP rq) s)) with
      | (s', Ok data) => (s', Some data)
      | (s', Error _) => (s', None)
      end
  end.

(** ** The constraints of the schema, as predicates on a database *)


(** Every [REFERENCES] constraint: no row points at a row that is not
    there. *)
Definition references_ok (s : db) : Prop :=
  Forall (λ r, profiles_id r ∈ auth_id <$> auth_users s) (profiles s) ∧
  Forall (λ p, projects_user_id p ∈ profiles_id <$> profiles s) (projects s) ∧
  Forall (λ c, clients_user_id c ∈ profiles_id <$> profiles s) (clients s) ∧
  Forall (λ l, project_clients_project_id l ∈ projects_id <$> projects s ∧
               project_clients_client_id l ∈ clients_id <$> clients s)
         (project_clients s) ∧
  Forall (λ t, tasks_project_id t ∈ projects_id <$> projects s) (tasks s) ∧
  Forall (λ e, project_timeline_project_id e ∈ projects_id <$> projects s)
         (project_timeline s).

(** The invariant the [CHECK] constraint on tasks keeps. *)
Definition priority_null_or_in_range (t : Task) : Prop :=
  ∀ v, tasks_priority t = Some v → 1 ≤ v ≤ 5.


(** An update that names another owner for the rows it matches. *)
Definition sample_transfer (owner : uuid) : PartialProject.t :=
  {| PartialProject.id := None; PartialProject.user_id := Some owner;
     PartialProject.title := None; PartialProject.description := None;
     PartialProject.type := None; PartialProject.status := None;
     PartialProject.payment_status := None; PartialProject.progress := None;
     PartialProject.budget := None; PartialProject.paid_amount := None;
     PartialProject.start_date := None; PartialProject.end_date := None;
     PartialProject.deadline := None; PartialProject.created_at := None;
     PartialProject.updated_at := None |}.

(** An update of the priority of the tasks it matches. *)
Definition sample_priority (v : Z) : PartialTask.t :=
  {| PartialTask.id := None; PartialTask.project_id := None; PartialTask.title := None;
     PartialTask.description := None; PartialTask.completed := None;
     PartialTask.priority := Some (Some v); PartialTask.due_date := None;
     PartialTask.created_at := None; PartialTask.updated_at := None |}.

(** ** The list pages: pagination

    [ProjectsListWrapper] and [ClientsListWrapper] cut the filtered and
    sorted list into pages in the same way. *)

(** [Array.prototype.slice(start, end)]: a negative index counts from the
    end, and both are clamped to the array. *)
Definition slice {A} (start end_ : Z) (l : list A) : list A :=
  let len := Z.of_nat (length l) in
  let k := if bool_decide (start < 0) then Z.max (len + start) 0 else Z.min start len in
  let final := if bool_decide (end_ < 0) then Z.max (len + end_) 0 else Z.min end_ len in
  take (Z.to_nat (final - k)) (drop (Z.to_nat k) l).

Definition ITEMS_PER_PAGE : Z := 12.

(** [Math.ceil(n / d)] for a length [n] and [d = ITEMS_PER_PAGE]: the
    least integer that is not below the quotient. *)
Definition Math_ceil_div (n d : Z) : Z := - ((- n) / d).

(** [Math.ceil(filteredAndSortedProjects.length / ITEMS_PER_PAGE)] *)
Definition totalPages {A} (items : list A) : Z :=
  Math_ceil_div (Z.of_nat (length items)) ITEMS_PER_PAGE.

(** [filteredAndSortedProjects.slice(startIndex, endIndex)] *)
Definition paginatedProjects {A} (currentPage : Z) (items : list A) : list A :=
  let startIndex := (currentPage - 1) * ITEMS_PER_PAGE in
  let endIndex := startIndex + ITEMS_PER_PAGE in
  slice startIndex endIndex items.

(** ** The project modals

    [components/edit-project-modal.tsx]; the create modal keeps its
    selection of clients with the same [handleClientToggle] and writes the
    links with the same [projectClientData]. *)

(** The form values [onSubmit] receives once [projectSchema] has accepted
    them.  A date input holds a date or the empty string, which is [None]
    here. *)
Module ProjectFormData.
Record t := {
  title : string;
  description : option string;
  type : project_type;
  status : project_status;
  payment_status : payment_status;
  budget : option string;
  paid_amount : option string;
  deadline : option date;
  progress : Z }.
End ProjectFormData.

(** [x || null], and the test [x ? ... : ...], for a string that may be
    absent: the empty string counts as absent. *)
Definition or_null (x : option string) : option string :=
  match x with
  | None | Some EmptyString => None
  | Some v => Some v
  end.

(** [Math.max(0, Math.min(100, progress + increment))] *)
Definition adjustProgress (progress increment : Z) : Z :=
  Z.max 0 (Z.min 100 (progress + increment)).

(** [checked ? [...prev, clientId] : prev.filter((id) => id !== clientId)] *)
Definition handleClientToggle (clientId : uuid) (checked : bool) (prev : list uuid)
    : list uuid :=
  if checked then prev ++ [clientId] else filter (λ id, id ≠ clientId) prev.

(** [selectedClients.map((clientId) => ({ project_id, client_id: clientId }))],
    each row with the id the database generates for it: [gen_random_uuid i]
    for the row at index [i]. *)
Definition projectClientData (gen_random_uuid : nat → uuid) (project_id : uuid)
    (selectedClients : list uuid) : list (PartialProjectClient.t * uuid) :=
  imap (λ i clientId,
          ({| PartialProjectClient.id := None;
              PartialProjectClient.project_id := Some project_id;
              PartialProjectClient.client_id := Some clientId;
              PartialProjectClient.reference_note := None;
              PartialProjectClient.created_at := None |},
           gen_random_uuid i))
       selectedClients.

Section edit_project_modal.
(** [Number.parseFloat] followed by the coercion of the JSON number to
    [DECIMAL(10,2)]: the amount in hundredths; [None] when the string holds
    no number, which is sent as [null]. *)
Variable parseFloat : string → option Z.

(** The [projectData] of [onSubmit]; [progress] is the state of the modal,
    not the form value. *)
Definition edit_projectData (data : ProjectFormData.t) (progress : Z) : PartialProject.t :=
  {| PartialProject.id := None; PartialProject.user_id := None;
     PartialProject.title := Some (ProjectFormData.title data);
     PartialProject.description := Some (or_null (ProjectFormData.description data));
     PartialProject.type := Some (ProjectFormData.type data);
     PartialProject.status := Some (ProjectFormData.status data);
     PartialProject.payment_status := Some (ProjectFormData.payment_status data);
     PartialProject.progress := Some (Some progress);
     PartialProject.budget :=
       Some (match or_null (ProjectFormData.budget data) with
             | Some b => parseFloat b
             | None => None
             end);
     PartialProject.paid_amount :=
       Some (match or_null (ProjectFormData.paid_amount data) with
             | Some a => parseFloat a
             | None => Some 0
             end);
     PartialProject.start_date := None; PartialProject.end_date := None;
     PartialProject.deadline := Some (ProjectFormData.deadline data);
     PartialProject.created_at := None; PartialProject.updated_at := None |}.

(** [onSubmit] of the edit modal: three calls of the supabase client, each
    with its own request.  The answer is the row passed to [onSuccess], or
    [None] when the modal reports a failure.  The answers of the delete and
    of the insert of the links are not acted upon. *)
Definition onSubmit (rq_update rq_delete rq_insert : request)
    (gen_random_uuid : nat → uuid) (project : Project) (data : ProjectFormData.t)
    (progress : Z) (selectedClients : list uuid) (s : db) : db * option Project :=
  match supabase rq_update s
          (returning_single
             (projects_update (user rq_update)
                (λ p, bool_decide (projects_id p = projects_id project))
                (edit_projectData data progress) (CURRENT_TIMESTAMP rq_update) s)) with
  | (s1, Error _) => (s1, None)
  | (s1, Ok updatedProject) =>
      if bool_decide (ProjectFormData.type data = client) then
        let s2 := (delete_project_clients rq_delete (projects_id project) s1).1 in
        let s3 :=
          if bool_decide (0 < length selectedClients)%nat then
            (insert_project_clients rq_insert
               (projectClientData gen_random_uuid (projects_id project) selectedClients)
               s2).1
          else s2 in
        (s3, Some updatedProject)
      else (s1, Some updatedProject)
  end.
End edit_project_modal.

Section fetch_clients.
Variable text_le : relation string.
Context `{∀ a b, Decision (text_le a b)}.

(** [fetchClients] of the create-project modal, and the first call of
    the edit modal's:
    [from("clients").select("*").order("name", { ascending: true })],
    without a filter on the owner.  [None] when the call reports an error
    and the list of the modal stays as it was. *)
Definition fetchClients (rq : request) (s : db) : option (list Client) :=
  if storage_reachable rq then
    Some (merge_sort (λ a b, text_le (clients_name a) (clients_name b))
            (select_rows (clients_policy (user rq)) (λ _, true) (clients s)))
  else None.
End fetch_clients.

(** Form values for the project of the sample database, and a generator
    of row ids. *)
Definition sample_form : ProjectFormData.t :=
  {| ProjectFormData.title := "site"; ProjectFormData.description := None;
     ProjectFormData.type := client; ProjectFormData.status := in_progress;
     ProjectFormData.payment_status := partial; ProjectFormData.budget := None;
     ProjectFormData.paid_amount := None; ProjectFormData.deadline := None;
     ProjectFormData.progress := 40 |}.

Definition sample_gen (i : nat) : uuid := (50 + N.of_nat i)%N.

(** ** The [projects_with_clients] view *)


(** [json_build_object('id', c.id, 'name', c.name, 'email', c.email,
    'company', c.company)] *)
Record client_json := {
  json_id : uuid;
  json_name : string;
  json_email : option string;
  json_company : option string }.


Module ProjectWithClients.
Record t := {
  row : Project;
  clients : list client_json }.
End ProjectWithClients.



(** ** The settings form *)

(** [{ full_name: formData.full_name, email: formData.email }] *)
Definition settings_update (full_name email : string) : PartialProfile.t :=
  {| PartialProfile.id := None; PartialProfile.email := Some email;
     PartialProfile.full_name := Some (Some full_name);
     PartialProfile.avatar_url := None; PartialProfile.created_at := None;
     PartialProfile.updated_at := None |}.

(** [{ ...prev, full_name: formData.full_name, email: formData.email }] *)
Definition with_form_values (full_name email : string) (prev : Profile) : Profile :=
  {| profiles_id := profiles_id prev; profiles_email := email;
     profiles_full_name := Some full_name;
     profiles_avatar_url := profiles_avatar_url prev;
     profiles_created_at := profiles_created_at prev;
     profiles_updated_at := profiles_updated_at prev |}.

(** [handleSubmit] of the settings form:
    [from("profiles").update({ full_name, email }).eq("id", user.id)], then
    the profile the page keeps takes the form values.  The answer is the
    profile the page keeps afterwards, or [None] when the form reports a
    failure and keeps what it had. *)
Definition handleSubmit (rq : request) (full_name email : string)
    (profile : option Profile) (s : db) : db * option (option Profile) :=
  match user rq with
  | None => (s, None)
  | Some u =>
      match supabase rq s
              (profiles_update (Some u) (λ r, bool_decide (profiles_id r = u))
                 (settings_update full_name email) (CURRENT_TIMESTAMP rq) s) with
      | (s', Ok _) => (s', Some (with_form_values full_name email <$> profile))
      | (s', Error _) => (s', None)
      end
  end.

(** ** The create-project modal *)

Module CreateProjectModal.
(** The form values its [projectSchema] accepts. *)
Module ProjectFormData.
Record t := {
  title : string;
  description : option string;
  type : project_type;
  status : project_status;
  payment_status : payment_status;
  budget : option string;
  deadline : option date;
  clientIds : option (list uuid) }.
End ProjectFormData.

Section create_project_modal.
Variable parseFloat : string → option Z.

(** The [projectData] of [onSubmit]: the row is the caller's and starts
    with no progress and nothing paid. *)
Definition projectData (data : ProjectFormData.t) (user_id : uuid) : PartialProject.t :=
  {| PartialProject.id := None; PartialProject.user_id := Some user_id;
     PartialProject.title := Some (ProjectFormData.title data);
     PartialProject.description := Some (or_null (ProjectFormData.description data));
     PartialProject.type := Some (ProjectFormData.type data);
     PartialProject.status := Some (ProjectFormData.status data);
     PartialProject.payment_status := Some (ProjectFormData.payment_status data);
     PartialProject.progress := Some (Some 0);
     PartialProject.budget :=
       Some (match or_null (ProjectFormData.budget data) with
             | Some b => parseFloat b
             | None => None
             end);
     PartialProject.paid_amount := Some (Some 0);
     PartialProject.start_date := None; PartialProject.end_date := None;
     PartialProject.deadline := Some (ProjectFormData.deadline data);
     PartialProject.created_at := None; PartialProject.updated_at := None |}.

(** [onSubmit]: the insert of the project, then, for a client project with
    a selection, the insert of its links, whose answer is not acted upon;
    [link_uuid i] is the id the database generates for the link at index
    [i].  The answer is the row passed to [onSuccess], or [None] when the
    modal reports a failure. *)
Definition onSubmit (rq_insert rq_links : request) (link_uuid : nat → uuid)
    (data : ProjectFormData.t) (selectedClients : list uuid) (s : db)
    : db * option Project :=
  match user rq_insert with
  | None => (s, None)
  | Some u =>
      match supabase rq_insert s
              (projects_insert (Some u) (projectData data u)
                 (gen_random_uuid rq_insert) (CURRENT_TIMESTAMP rq_insert) s) with
      | (s1, Error _) => (s1, None)
      | (s1, Ok newProject) =>
          if bool_decide (0 < length selectedClients)%nat &&
             bool_decide (ProjectFormData.type data = client) then
            ((insert_project_clients rq_links
                (projectClientData link_uuid (projects_id newProject)
                   selectedClients) s1).1,
             Some newProject)
          else (s1, Some newProject)
      end
  end.
End create_project_modal.

(** Form values for a client project. *)
Definition sample_form : ProjectFormData.t :=
  {| ProjectFormData.title := "shop"; ProjectFormData.description := Some "";
     ProjectFormData.type := client; ProjectFormData.status := pending;
     ProjectFormData.payment_status := unpaid; ProjectFormData.budget := None;
     ProjectFormData.deadline := None; ProjectFormData.clientIds := Some [] |}.
End CreateProjectModal.

(** * Properties *)

(** ** Derived progress *)

Lemma div_round_nonneg (a b : Z) :
  0 ≤ a → 0 < b → div_round a b = (2 * a + b) / (2 * b).
Proof.
  intros Ha Hb. unfold div_round.
  rewrite (Z.abs_eq a), (Z.abs_eq b), (Z.sgn_pos b) by lia.
  destruct (Z.eq_dec a 0) as [->|Hne].
  - simpl. symmetry. apply Z.div_small. lia.
  - rewrite Z.sgn_pos by lia. lia.
Qed.

Lemma pow10_ge16 (n : nat) :
  (16 ≤ n)%nat → ∃ k, 0 < k ∧ 10 ^ Z.of_nat n = 10 ^ 16 * k.
Proof.
  intros Hn. exists (10 ^ (Z.of_nat n - 16)). split.
  - apply Z.pow_pos_nonneg; lia.
  - rewrite <- Z.pow_add_r by lia. f_equal. lia.
Qed.

(** Rounding the quotient to [S = 10^rscale] first, multiplying by 100 and
    rounding again gives the same integer as rounding [100 c / t] once, as
    long as [100 t < S] and [200] divides [S]. *)
Lemma round_twice (c t S k : Z) :
  0 ≤ c → 0 < t → S = 200 * k → 100 * t < S →
  (2 * (((2 * (c * S) + t) / (2 * t)) * 100) + S) / (2 * S) = round_half_up (100 * c) t.
Proof.
  intros Hc Ht HS Hbig. unfold round_half_up.
  set (q := (2 * (c * S) + t) / (2 * t)).
  set (R := (2 * (100 * c) + t) / (2 * t)).
  assert (Hq : 2 * t * q ≤ 2 * (c * S) + t < 2 * t * q + 2 * t).
  { pose proof (Z.div_mod (2 * (c * S) + t) (2 * t) ltac:(lia)) as E.
    pose proof (Z.mod_pos_bound (2 * (c * S) + t) (2 * t) ltac:(lia)). fold q in E. lia. }
  assert (HR : 2 * t * R ≤ 2 * (100 * c) + t < 2 * t * R + 2 * t).
  { pose proof (Z.div_mod (2 * (100 * c) + t) (2 * t) ltac:(lia)) as E.
    pose proof (Z.mod_pos_bound (2 * (100 * c) + t) (2 * t) ltac:(lia)). fold R in E. lia. }
  clearbody q R.
  assert (HSpos : 0 < S) by lia.
  symmetry. apply (Z.div_unique_pos _ _ R (2 * (q * 100) + S - 2 * S * R)); [|lia].
  split.
  - (* lower bound: 2 S R ≤ 200 q + S *)
    destruct (Z.eq_dec (2 * (100 * c) + t) (2 * t * R)) as [Heq|Hne].
    + (* the exact half: the first quotient is exact *)
      assert (Hc' : 2 * (c * S) = 2 * k * (2 * R - 1) * t) by nia.
      assert (q = k * (2 * R - 1)) by nia.
      subst q. nia.
    + assert (2 * t * R + 1 ≤ 2 * (100 * c) + t) by lia.
      assert (t * (2 * S * R) ≤ t * (2 * (q * 100) + S)) by nia.
      apply Z.mul_le_mono_pos_l in H0; lia.
  - assert (t * (2 * (q * 100) + S) < t * (2 * S * R + 2 * S)) by nia.
    apply Z.mul_lt_mono_pos_l in H; lia.
Qed.

(** [round_half_up n d] is the integer within one half of [n / d], the
    upper one at a tie. *)
Lemma round_half_up_spec (n d r : Z) :
  0 < d → (r = round_half_up n d ↔ 2 * d * r - d ≤ 2 * n < 2 * d * r + d).
Proof.
  intros Hd. unfold round_half_up. split.
  - intros ->.
    pose proof (Z.div_mod (2 * n + d) (2 * d) ltac:(lia)).
    pose proof (Z.mod_pos_bound (2 * n + d) (2 * d) ltac:(lia)). lia.
  - intros H. apply (Z.div_unique_pos _ _ r (2 * n + d - 2 * d * r)); lia.
Qed.

Lemma round_half_up_percent_range (c t : Z) :
  0 ≤ c ≤ t → 0 < t → 0 ≤ round_half_up (100 * c) t ≤ 100.
Proof.
  intros Hc Ht. unfold round_half_up. split.
  - apply Z.div_pos; lia.
  - apply Z.lt_succ_r, Z.div_lt_upper_bound; lia.
Qed.

Lemma length_filter_and {A} (P Q : A → Prop)
    `{∀ x, Decision (P x)} `{∀ x, Decision (Q x)} (l : list A) :
  (length (filter (λ x, P x ∧ Q x) l) ≤ length (filter P l))%nat.
Proof.
  induction l as [|x l IH]; [done|].
  rewrite !filter_cons. repeat case_decide; simpl; try lia; tauto.
Qed.

(** An owner sees every task of the project. *)
Lemma owner_sees_tasks auth_uid s project_uuid (where_ : Task → bool) :
  owns_project auth_uid s project_uuid = true →
  (∀ t, where_ t → tasks_project_id t = project_uuid) →
  select_rows (tasks_policy auth_uid s) where_ (tasks s)
  = filter (λ t, where_ t) (tasks s).
Proof.
  intros Hown Hw. unfold select_rows. apply list_filter_iff. intros t.
  unfold tasks_policy. rewrite andb_True. split.
  - intros [_ ?]. done.
  - intros H. split; [|done]. rewrite (Hw t H), Hown. done.
Qed.

(** A caller who does not own the project sees none of its tasks. *)
Lemma stranger_sees_no_tasks auth_uid s project_uuid (where_ : Task → bool) :
  owns_project auth_uid s project_uuid = false →
  (∀ t, where_ t → tasks_project_id t = project_uuid) →
  select_rows (tasks_policy auth_uid s) where_ (tasks s) = [].
Proof.
  intros Hown Hw. unfold select_rows.
  induction (tasks s) as [|t l IH]; [done|].
  rewrite filter_cons, IH. case_decide as H; [|done].
  rewrite andb_True in H. destruct H as [Hp E].
  unfold tasks_policy in Hp. rewrite (Hw t E), Hown in Hp. done.
Qed.

Section progress_facts.
Variable select_div_scale : Z → Z → nat.
Hypothesis scale_ge_16 : ∀ a b, (16 ≤ select_div_scale a b)%nat.

Lemma percent_of_counts (c t : Z) :
  0 ≤ c ≤ t → 0 < t ≤ int4_max →
  numeric_round
    (numeric_mul (numeric_div select_div_scale (numeric_of_integer c)
                              (numeric_of_integer t))
                 (numeric_of_integer 100))
  = round_half_up (100 * c) t.
Proof.
  intros Hc Ht. unfold numeric_round, numeric_mul, numeric_div, numeric_of_integer.
  cbn [digits scale].
  destruct (pow10_ge16 (select_div_scale c t) (scale_ge_16 c t)) as (k & Hk & HS).
  replace (select_div_scale c t + 0)%nat with (select_div_scale c t) by lia.
  set (S := 10 ^ Z.of_nat (select_div_scale c t)) in *. clearbody S.
  change (10 ^ 16) with 10000000000000000 in HS.
  change (10 ^ Z.of_nat 0) with 1. rewrite Z.mul_1_r.
  assert (HSbig : 100 * t < S) by (unfold int4_max in Ht; lia).
  rewrite (div_round_nonneg (c * S) t) by nia.
  assert (0 ≤ (2 * (c * S) + t) / (2 * t)) by (apply Z.div_pos; nia).
  rewrite div_round_nonneg by nia.
  apply (round_twice c t S (k * 50000000000000)); lia.
Qed.
End progress_facts.

(** C3.  For a caller who owns the project, [calculate_project_progress]
    returns 0 when the project has no task and otherwise
    [round (100 * completed / total)] with round-half-up semantics: 75 for
    4 tasks of which 3 are done, 33 for 3 tasks of which 1 is done; the
    result always lies in [0,100].  The number of tasks fits the [INTEGER]
    variable the function stores it in, and the quotient keeps at least 16
    significant digits. *)
Theorem calculate_project_progress_correct
    (select_div_scale : Z → Z → nat) (auth_uid : option uuid) (s : db)
    (project_uuid : uuid) :
  (∀ a b, (16 ≤ select_div_scale a b)%nat) →
  owns_project auth_uid s project_uuid = true →
  let total := Z.of_nat (length
    (filter (λ t, tasks_project_id t = project_uuid) (tasks s))) in
  let finished := Z.of_nat (length
    (filter (λ t, tasks_project_id t = project_uuid ∧ tasks_completed t = Some true)
            (tasks s))) in
  total ≤ int4_max →
  ∃ r, calculate_project_progress select_div_scale auth_uid s project_uuid = Ok r
     ∧ (total = 0 → r = 0)
     ∧ (0 < total → r = round_half_up (100 * finished) total)
     ∧ (total = 4 → finished = 3 → r = 75)
     ∧ (total = 3 → finished = 1 → r = 33)
     ∧ 0 ≤ r ≤ 100.
Proof.
  intros Hscale Hown total finished Hfit.
  assert (Htot : select_rows (tasks_policy auth_uid s)
            (λ t, bool_decide (tasks_project_id t = project_uuid)) (tasks s)
          = filter (λ t, tasks_project_id t = project_uuid) (tasks s)).
  { rewrite (owner_sees_tasks _ _ project_uuid) by
      (try done; intros t; rewrite bool_decide_spec; done).
    apply list_filter_iff. intros t. by rewrite bool_decide_spec. }
  assert (Hfin : select_rows (tasks_policy auth_uid s)
            (λ t, bool_decide (tasks_project_id t = project_uuid) &&
                  bool_decide (tasks_completed t = Some true)) (tasks s)
          = filter (λ t, tasks_project_id t = project_uuid ∧ tasks_completed t = Some true)
                   (tasks s)).
  { rewrite (owner_sees_tasks _ _ project_uuid) by
      (try done; intros t; rewrite andb_True, !bool_decide_spec; tauto).
    apply list_filter_iff. intros t. by rewrite andb_True, !bool_decide_spec. }
  assert (Hle : 0 ≤ finished ≤ total).
  { subst total finished. split; [lia|].
    apply inj_le, length_filter_and. }
  assert (Hint : ∀ v, 0 ≤ v ≤ int4_max → to_integer v = Ok v).
  { intros v Hv. unfold to_integer. rewrite bool_decide_true; [done|].
    unfold int4_min. lia. }
  unfold calculate_project_progress. rewrite Htot, Hfin.
  fold total finished.
  rewrite (Hint total) by lia. cbn [mbind result_bind].
  case_bool_decide as Hz.
  - exists 0. repeat split; lia.
  - assert (0 < total) by lia.
    rewrite (Hint finished) by lia. cbn [mbind result_bind].
    rewrite (percent_of_counts select_div_scale Hscale) by lia.
    pose proof (round_half_up_percent_range finished total ltac:(lia) ltac:(lia)).
    rewrite Hint by (unfold int4_max; lia). cbn [mbind result_bind].
    eexists. split; [reflexivity|]. repeat split; try lia.
    + intros -> ->. reflexivity.
    + intros -> ->. reflexivity.
Qed.

Lemma calculate_project_progress_correct_witness :
  owns_project (Some alice) sample_db 10%N = true ∧
  ∃ r, calculate_project_progress (λ _ _, 16%nat) (Some alice) sample_db 10%N = Ok r
     ∧ r = 75 ∧ 0 ≤ r ≤ 100.
Proof.
  split; [reflexivity|].
  destruct (calculate_project_progress_correct (λ _ _, 16%nat) (Some alice)
              sample_db 10%N) as (r & Hr & _ & _ & H75 & _ & Hrange).
  - intros; lia.
  - reflexivity.
  - vm_compute. discriminate.
  - exists r. split; [exact Hr|]. split; [apply H75; reflexivity | exact Hrange].
Defined.

(** A caller who does not own the project sees no task of it, and gets 0. *)
Lemma calculate_project_progress_stranger
    (select_div_scale : Z → Z → nat) (auth_uid : option uuid) (s : db)
    (project_uuid : uuid) :
  owns_project auth_uid s project_uuid = false →
  calculate_project_progress select_div_scale auth_uid s project_uuid = Ok 0.
Proof.
  intros Hown. unfold calculate_project_progress.
  rewrite (stranger_sees_no_tasks _ _ project_uuid
             (λ t, bool_decide (tasks_project_id t = project_uuid)));
    [reflexivity | exact Hown | intros t Ht; exact (bool_decide_unpack _ Ht)].
Qed.

(** ** Facts about the statements *)

Lemma filter_all {A} (P : A → Prop) `{∀ x, Decision (P x)} (l : list A) :
  Forall P l → filter P l = l.
Proof.
  induction 1 as [|x l Hx _ IH]; [done|].
  rewrite filter_cons_True by done. by rewrite IH.
Qed.

Lemma filter_none {A} (P : A → Prop) `{∀ x, Decision (P x)} (l : list A) :
  Forall (λ x, ¬ P x) l → filter P l = [].
Proof.
  induction 1 as [|x l Hx _ IH]; [done|].
  rewrite filter_cons_False by done. done.
Qed.

Lemma cascade_projects_nil (s : db) : cascade_projects [] s = s.
Proof.
  destruct s. unfold cascade_projects. cbn.
  rewrite !filter_all; [done|..]; apply Forall_forall; intros; apply not_elem_of_nil.
Qed.

Lemma cascade_clients_nil (s : db) : cascade_clients [] s = s.
Proof.
  destruct s. unfold cascade_clients, with_project_clients. cbn.
  rewrite filter_all; [done|]. apply Forall_forall; intros; apply not_elem_of_nil.
Qed.

Lemma with_projects_id (s : db) : with_projects s (projects s) = s.
Proof. by destruct s. Qed.

Lemma with_clients_id (s : db) : with_clients s (clients s) = s.
Proof. by destruct s. Qed.

(** A delete that matches no row changes nothing. *)
Lemma projects_delete_no_match auth_uid (where_ : Project → bool) (s : db) :
  Forall (λ p, ¬ (projects_policy auth_uid p && where_ p)) (projects s) →
  projects_delete auth_uid where_ s = (s, []).
Proof.
  intros Hno. unfold projects_delete, delete_rows.
  rewrite (filter_none _ _ Hno).
  rewrite filter_all.
  - cbn. by rewrite with_projects_id, cascade_projects_nil.
  - eapply Forall_impl; [exact Hno|]. intros p Hp. by apply negb_True.
Qed.

(** ** Deleting a project through [lib/database.ts] *)

(** C10.  For an authenticated caller, [deleteProject] returns [true]
    whenever the storage reports no error, whatever the id: when the caller
    owns no project with that id (there is none, or it is another owner's)
    the database is left as it was and the answer is [true] all the same. *)
Theorem deleteProject_reports_success (rq : request) (u id : uuid) (s : db) :
  user rq = Some u →
  storage_reachable rq = true →
  (deleteProject rq id s).2 = true ∧
  ((∀ p, p ∈ projects s → projects_id p = id → projects_user_id p ≠ u) →
   deleteProject rq id s = (s, true)).
Proof.
  intros Hu Hup. unfold deleteProject, supabase, commit. rewrite Hu, Hup.
  destruct (projects_delete _ _ s) as [s' gone] eqn:E. split; [done|].
  intros Hnone. rewrite projects_delete_no_match in E.
  - by inversion E.
  - apply Forall_forall. intros p Hp.
    rewrite !andb_True, !bool_decide_spec. intros (_ & Hid & Hown).
    by apply (Hnone p Hp Hid).
Qed.

Lemma deleteProject_reports_success_witness :
  (deleteProject (sample_request (Some bob)) 10%N sample_db).2 = true ∧
  deleteProject (sample_request (Some bob)) 10%N sample_db = (sample_db, true).
Proof.
  destruct (deleteProject_reports_success (sample_request (Some bob)) bob 10%N
              sample_db eq_refl eq_refl) as [H1 H2].
  split; [exact H1|]. apply H2.
  intros p Hp Hid. vm_compute in Hp.
  repeat (apply elem_of_cons in Hp as [->|Hp]); try discriminate.
  by apply elem_of_nil in Hp.
Defined.

(** ** Cascading delete *)

Lemma deleted_profile_ids (id : uuid) (s : db) :
  id ∈ profiles_id <$> profiles s →
  ∀ x, x ∈ profiles_id <$> filter (λ r, profiles_id r = id) (profiles s) ↔ x = id.
Proof.
  intros Hin x. rewrite list_elem_of_fmap. split.
  - intros (r & -> & Hr). by apply list_elem_of_filter in Hr as [? _].
  - intros ->. apply list_elem_of_fmap in Hin as (r & -> & Hr).
    exists r. split; [done|]. by apply list_elem_of_filter.
Qed.

(** What [profiles_delete] leaves in each table. *)
Lemma profiles_delete_tables (id : uuid) (s : db) :
  let gone := profiles_id <$> filter (λ r, profiles_id r = id) (profiles s) in
  let gone_projects :=
    projects_id <$> filter (λ p, projects_user_id p ∈ gone) (projects s) in
  let gone_clients :=
    clients_id <$> filter (λ c, clients_user_id c ∈ gone) (clients s) in
  let s' := profiles_delete id s in
  profiles s' = filter (λ r, profiles_id r ≠ id) (profiles s) ∧
  projects s' = filter (λ p, projects_user_id p ∉ gone) (projects s) ∧
  clients s' = filter (λ c, clients_user_id c ∉ gone) (clients s) ∧
  tasks s' = filter (λ t, tasks_project_id t ∉ gone_projects) (tasks s) ∧
  project_timeline s' =
    filter (λ e, project_timeline_project_id e ∉ gone_projects) (project_timeline s) ∧
  project_clients s' =
    filter (λ l, project_clients_client_id l ∉ gone_clients)
      (filter (λ l, project_clients_project_id l ∉ gone_projects) (project_clients s)) ∧
  auth_users s' = auth_users s.
Proof. cbv zeta. repeat split. Qed.

(** C2.  Deleting an identity deletes every client and every project whose
    [user_id] references it, and with them every task, timeline entry and
    project-client link that references one of those projects and every
    link that references one of those clients; the rows that reference none
    of them stay. *)
Theorem profiles_delete_cascades (id : uuid) (s : db) :
  id ∈ profiles_id <$> profiles s →
  let s' := profiles_delete id s in
  (∀ r, r ∈ profiles s' ↔ r ∈ profiles s ∧ profiles_id r ≠ id) ∧
  (∀ p, p ∈ projects s' ↔ p ∈ projects s ∧ projects_user_id p ≠ id) ∧
  (∀ c, c ∈ clients s' ↔ c ∈ clients s ∧ clients_user_id c ≠ id) ∧
  (∀ t, t ∈ tasks s' ↔
        t ∈ tasks s ∧
        ∀ p, p ∈ projects s → projects_user_id p = id →
             tasks_project_id t ≠ projects_id p) ∧
  (∀ e, e ∈ project_timeline s' ↔
        e ∈ project_timeline s ∧
        ∀ p, p ∈ projects s → projects_user_id p = id →
             project_timeline_project_id e ≠ projects_id p) ∧
  (∀ l, l ∈ project_clients s' ↔
        l ∈ project_clients s ∧
        (∀ p, p ∈ projects s → projects_user_id p = id →
              project_clients_project_id l ≠ projects_id p) ∧
        (∀ c, c ∈ clients s → clients_user_id c = id →
              project_clients_client_id l ≠ clients_id c)).
Proof.
  intros Hin s'.
  pose proof (deleted_profile_ids id s Hin) as Hgone.
  destruct (profiles_delete_tables id s)
    as (Hpf & Hpj & Hcl & Htk & Htl & Hpc & _).
  fold s' in Hpf, Hpj, Hcl, Htk, Htl, Hpc.
  assert (Hgp : ∀ x,
    x ∈ projects_id <$>
          filter (λ p, projects_user_id p ∈
                       profiles_id <$> filter (λ r, profiles_id r = id) (profiles s))
                 (projects s)
    ↔ ∃ p, p ∈ projects s ∧ projects_user_id p = id ∧ x = projects_id p).
  { intros x. rewrite list_elem_of_fmap. split.
    - intros (p & -> & Hp). apply list_elem_of_filter in Hp as [Hu Hp].
      apply Hgone in Hu. eauto.
    - intros (p & Hp & Hu & ->). exists p. split; [done|].
      apply list_elem_of_filter. split; [|done]. by apply Hgone. }
  assert (Hgc : ∀ x,
    x ∈ clients_id <$>
          filter (λ c, clients_user_id c ∈
                       profiles_id <$> filter (λ r, profiles_id r = id) (profiles s))
                 (clients s)
    ↔ ∃ c, c ∈ clients s ∧ clients_user_id c = id ∧ x = clients_id c).
  { intros x. rewrite list_elem_of_fmap. split.
    - intros (c & -> & Hc). apply list_elem_of_filter in Hc as [Hu Hc].
      apply Hgone in Hu. eauto.
    - intros (c & Hc & Hu & ->). exists c. split; [done|].
      apply list_elem_of_filter. split; [|done]. by apply Hgone. }
  split; [|split; [|split; [|split; [|split]]]].
  - intros r. rewrite Hpf, list_elem_of_filter. tauto.
  - intros p. rewrite Hpj, list_elem_of_filter, Hgone. tauto.
  - intros c. rewrite Hcl, list_elem_of_filter, Hgone. tauto.
  - intros t. rewrite Htk, list_elem_of_filter, Hgp. split.
    + intros [Hn Ht]. split; [done|]. intros p Hp Hu E. apply Hn. eauto.
    + intros [Ht Hn]. split; [|done]. intros (p & Hp & Hu & E). by apply (Hn p).
  - intros e. rewrite Htl, list_elem_of_filter, Hgp. split.
    + intros [Hn He]. split; [done|]. intros p Hp Hu E. apply Hn. eauto.
    + intros [He Hn]. split; [|done]. intros (p & Hp & Hu & E). by apply (Hn p).
  - intros l. rewrite Hpc, !list_elem_of_filter, Hgp, Hgc. split.
    + intros (Hnc & Hnp & Hl). repeat split; [done|..].
      * intros p Hp Hu E. apply Hnp. eauto.
      * intros c Hc Hu E. apply Hnc. eauto.
    + intros (Hl & Hnp & Hnc). repeat split; [..|done].
      * intros (c & Hc & Hu & E). by apply (Hnc c).
      * intros (p & Hp & Hu & E). by apply (Hnp p).
Qed.

Lemma profiles_delete_cascades_witness :
  alice ∈ profiles_id <$> profiles sample_db ∧
  (∀ t, t ∈ tasks (profiles_delete alice sample_db) ↔
        t ∈ tasks sample_db ∧
        ∀ p, p ∈ projects sample_db → projects_user_id p = alice →
             tasks_project_id t ≠ projects_id p).
Proof.
  assert (H : alice ∈ profiles_id <$> profiles sample_db) by (vm_compute; left).
  split; [exact H|].
  exact (proj1 (proj2 (proj2 (proj2 (profiles_delete_cascades alice sample_db H))))).
Defined.

(** ** The unique pair of a project-client link *)

Lemma NoDup_fmap_eq {A B} (f : A → B) (l : list A) (x y : A) :
  NoDup (f <$> l) → x ∈ l → y ∈ l → f x = f y → x = y.
Proof.
  induction l as [|a l IH]; intros Hnd Hx Hy E; [by apply elem_of_nil in Hx|].
  rewrite fmap_cons in Hnd. apply NoDup_cons in Hnd as [Ha Hnd].
  apply elem_of_cons in Hx as [->|Hx]; apply elem_of_cons in Hy as [->|Hy].
  - done.
  - exfalso. apply Ha. rewrite E. apply list_elem_of_fmap. eauto.
  - exfalso. apply Ha. rewrite <- E. apply list_elem_of_fmap. eauto.
  - by apply IH.
Qed.

Lemma owns_project_exists auth_uid (s : db) (p : uuid) :
  owns_project auth_uid s p = true → p ∈ projects_id <$> projects s.
Proof.
  unfold owns_project. intros H. apply bool_decide_eq_true in H.
  apply Exists_exists in H as (r & Hr & <- & _).
  apply list_elem_of_fmap. eauto.
Qed.

Lemma bind_require_ok {A} (b : bool) (e : pg_error) (k : unit → result A) (a : A) :
  require b e ≫= k = Ok a → b = true ∧ k () = Ok a.
Proof. destruct b; cbn; [done|discriminate]. Qed.

Lemma bind_require_true {A} (b : bool) (e : pg_error) (k : unit → result A) :
  b = true → require b e ≫= k = k ().
Proof. by intros ->. Qed.

Lemma bind_require_false {A} (b : bool) (e : pg_error) (k : unit → result A) :
  b = false → require b e ≫= k = Error e.
Proof. by intros ->. Qed.

Ltac inv_require H :=
  repeat (let Hb := fresh "Hreq" in apply bind_require_ok in H as [Hb H]).

(** An inserted link goes to the end of the table and touches nothing
    else. *)
Lemma project_clients_insert_row_ok auth_uid u gen now (s s' : db) :
  project_clients_insert_row auth_uid u gen now s = Ok s' →
  ∃ r, s' = with_project_clients s (project_clients s ++ [r]) ∧
       PartialProjectClient.project_id u = Some (project_clients_project_id r) ∧
       PartialProjectClient.client_id u = Some (project_clients_client_id r).
Proof.
  unfold project_clients_insert_row.
  destruct (PartialProjectClient.project_id u) as [p|]; [|done].
  destruct (PartialProjectClient.client_id u) as [c|].
  - intros H. inv_require H.
    inversion H. eexists. split; [reflexivity|]. done.
  - intros H. inv_require H. discriminate.
Qed.

(** A second row with the pair of an existing link is refused. *)
Lemma project_clients_insert_row_duplicate auth_uid u gen now (s : db) (l : ProjectClient) :
  owns_project auth_uid s (project_clients_project_id l) = true →
  l ∈ project_clients s →
  PartialProjectClient.project_id u = Some (project_clients_project_id l) →
  PartialProjectClient.client_id u = Some (project_clients_client_id l) →
  project_clients_insert_row auth_uid u gen now s = Error unique_violation.
Proof.
  intros Hown Hl Hp Hc. unfold project_clients_insert_row. rewrite Hp, Hc.
  rewrite bind_require_true by exact Hown.
  destruct (bool_decide (_ ∉ project_clients_id <$> project_clients s)) eqn:Hid.
  - rewrite bind_require_true by done.
    rewrite bind_require_false; [done|].
    apply bool_decide_eq_false. intros Hn. apply Hn.
    apply list_elem_of_fmap. exists l. done.
  - by rewrite bind_require_false.
Qed.

(** C7.  While a link with the pair [(project_id, client_id)] exists, a
    caller who may write links of that project and inserts a second link
    with the same pair gets a unique violation and the database stays as it
    was; once the first link has been deleted, inserting the pair
    succeeds. *)
Theorem duplicate_link_rejected (rq : request) (s : db) (l : ProjectClient)
    (u : PartialProjectClient.t) (gen : uuid) (where_ : ProjectClient → bool) :
  storage_reachable rq = true →
  owns_project (user rq) s (project_clients_project_id l) = true →
  l ∈ project_clients s →
  PartialProjectClient.project_id u = Some (project_clients_project_id l) →
  PartialProjectClient.client_id u = Some (project_clients_client_id l) →
  insert_project_clients rq [(u, gen)] s = (s, Error unique_violation) ∧
  ConstraintViolation unique_violation = true ∧
  (NoDup (link_pair <$> project_clients s) →
   project_clients_client_id l ∈ clients_id <$> clients s →
   default gen (PartialProjectClient.id u) ∉ project_clients_id <$> project_clients s →
   where_ l = true →
   let s' := project_clients_delete (user rq) where_ s in
   (l ∉ project_clients s') ∧
   ∃ r, insert_project_clients rq [(u, gen)] s'
          = (with_project_clients s' (project_clients s' ++ [r]), Ok ()) ∧
        link_pair r = link_pair l).
Proof.
  intros Hup Hown Hl Hp Hc. split; [|split; [done|]].
  - unfold insert_project_clients, supabase. rewrite Hup.
    cbn [project_clients_insert].
    by rewrite (project_clients_insert_row_duplicate _ _ _ _ _ l).
  - intros Hnd Hcl Hfresh Hw s'.
    assert (Hgone : l ∉ project_clients s').
    { subst s'. unfold project_clients_delete, delete_rows. cbn.
      rewrite list_elem_of_filter. intros [Hk _]. apply negb_True in Hk. apply Hk.
      unfold project_clients_policy. rewrite Hown, Hw. done. }
    split; [exact Hgone|].
    assert (Hsub : ∀ x, x ∈ project_clients s' → x ∈ project_clients s).
    { intros x. subst s'. unfold project_clients_delete, delete_rows. cbn.
      rewrite list_elem_of_filter. tauto. }
    assert (Hown' : owns_project (user rq) s' (project_clients_project_id l) = true)
      by exact Hown.
    unfold insert_project_clients, supabase. rewrite Hup.
    cbn [project_clients_insert]. unfold project_clients_insert_row.
    rewrite Hp, Hc.
    rewrite bind_require_true by exact Hown'.
    rewrite bind_require_true; cycle 1.
    { apply bool_decide_eq_true. cbn. intros Hin. apply Hfresh.
      apply list_elem_of_fmap in Hin as (x & E & Hx).
      apply list_elem_of_fmap. exists x. split; [done|]. by apply Hsub. }
    rewrite bind_require_true; cycle 1.
    { apply bool_decide_eq_true. intros Hin.
      apply list_elem_of_fmap in Hin as (x & E & Hx).
      assert (x = l); [|by subst x].
      apply (NoDup_fmap_eq link_pair (project_clients s)); [done|by apply Hsub|done|].
      unfold link_pair. by rewrite <- E. }
    rewrite bind_require_true
      by (apply bool_decide_eq_true; exact (owns_project_exists _ s _ Hown)).
    rewrite bind_require_true by (apply bool_decide_eq_true; exact Hcl).
    cbn. eexists. split; [reflexivity|]. done.
Qed.

Lemma duplicate_link_rejected_witness :
  insert_project_clients (sample_request (Some alice))
    [({| PartialProjectClient.id := None;
         PartialProjectClient.project_id := Some 10%N;
         PartialProjectClient.client_id := Some 20%N;
         PartialProjectClient.reference_note := None;
         PartialProjectClient.created_at := None |}, 99%N)] sample_db
  = (sample_db, Error unique_violation) ∧
  ∃ r, insert_project_clients (sample_request (Some alice))
         [({| PartialProjectClient.id := None;
              PartialProjectClient.project_id := Some 10%N;
              PartialProjectClient.client_id := Some 20%N;
              PartialProjectClient.reference_note := None;
              PartialProjectClient.created_at := None |}, 99%N)]
         (project_clients_delete (Some alice)
            (λ r, bool_decide (project_clients_id r = 30%N)) sample_db)
       = (with_project_clients sample_db [r], Ok ()) ∧
       link_pair r = (10%N, 20%N).
Proof.
  destruct (duplicate_link_rejected (sample_request (Some alice)) sample_db
              (sample_link 30 10 20)
              {| PartialProjectClient.id := None;
                 PartialProjectClient.project_id := Some 10%N;
                 PartialProjectClient.client_id := Some 20%N;
                 PartialProjectClient.reference_note := None;
                 PartialProjectClient.created_at := None |} 99%N
              (λ r, bool_decide (project_clients_id r = 30%N))
              eq_refl eq_refl ltac:(vm_compute; left) eq_refl eq_refl)
    as (Hdup & _ & Hagain).
  split; [exact Hdup|].
  destruct Hagain as (_ & r & Hins & Hpair).
  - vm_compute. apply NoDup_singleton.
  - vm_compute. left.
  - vm_compute. intros H. apply list_elem_of_singleton in H. discriminate.
  - reflexivity.
  - exists r. split; [exact Hins | exact Hpair].
Defined.

(** ** Identity provisioning *)

(** The first field of [split_part] is what precedes the first delimiter,
    or the whole text when there is none. *)
Lemma split_on_cons (d c : ascii) (s : string) :
  split_on d (String c s)
  = if decide (c = d) then EmptyString :: split_on d s
    else match split_on d s with
         | w :: ws => String c w :: ws
         | [] => [String c EmptyString]
         end.
Proof. reflexivity. Qed.

Lemma split_on_head (d : ascii) (a b : string) :
  d ∉ String.list_ascii_of_string a →
  ∃ ws, split_on d (a +:+ String d b) = a :: ws.
Proof.
  induction a as [|c a IH]; intros Hd.
  - change (EmptyString +:+ String d b) with (String d b).
    rewrite split_on_cons, decide_True by done. eauto.
  - change (String c a +:+ String d b) with (String c (a +:+ String d b)).
    change (String.list_ascii_of_string (String c a))
      with (c :: String.list_ascii_of_string a) in Hd.
    apply not_elem_of_cons in Hd as [Hne Hd].
    rewrite split_on_cons, decide_False by done.
    destruct (IH Hd) as (ws & ->). eauto.
Qed.

Lemma split_part_local_part (a b : string) :
  "@"%char ∉ String.list_ascii_of_string a →
  split_part (a +:+ String "@" b) "@" 1 = a.
Proof.
  intros Hd. unfold split_part.
  destruct (split_on_head "@" a b Hd) as (ws & ->). done.
Qed.

Lemma split_part_no_delimiter (a : string) :
  "@"%char ∉ String.list_ascii_of_string a → split_part a "@" 1 = a.
Proof.
  unfold split_part. intros Hd.
  assert (split_on "@" a = [a]) as ->; [|done].
  induction a as [|c a IH]; [done|].
  change (String.list_ascii_of_string (String c a))
    with (c :: String.list_ascii_of_string a) in Hd.
  apply not_elem_of_cons in Hd as [Hne Hd].
  rewrite split_on_cons, decide_False by done. by rewrite IH.
Qed.

(** The claim of C6 fails where it promises a silent rerun: provisioning
    Carol once succeeds, running [handle_new_user] for her again raises a
    unique violation. *)
Lemma handle_new_user_rerun_raises :
  ∃ s', auth_users_insert 50 (sample_auth_user 3 "carol@example.org") sample_db = Ok s' ∧
        handle_new_user 51 (sample_auth_user 3 "carol@example.org") s'
        = Error unique_violation.
Proof. eexists. split; reflexivity. Qed.

(** C6, amended.  For an identity that is new (no account and no profile
    has its id, no profile has its email), the insert into [auth.users]
    fires [handle_new_user], which adds exactly one profile: the id and the
    email are those of the account and the display name is the [full_name]
    of the metadata if present, else its [name] if present, else the local
    part of the email.  Running the provisioning again for that identity
    adds no second profile: it is refused with a unique violation. *)
Theorem handle_new_user_provisions_once (now now' : timestamptz) (NEW : AuthUser)
    (s : db) :
  auth_id NEW ∉ auth_id <$> auth_users s →
  auth_id NEW ∉ profiles_id <$> profiles s →
  auth_email NEW ∉ profiles_email <$> profiles s →
  ∃ p s',
    auth_users_insert now NEW s = Ok s' ∧
    profiles s' = profiles s ++ [p] ∧
    profiles_id p = auth_id NEW ∧
    profiles_email p = auth_email NEW ∧
    profiles_full_name p = Some (display_name NEW) ∧
    handle_new_user now' NEW s' = Error unique_violation ∧
    auth_users_insert now' NEW s' = Error unique_violation.
Proof.
  intros Hnew Hid Hemail.
  unfold auth_users_insert.
  rewrite bind_require_true by (by apply bool_decide_eq_true).
  unfold handle_new_user at 1. cbn [profiles_id profiles_email].
  rewrite bind_require_true by (by apply bool_decide_eq_true).
  rewrite bind_require_true by (by apply bool_decide_eq_true).
  rewrite bind_require_true; cycle 1.
  { apply bool_decide_eq_true. cbn. rewrite fmap_app. apply elem_of_app. right.
    cbn. left. }
  eexists _, _. split; [reflexivity|]. cbn [profiles with_profiles].
  split; [reflexivity|]. cbn [profiles_id profiles_email profiles_full_name].
  split; [done|]. split; [done|]. split.
  { unfold display_name.
    destruct (raw_user_meta_data NEW !! "full_name"%string); [done|].
    destruct (raw_user_meta_data NEW !! "name"%string); done. }
  split.
  - unfold handle_new_user. cbn [profiles_id profiles_email profiles with_profiles].
    rewrite bind_require_false; [done|].
    apply bool_decide_eq_false. intros Hn. apply Hn.
    rewrite fmap_app. apply elem_of_app. right. cbn. left.
  - rewrite bind_require_false; [done|].
    apply bool_decide_eq_false. intros Hn. apply Hn. cbn.
    rewrite fmap_app. apply elem_of_app. right. cbn. left.
Qed.

Lemma handle_new_user_provisions_once_witness :
  ∃ p s',
    auth_users_insert 50 (sample_auth_user 3 "carol@example.org") sample_db = Ok s' ∧
    profiles s' = profiles sample_db ++ [p] ∧
    profiles_full_name p = Some "carol"%string ∧
    handle_new_user 51 (sample_auth_user 3 "carol@example.org") s'
    = Error unique_violation.
Proof.
  destruct (handle_new_user_provisions_once 50 51
              (sample_auth_user 3 "carol@example.org") sample_db)
    as (p & s' & H1 & H2 & _ & _ & H3 & H4 & _).
  - vm_compute. intros H. repeat (apply elem_of_cons in H as [H|H]; [discriminate|]).
    by apply elem_of_nil in H.
  - vm_compute. intros H. repeat (apply elem_of_cons in H as [H|H]; [discriminate|]).
    by apply elem_of_nil in H.
  - vm_compute. intros H. repeat (apply elem_of_cons in H as [H|H]; [discriminate|]).
    by apply elem_of_nil in H.
  - exists p, s'. split; [exact H1|]. split; [exact H2|]. split; [exact H3 | exact H4].
Defined.

(** ** What an [UPDATE] does to a table *)

Section update_rows_facts.
Context {R : Type}.
Variables (policy where_ : R → bool) (assign trigger : R → R).
Variable row_check : R → result unit.

Lemma update_rows_ok (tbl tbl' ret : list R) :
  update_rows policy where_ assign trigger row_check tbl = Ok (tbl', ret) →
  tbl' = (λ r, if policy r && where_ r then trigger (assign r) else r) <$> tbl ∧
  ret = (λ r, trigger (assign r)) <$> filter (λ r, policy r && where_ r) tbl ∧
  Forall (λ r', row_check r' = Ok ()) ret.
Proof.
  revert tbl' ret. induction tbl as [|r tbl IH]; intros tbl' ret H.
  - inversion H. by repeat split.
  - cbn [update_rows] in H. rewrite fmap_cons, filter_cons.
    destruct (decide (policy r && where_ r)) as [Hm|Hm].
    + apply Is_true_true in Hm. rewrite Hm in H |- *.
      destruct (row_check (trigger (assign r))) as [[]|e] eqn:Hc; [|discriminate].
      cbn in H.
      destruct (update_rows _ _ _ _ _ tbl) as [[t rt]|e]; [|discriminate].
      cbn in H. inversion H; subst. destruct (IH t rt eq_refl) as (-> & -> & Hall).
      repeat split. by constructor.
    + apply negb_prop_intro, Is_true_true, negb_true_iff in Hm. rewrite Hm in H |- *.
      destruct (update_rows _ _ _ _ _ tbl) as [[t rt]|e]; [|discriminate].
      cbn in H. inversion H; subst. destruct (IH t ret eq_refl) as (-> & -> & Hall).
      by repeat split.
Qed.

(** When every matched row passes the checks, the update goes through. *)
Lemma update_rows_complete (tbl : list R) :
  Forall (λ r, policy r && where_ r → row_check (trigger (assign r)) = Ok ()) tbl →
  update_rows policy where_ assign trigger row_check tbl
  = Ok ((λ r, if policy r && where_ r then trigger (assign r) else r) <$> tbl,
        (λ r, trigger (assign r)) <$> filter (λ r, policy r && where_ r) tbl).
Proof.
  induction 1 as [|r tbl Hr _ IH]; [done|].
  cbn [update_rows]. rewrite fmap_cons, filter_cons, IH.
  destruct (decide (policy r && where_ r)) as [Hm|Hm].
  - rewrite Hr by done. apply Is_true_true in Hm. by rewrite Hm.
  - apply negb_prop_intro, Is_true_true, negb_true_iff in Hm. by rewrite Hm.
Qed.

(** An update that matches no row returns the table as it was. *)
Lemma update_rows_no_match (tbl tbl' : list R) :
  update_rows policy where_ assign trigger row_check tbl = Ok (tbl', []) → tbl' = tbl.
Proof.
  intros H. apply update_rows_ok in H as (-> & Hret & _).
  symmetry in Hret. apply fmap_nil_inv in Hret.
  induction tbl as [|r tbl IH]; [done|].
  rewrite filter_cons in Hret. rewrite fmap_cons.
  destruct (decide (policy r && where_ r)) as [Hm|Hm]; [done|].
  apply negb_prop_intro, Is_true_true, negb_true_iff in Hm.
  rewrite Hm. f_equal. by apply IH.
Qed.
End update_rows_facts.

Lemma bind_ok {A B} (m : result A) (k : A → result B) (b : B) :
  m ≫= k = Ok b → ∃ a, m = Ok a ∧ k a = Ok b.
Proof. destruct m as [a|e]; cbn; [eauto|discriminate]. Qed.

Lemma projects_update_ok auth_uid where_ u now (s s' : db) (ret : list Project) :
  projects_update auth_uid where_ u now s = Ok (s', ret) →
  ∃ tbl,
    update_rows (projects_policy auth_uid) where_ (assign_project u)
      (update_updated_at_column now) (projects_row_check auth_uid) (projects s)
    = Ok (tbl, ret) ∧
    s' = with_projects s tbl.
Proof.
  unfold projects_update. intros H.
  apply bind_ok in H as ([tbl rt] & Hup & H'). inv_require H'.
  inversion H'; subst. eauto.
Qed.

Lemma projects_insert_ok auth_uid u gen now (s s' : db) (r : Project) :
  projects_insert auth_uid u gen now s = Ok (s', r) →
  s' = with_projects s (projects s ++ [r]) ∧
  projects_row_check auth_uid r = Ok () ∧
  projects_progress r = default (Some 0) (PartialProject.progress u) ∧
  projects_id r = default gen (PartialProject.id u) ∧
  projects_id r ∉ projects_id <$> projects s.
Proof.
  unfold projects_insert.
  destruct (PartialProject.user_id u) as [owner|]; [|done].
  destruct (PartialProject.title u) as [title|].
  - intros H. apply bind_ok in H as ([] & Hc & H'). inv_require H'.
    inversion H'; subst. apply bool_decide_eq_true in Hreq. done.
  - intros H. inv_require H. discriminate.
Qed.

(** ** The range of [progress] *)

Lemma progress_check_sound (r : Project) :
  check_satisfied (projects_progress_check r) = true ↔ progress_null_or_in_range r.
Proof.
  unfold projects_progress_check, progress_null_or_in_range, sql_ge, sql_le.
  destruct (projects_progress r) as [v|]; cbn.
  - split.
    + intros Hc w [= <-].
      destruct (decide (0 ≤ v)) as [H0|H0], (decide (v ≤ 100)) as [H1|H1]; [lia|..];
        exfalso; revert Hc;
        rewrite ?(bool_decide_true _ H0), ?(bool_decide_false _ H0),
                ?(bool_decide_true _ H1), ?(bool_decide_false _ H1); done.
    + intros Hx. specialize (Hx v eq_refl). rewrite !bool_decide_true by lia. done.
  - split; [intros _ v; discriminate | done].
Qed.

Lemma projects_row_check_progress auth_uid (r : Project) :
  projects_row_check auth_uid r = Ok () → progress_null_or_in_range r.
Proof.
  unfold projects_row_check. intros H. inv_require H.
  apply progress_check_sound. unfold require in H. by case_match.
Qed.

Lemma update_keeps_progress (u : PartialProject.t) (now : timestamptz) (r : Project) :
  projects_progress (update_updated_at_column now (assign_project u r))
  = default (projects_progress r) (PartialProject.progress u).
Proof. reflexivity. Qed.

(** The claim of C5 fails for [NULL]: the column is nullable and a [CHECK]
    constraint is satisfied by [NULL].  Alice inserts a project of hers
    whose progress is [NULL]; the row is committed, and its progress is no
    number in [0,100]. *)
Lemma projects_insert_stores_null_progress :
  ∃ s' r,
    projects_insert (Some alice)
      {| PartialProject.id := None; PartialProject.user_id := Some alice;
         PartialProject.title := Some "blog"%string;
         PartialProject.description := None; PartialProject.type := None;
         PartialProject.status := None; PartialProject.payment_status := None;
         PartialProject.progress := Some None; PartialProject.budget := None;
         PartialProject.paid_amount := None; PartialProject.start_date := None;
         PartialProject.end_date := None; PartialProject.deadline := None;
         PartialProject.created_at := None; PartialProject.updated_at := None |}
      99%N 101 sample_db = Ok (s', r) ∧
    r ∈ projects s' ∧ ¬ progress_in_range r.
Proof.
  eexists _, _. split; [reflexivity|]. split.
  - cbn. do 2 right. left.
  - intros (v & Hv & _). discriminate.
Qed.

(** [createProject] passes such a row on as it gets it. *)
Lemma createProject_stores_null_progress :
  ∃ s' r,
    createProject (sample_request (Some alice))
      {| PartialProject.id := None; PartialProject.user_id := None;
         PartialProject.title := Some "blog"%string;
         PartialProject.description := None; PartialProject.type := None;
         PartialProject.status := None; PartialProject.payment_status := None;
         PartialProject.progress := Some None; PartialProject.budget := None;
         PartialProject.paid_amount := None; PartialProject.start_date := None;
         PartialProject.end_date := None; PartialProject.deadline := None;
         PartialProject.created_at := None; PartialProject.updated_at := None |}
      sample_db = (s', Some r) ∧
    r ∈ projects s' ∧ ¬ progress_in_range r.
Proof.
  eexists _, _. split; [reflexivity|]. split.
  - cbn. do 2 right. left.
  - intros (v & Hv & _). discriminate.
Qed.

(** C5, amended.  If the progress of every project is [NULL] or within
    [0,100], it still is after every insert and every update that commits,
    through the statements and through [createProject] and
    [updateProject]; an insert that carries a progress outside [0,100] is
    rejected, and so is an update that carries one, unless it matches no
    row and stores nothing. *)
Theorem progress_stays_in_range (auth_uid : option uuid) (s : db) :
  Forall progress_null_or_in_range (projects s) →
  (∀ u gen now s' r,
     projects_insert auth_uid u gen now s = Ok (s', r) →
     Forall progress_null_or_in_range (projects s')) ∧
  (∀ where_ u now s' ret,
     projects_update auth_uid where_ u now s = Ok (s', ret) →
     Forall progress_null_or_in_range (projects s')) ∧
  (∀ rq project, Forall progress_null_or_in_range (projects (createProject rq project s).1)) ∧
  (∀ rq id updates,
     Forall progress_null_or_in_range (projects (updateProject rq id updates s).1)) ∧
  (∀ u gen now v,
     PartialProject.progress u = Some (Some v) → ¬ 0 ≤ v ≤ 100 →
     ∃ e, projects_insert auth_uid u gen now s = Error e) ∧
  (∀ where_ u now v,
     PartialProject.progress u = Some (Some v) → ¬ 0 ≤ v ≤ 100 →
     (∃ e, projects_update auth_uid where_ u now s = Error e) ∨
     projects_update auth_uid where_ u now s = Ok (s, [])).
Proof.
  intros Hinv.
  assert (Hins : ∀ a u gen now s' r,
    projects_insert a u gen now s = Ok (s', r) →
    Forall progress_null_or_in_range (projects s')).
  { intros a u gen now s' r H. apply projects_insert_ok in H as (-> & Hc & _).
    cbn. apply Forall_app. split; [done|].
    constructor; [|done]. by eapply projects_row_check_progress. }
  assert (Hupd : ∀ a where_ u now s' ret,
    projects_update a where_ u now s = Ok (s', ret) →
    Forall progress_null_or_in_range (projects s')).
  { intros a where_ u now s' ret H.
    apply projects_update_ok in H as (tbl & Hup & ->). cbn.
    apply update_rows_ok in Hup as (-> & -> & Hchk).
    apply Forall_fmap. rewrite Forall_forall in Hinv, Hchk |- *.
    intros r Hr. cbn.
    destruct (decide (projects_policy a r && where_ r)) as [Hm|Hm].
    - apply Is_true_true in Hm. rewrite Hm.
      eapply projects_row_check_progress, Hchk.
      apply list_elem_of_fmap. exists r. split; [done|].
      apply list_elem_of_filter. split; [|done]. by rewrite Hm.
    - apply negb_prop_intro, Is_true_true, negb_true_iff in Hm. rewrite Hm.
      by apply Hinv. }
  split; [apply Hins|]. split; [apply Hupd|]. split; [|split; [|split]].
  - intros rq project. unfold createProject.
    destruct (user rq) as [u|]; [|done].
    unfold supabase. destruct (storage_reachable rq); [|done].
    destruct (projects_insert _ _ _ _ s) as [[s' r]|e] eqn:E; [|done].
    cbn. by eapply Hins.
  - intros rq id updates. unfold updateProject.
    destruct (user rq) as [u|]; [|done].
    unfold supabase. destruct (storage_reachable rq); [|done].
    unfold returning_single.
    destruct (projects_update _ _ _ _ s) as [[s' ret]|e] eqn:E; [|done].
    cbn. destruct (single ret) as [r|e]; [|done].
    cbn. by eapply Hupd.
  - intros u gen now v Hv Hout.
    destruct (projects_insert auth_uid u gen now s) as [[s' r]|e] eqn:E; [|eauto].
    exfalso. apply projects_insert_ok in E as (_ & Hc & Hp & _).
    apply projects_row_check_progress in Hc. rewrite Hv in Hp.
    apply Hout, Hc. done.
  - intros where_ u now v Hv Hout.
    destruct (projects_update auth_uid where_ u now s) as [[s' ret]|e] eqn:E; [|eauto].
    right. apply projects_update_ok in E as (tbl & Hup & ->).
    destruct ret as [|r' ret].
    + apply update_rows_no_match in Hup as ->. by rewrite with_projects_id.
    + exfalso. apply update_rows_ok in Hup as (_ & Hret & Hchk).
      apply Forall_cons in Hchk as [Hc _].
      apply projects_row_check_progress in Hc.
      destruct (filter _ (projects s)) as [|r rest]; [discriminate|].
      rewrite fmap_cons in Hret. injection Hret as -> _.
      apply Hout, Hc. cbn. by rewrite Hv.
Qed.

Lemma progress_stays_in_range_witness :
  Forall progress_null_or_in_range (projects sample_db) ∧
  ∃ e, projects_insert (Some alice)
         {| PartialProject.id := None; PartialProject.user_id := Some alice;
            PartialProject.title := Some "blog"%string;
            PartialProject.description := None; PartialProject.type := None;
            PartialProject.status := None; PartialProject.payment_status := None;
            PartialProject.progress := Some (Some 120); PartialProject.budget := None;
            PartialProject.paid_amount := None; PartialProject.start_date := None;
            PartialProject.end_date := None; PartialProject.deadline := None;
            PartialProject.created_at := None; PartialProject.updated_at := None |}
         99%N 101 sample_db = Error e.
Proof.
  assert (H : Forall progress_null_or_in_range (projects sample_db)).
  { apply Forall_cons. split; [intros v [= <-]; lia|].
    apply Forall_cons. split; [intros v [= <-]; lia|]. apply Forall_nil_2. }
  split; [exact H|].
  destruct (progress_stays_in_range (Some alice) sample_db H) as (_ & _ & _ & _ & Hrej & _).
  apply (Hrej _ _ _ 120); [reflexivity | lia].
Defined.

(** ** Freshness of [updated_at] *)

Section updated_at_facts.
Context {R : Type} `{UpdatedAt R}.
Hypothesis get_set : ∀ v (r : R), updated_at (set_updated_at v r) = v.
Variables (policy where_ : R → bool) (assign : R → R).
Variable row_check : R → result unit.
Variable now : timestamptz.

End updated_at_facts.




Lemma clients_update_ok auth_uid where_ u now (s s' : db) (ret : list Client) :
  clients_update auth_uid where_ u now s = Ok (s', ret) →
  ∃ tbl,
    update_rows (clients_policy auth_uid) where_ (assign_client u)
      (update_updated_at_column now) (clients_row_check auth_uid) (clients s)
    = Ok (tbl, ret) ∧
    s' = with_clients s tbl.
Proof.
  unfold clients_update. intros H.
  apply bind_ok in H as ([tbl rt] & Hup & H'). inv_require H'.
  inversion H'; subst. eauto.
Qed.

Lemma tasks_update_ok auth_uid where_ u now (s s' : db) (ret : list Task) :
  tasks_update auth_uid where_ u now s = Ok (s', ret) →
  ∃ tbl,
    update_rows (tasks_policy auth_uid s) where_ (assign_task u)
      (update_updated_at_column now) (tasks_row_check auth_uid s) (tasks s)
    = Ok (tbl, ret) ∧
    s' = with_tasks s tbl.
Proof.
  unfold tasks_update. intros H.
  apply bind_ok in H as ([tbl rt] & Hup & H'). inv_require H'.
  inversion H'; subst. eauto.
Qed.



(** ** The statistics view *)

Lemma group_by_user_id_lookup (rows : list Project) (u : uuid) :
  group_by_user_id rows !! u
  = match filter (λ p, projects_user_id p = u) rows with
    | [] => None
    | owned => Some (foldr group_step group_init owned)
    end.
Proof.
  induction rows as [|p rows IH]; [done|].
  cbn [group_by_user_id foldr]. fold (group_by_user_id rows).
  rewrite filter_cons. destruct (decide (projects_user_id p = u)) as [->|Hne].
  - rewrite lookup_insert_eq, IH.
    by destruct (filter _ rows).
  - by rewrite lookup_insert_ne.
Qed.

Lemma sum_step_total (f : Project → option Z) (sum : group → option Z) (owned : list Project) :
  (∀ p g, sum (group_step p g) = sum_step (f p) (sum g)) →
  sum group_init = None →
  default 0 (COALESCE [sum (foldr group_step group_init owned); Some 0])
  = foldr Z.add 0 (omap f owned) ∧
  (sum (foldr group_step group_init owned)
   = match omap f owned with [] => None | vs => Some (foldr Z.add 0 vs) end).
Proof.
  intros Hstep Hinit.
  assert (Hsum : sum (foldr group_step group_init owned)
                 = match omap f owned with [] => None | vs => Some (foldr Z.add 0 vs) end).
  { induction owned as [|p owned IH]; [done|].
    cbn [foldr omap list_omap]. rewrite Hstep, IH.
    destruct (f p) as [x|]; [|done]. cbn.
    by destruct (omap f owned). }
  split; [|exact Hsum]. rewrite Hsum. by destruct (omap f owned).
Qed.

Lemma count_if_length (P : Project → Prop) `{∀ p, Decision (P p)}
    (count : group → Z) (owned : list Project) :
  (∀ p g, count (group_step p g) = count_if (bool_decide (P p)) (count g)) →
  count group_init = 0 →
  count (foldr group_step group_init owned) = Z.of_nat (length (filter P owned)).
Proof.
  intros Hstep Hinit. induction owned as [|p owned IH]; [done|].
  cbn [foldr]. rewrite Hstep, IH, filter_cons.
  destruct (decide (P p)) as [Hp|Hp].
  - rewrite bool_decide_true by done. cbn [count_if length]. lia.
  - by rewrite bool_decide_false.
Qed.

Lemma count_all_length (owned : list Project) :
  count_all (foldr group_step group_init owned) = Z.of_nat (length owned).
Proof. induction owned as [|p owned IH]; [done|]. cbn [foldr length count_all group_step]. lia. Qed.

Lemma count_progress_length (owned : list Project) :
  count_progress (foldr group_step group_init owned)
  = Z.of_nat (length (omap projects_progress owned)).
Proof.
  induction owned as [|p owned IH]; [done|].
  cbn [foldr count_progress group_step omap list_omap]. rewrite IH.
  destruct (projects_progress p); cbn; [lia|done].
Qed.

Section statistics_facts.
Variable select_div_scale : Z → Z → nat.

(** The row of a group is the aggregate over the rows that fell into it. *)
Lemma project_stats_row_aggregate (u : uuid) (owned : list Project) :
  project_stats_row select_div_scale u (foldr group_step group_init owned)
  = aggregate_of select_div_scale u owned.
Proof.
  unfold project_stats_row, aggregate_of, total_of. f_equal.
  - apply count_all_length.
  - by apply (count_if_length (λ p, projects_status p = in_progress)).
  - by apply (count_if_length (λ p, projects_status p = completed)).
  - by apply (count_if_length (λ p, projects_status p = delivered)).
  - by apply (sum_step_total projects_budget sum_budget).
  - by apply (sum_step_total projects_paid_amount sum_paid_amount).
  - rewrite count_progress_length.
    rewrite (proj2 (sum_step_total projects_progress sum_progress owned
                      ltac:(done) ltac:(done))).
    by destruct (omap projects_progress owned).
Qed.

Lemma project_stats_lookup (s : db) (u : uuid) :
  project_stats select_div_scale s !! u
  = match filter (λ p, projects_user_id p = u) (projects s) with
    | [] => None
    | owned => Some (aggregate_of select_div_scale u owned)
    end.
Proof.
  unfold project_stats. rewrite map_lookup_imap, group_by_user_id_lookup.
  destruct (filter _ (projects s)) as [|p owned] eqn:E; [done|].
  cbn. by rewrite <- project_stats_row_aggregate.
Qed.
End statistics_facts.

(** The claim of C8 fails: Carol (id 3) owns no project, and the view has
    no row for her rather than the all-zero row. *)
Lemma project_stats_no_row_without_projects :
  project_stats (λ _ _, 16%nat) sample_db !! 3%N = None ∧
  project_stats (λ _ _, 16%nat) sample_db !! 3%N ≠ Some (all_zero 3%N).
Proof. split; [reflexivity | discriminate]. Qed.

(** C8, amended.  For an identity that owns no project the [project_stats]
    view has no row (the query by [user_id] returns nothing, neither a row
    of nulls nor an error); [getProjects] returns the empty list, and the
    statistics the dashboard computes from it are all zero. *)
Theorem project_stats_without_projects (select_div_scale : Z → Z → nat)
    (rq : request) (s : db) (u : uuid) :
  user rq = Some u →
  (∀ p, p ∈ projects s → projects_user_id p ≠ u) →
  project_stats select_div_scale s !! u = None ∧
  getProjects rq s = [] ∧
  DashboardOverview.calculate (Embedded.row <$> getProjects rq s)
  = {| DashboardOverview.totalProjects := 0; DashboardOverview.activeProjects := 0;
       DashboardOverview.completedProjects := 0; DashboardOverview.totalRevenue := 0 |}.
Proof.
  intros Hu Hnone.
  assert (Hget : getProjects rq s = []).
  { unfold getProjects. rewrite Hu. destruct (storage_reachable rq); [|done].
    unfold select_rows. rewrite filter_none; [done|].
    apply Forall_forall. intros p Hp.
    rewrite andb_True, bool_decide_spec. intros [_ E]. by apply (Hnone p). }
  split; [|split; [exact Hget | by rewrite Hget]].
  rewrite project_stats_lookup, filter_none; [done|].
  apply Forall_forall. intros p Hp. by apply Hnone.
Qed.

Lemma project_stats_without_projects_witness :
  project_stats (λ _ _, 16%nat) sample_db !! 3%N = None ∧
  getProjects (sample_request (Some 3%N)) sample_db = [].
Proof.
  destruct (project_stats_without_projects (λ _ _, 16%nat) (sample_request (Some 3%N))
              sample_db 3%N eq_refl) as (H1 & H2 & _).
  - intros p Hp. vm_compute in Hp.
    repeat (apply elem_of_cons in Hp as [->|Hp]); try discriminate.
    by apply elem_of_nil in Hp.
  - split; [exact H1 | exact H2].
Defined.

(** The claim of C9 fails for the empty set of projects: once Alice has
    deleted her only project, the view returns no row for her, so no
    count, sum or average at all. *)
Lemma project_stats_nothing_for_empty_set :
  ¬ ∃ row, project_stats (λ _ _, 16%nat)
             (deleteProject (sample_request (Some alice)) 10%N sample_db).1 !! alice
           = Some row.
Proof. intros [row H]. discriminate. Qed.

(** C9, amended.  For an identity that owns at least one project, the row
    of the view carries the number of its projects, the number with status
    [in_progress], with status [completed] and with status [delivered],
    each counted apart, the sum of [budget] and the sum of [paid_amount]
    over all its projects whatever their type (rows without a value add
    nothing), and the average of [progress] over the rows that have one (0
    when none has); an identity that owns no project has no row. *)
Theorem project_stats_aggregates (select_div_scale : Z → Z → nat) (s : db) (u : uuid) :
  let owned := filter (λ p, projects_user_id p = u) (projects s) in
  (owned ≠ [] →
   project_stats select_div_scale s !! u = Some (aggregate_of select_div_scale u owned)) ∧
  (owned = [] → project_stats select_div_scale s !! u = None).
Proof.
  intros owned. subst owned. rewrite project_stats_lookup.
  destruct (filter _ (projects s)); split; done.
Qed.

Lemma project_stats_aggregates_witness :
  filter (λ p, projects_user_id p = alice) (projects sample_db) ≠ [] ∧
  project_stats (λ _ _, 16%nat) sample_db !! alice
  = Some {| ProjectStats.user_id := alice; ProjectStats.total_projects := 1;
            ProjectStats.active_projects := 1; ProjectStats.completed_projects := 0;
            ProjectStats.delivered_projects := 0; ProjectStats.total_budget := 150000;
            ProjectStats.total_revenue := 50000;
            ProjectStats.average_progress :=
              {| digits := 400000000000000000; scale := 16 |} |}.
Proof.
  assert (H : filter (λ p, projects_user_id p = alice) (projects sample_db) ≠ [])
    by discriminate.
  split; [exact H|].
  rewrite (proj1 (project_stats_aggregates (λ _ _, 16%nat) sample_db alice) H).
  reflexivity.
Defined.

(** The dashboard's own statistics are another aggregate: revenue counts
    the projects of type [client] only, and its "completed" figure counts
    [completed] and [delivered] together. *)
Example dashboard_statistics_differ :
  let personal_paid :=
    {| projects_id := 12%N; projects_user_id := alice; projects_title := "tool";
       projects_description := None; projects_type := personal;
       projects_status := delivered; projects_payment_status := paid;
       projects_progress := Some 100; projects_budget := None;
       projects_paid_amount := Some 700; projects_start_date := None;
       projects_end_date := None; projects_deadline := None;
       projects_created_at := Some 10; projects_updated_at := Some 10 |} in
  DashboardOverview.totalRevenue (DashboardOverview.calculate [personal_paid]) = 0 ∧
  DashboardOverview.completedProjects (DashboardOverview.calculate [personal_paid]) = 1 ∧
  ProjectStats.total_revenue (aggregate_of (λ _ _, 16%nat) alice [personal_paid]) = 700 ∧
  ProjectStats.completed_projects (aggregate_of (λ _ _, 16%nat) alice [personal_paid]) = 0.
Proof. repeat split. Qed.

(** ** Owner scoping *)

Lemma filter_ext_in {A} (P Q : A → Prop) `{∀ x, Decision (P x)} `{∀ x, Decision (Q x)}
    (l : list A) :
  (∀ x, x ∈ l → (P x ↔ Q x)) → filter P l = filter Q l.
Proof.
  induction l as [|a l IH]; intros HPQ; [done|].
  rewrite !filter_cons.
  rewrite IH by (intros x Hx; apply HPQ; by right).
  apply decide_ext, HPQ. by left.
Qed.




Lemma is_true_eq_uuid (x y : option uuid) :
  is_true (sql_eq_uuid x y) ↔ ∃ v, x = Some v ∧ y = Some v.
Proof.
  unfold is_true, sql_eq_uuid. destruct x as [x|], y as [y|].
  - destruct (decide (x = y)) as [->|Hne].
    + rewrite bool_decide_true by done. split; [eauto|done].
    + rewrite bool_decide_false by done. split; [done|].
      intros (v & [= ->] & [= ->]). done.
  - split; [done|]. by intros (v & _ & ?).
  - split; [done|]. by intros (v & ? & _).
  - split; [done|]. by intros (v & ? & _).
Qed.

Lemma projects_policy_spec (a : option uuid) (r : Project) :
  projects_policy a r ↔ a = Some (projects_user_id r).
Proof.
  unfold projects_policy. rewrite is_true_eq_uuid. split.
  - by intros (v & -> & [= ->]).
  - intros ->. eauto.
Qed.

Lemma clients_policy_spec (a : option uuid) (c : Client) :
  clients_policy a c ↔ a = Some (clients_user_id c).
Proof.
  unfold clients_policy. rewrite is_true_eq_uuid. split.
  - by intros (v & -> & [= ->]).
  - intros ->. eauto.
Qed.

Lemma owns_project_spec (a : option uuid) (s : db) (id : uuid) :
  owns_project a s id ↔
  ∃ p, p ∈ projects s ∧ projects_id p = id ∧ projects_policy a p.
Proof.
  unfold owns_project. rewrite bool_decide_spec, Exists_exists.
  split; intros (p & Hp & Hid & Hown); exists p; (split; [done|]); (split; [done|]).
  - apply projects_policy_spec. apply is_true_eq_uuid in Hown as (v & [= ->] & ->). done.
  - apply projects_policy_spec in Hown as ->. apply is_true_eq_uuid. eauto.
Qed.



Section foreign_project.
(** A caller [a] and a project [r] of another owner, in a database whose
    primary key on projects holds. *)
Variables (a : option uuid) (s : db) (r : Project).
Hypothesis pk : NoDup (projects_id <$> projects s).
Hypothesis r_in : r ∈ projects s.
Hypothesis stranger : a ≠ Some (projects_user_id r).








End foreign_project.

Section update_rows_filter.
Context {R : Type}.
Variables (policy where_ : R → bool) (assign trigger : R → R).
Variable row_check : R → result unit.
Variable Q : R → Prop.
Context `{∀ x, Decision (Q x)}.


(** A row the statement does not match is still there afterwards. *)
Lemma update_rows_keeps (tbl tbl' ret : list R) (r : R) :
  update_rows policy where_ assign trigger row_check tbl = Ok (tbl', ret) →
  r ∈ tbl → policy r && where_ r = false → r ∈ tbl'.
Proof.
  intros Hup Hr Hm. apply update_rows_ok in Hup as (-> & _ & _).
  apply list_elem_of_fmap. exists r. by rewrite Hm.
Qed.
End update_rows_filter.

Section foreign_project_statements.
Variables (a : option uuid) (s : db) (r : Project).
Hypothesis pk : NoDup (projects_id <$> projects s).
Hypothesis r_in : r ∈ projects s.
Hypothesis stranger : a ≠ Some (projects_user_id r).




End foreign_project_statements.


Section foreign_client.
(** A caller [a] and a client [c] of another owner, in a database whose
    primary key on clients holds. *)
Variables (a : option uuid) (s : db) (c : Client).
Hypothesis pk : NoDup (clients_id <$> clients s).
Hypothesis c_in : c ∈ clients s.
Hypothesis stranger : a ≠ Some (clients_user_id c).




End foreign_client.




Section foreign_project_calls.
Variables (rq : request) (s : db) (r : Project).
Hypothesis pk : NoDup (projects_id <$> projects s).
Hypothesis r_in : r ∈ projects s.
Hypothesis stranger : user rq ≠ Some (projects_user_id r).






End foreign_project_calls.

Section foreign_client_calls.
Variable text_le : relation string.
Context `{∀ x y, Decision (text_le x y)}.
Variables (rq : request) (s : db) (c : Client).
Hypothesis pk : NoDup (clients_id <$> clients s).
Hypothesis c_in : c ∈ clients s.
Hypothesis stranger : user rq ≠ Some (clients_user_id c).


End foreign_client_calls.


(** The same through a foreign key: client 21 is Bob's; Alice's link from
    her project 10 to client 21 is accepted while the client exists and
    refused when it does not. *)
Lemma link_reveals_foreign_client :
  (insert_project_clients (sample_request (Some alice)) [(sample_new_link 10 21, 31%N)]
     sample_db).2 = Ok () ∧
  (insert_project_clients (sample_request (Some alice)) [(sample_new_link 10 21, 31%N)]
     (without_client 21 sample_db)).2 = Error foreign_key_violation.
Proof. split; reflexivity. Qed.



(** * More properties of the code *)

(** ** The sample database satisfies the constraints of the schema *)


Lemma sample_db_references_ok : references_ok sample_db.
Proof. repeat split; apply (bool_decide_unpack _); exact I. Qed.

(** ** Cascading deletes leave no orphans *)

Lemma elem_of_fmap_filter {A B} (f : A → B) (P : A → Prop) `{∀ x, Decision (P x)}
    (l : list A) (i : B) :
  i ∈ f <$> filter P l ↔ ∃ x, x ∈ l ∧ P x ∧ i = f x.
Proof.
  rewrite list_elem_of_fmap. split.
  - intros (x & -> & Hx). apply list_elem_of_filter in Hx as [? ?]. eauto.
  - intros (x & Hx & HP & ->). exists x. split; [done|]. by apply list_elem_of_filter.
Qed.

(** A reference that does not point into the deleted rows points into the
    rows that are kept. *)
Lemma reference_kept {A B} (f : A → B) (m : A → bool) (l : list A) (i : B) :
  i ∈ f <$> l →
  i ∉ f <$> filter (λ x, m x) l →
  i ∈ f <$> filter (λ x, negb (m x)) l.
Proof.
  intros Hi Hno. apply list_elem_of_fmap in Hi as (x & -> & Hx).
  apply elem_of_fmap_filter. exists x. split; [done|]. split; [|done].
  apply negb_True. intros Hm. apply Hno. apply elem_of_fmap_filter. eauto.
Qed.

Lemma reference_kept_prop {A B} (f : A → B) (P : A → Prop) `{∀ x, Decision (P x)}
    (l : list A) (i : B) :
  i ∈ f <$> l →
  i ∉ f <$> filter P l →
  i ∈ f <$> filter (λ x, ¬ P x) l.
Proof.
  intros Hi Hno. apply list_elem_of_fmap in Hi as (x & -> & Hx).
  apply elem_of_fmap_filter. exists x. split; [done|]. split; [|done].
  intros HP. apply Hno. apply elem_of_fmap_filter. eauto.
Qed.

Lemma Forall_filter_weaken {A} (P Q : A → Prop) (R : A → Prop) `{∀ x, Decision (R x)}
    (l : list A) :
  Forall P l → (∀ x, x ∈ l → R x → P x → Q x) → Forall Q (filter R l).
Proof.
  rewrite !Forall_forall. intros HP HQ x Hx.
  apply list_elem_of_filter in Hx as [HR Hx]. auto.
Qed.

Lemma projects_delete_references auth_uid (where_ : Project → bool) (s : db) :
  references_ok s → references_ok (projects_delete auth_uid where_ s).1.
Proof.
  intros (Hpf & Hpj & Hcl & Hpc & Htk & Htl).
  unfold projects_delete, delete_rows, references_ok.
  cbn [fst projects profiles clients project_clients tasks project_timeline auth_users
       cascade_projects with_projects].
  split; [done|]. split; [|split; [done|split; [|split]]].
  - eapply Forall_filter_weaken; [exact Hpj|]. auto.
  - eapply Forall_filter_weaken; [exact Hpc|]. intros l _ Hno [Hp Hc].
    split; [|done]. by apply reference_kept.
  - eapply Forall_filter_weaken; [exact Htk|]. intros t _ Hno Hp. by apply reference_kept.
  - eapply Forall_filter_weaken; [exact Htl|]. intros t _ Hno Hp. by apply reference_kept.
Qed.

Lemma clients_delete_references auth_uid (where_ : Client → bool) (s : db) :
  references_ok s → references_ok (clients_delete auth_uid where_ s).1.
Proof.
  intros (Hpf & Hpj & Hcl & Hpc & Htk & Htl).
  unfold clients_delete, delete_rows, references_ok.
  cbn [fst projects profiles clients project_clients tasks project_timeline auth_users
       cascade_clients with_clients with_project_clients].
  split; [done|]. split; [done|]. split; [|split; [|done]].
  - eapply Forall_filter_weaken; [exact Hcl|]. auto.
  - eapply Forall_filter_weaken; [exact Hpc|]. intros l _ Hno [Hp Hc].
    split; [done|]. by apply reference_kept.
Qed.

Lemma project_clients_delete_references auth_uid (where_ : ProjectClient → bool) (s : db) :
  references_ok s → references_ok (project_clients_delete auth_uid where_ s).
Proof.
  intros (Hpf & Hpj & Hcl & Hpc & Htk & Htl).
  unfold project_clients_delete, delete_rows, references_ok.
  cbn [snd projects profiles clients project_clients tasks project_timeline auth_users
       with_project_clients].
  repeat (split; [done|]). split; [|done].
  eapply Forall_filter_weaken; [exact Hpc|]. auto.
Qed.

(** The cascade from a set of deleted profiles, given that the profiles
    left are those whose id is not in the set and that they reference the
    accounts left. *)
Lemma cascade_profiles_references (gone : list uuid) (s : db)
    (accounts : list AuthUser) (left_ : list Profile) :
  references_ok s →
  left_ = filter (λ r, profiles_id r ∉ gone) (profiles s) →
  Forall (λ r, profiles_id r ∈ auth_id <$> accounts) left_ →
  references_ok (cascade_profiles gone (with_profiles (with_auth_users s accounts) left_)).
Proof.
  intros (Hpf & Hpj & Hcl & Hpc & Htk & Htl) -> Hacc.
  unfold cascade_profiles, references_ok.
  cbn [projects profiles clients project_clients tasks project_timeline auth_users
       cascade_clients cascade_projects with_clients with_projects with_profiles
       with_project_clients with_auth_users].
  split; [exact Hacc|]. split; [|split; [|split; [|split]]].
  - eapply Forall_filter_weaken; [exact Hpj|]. intros p _ Hno Hp.
    apply list_elem_of_fmap in Hp as (r & E & Hr).
    apply elem_of_fmap_filter. exists r. split; [done|]. split; [|done]. by rewrite <- E.
  - eapply Forall_filter_weaken; [exact Hcl|]. intros c _ Hno Hc.
    apply list_elem_of_fmap in Hc as (r & E & Hr).
    apply elem_of_fmap_filter. exists r. split; [done|]. split; [|done]. by rewrite <- E.
  - rewrite Forall_forall in Hpc |- *. intros l Hl.
    apply list_elem_of_filter in Hl as [Hnc Hl].
    apply list_elem_of_filter in Hl as [Hnp Hl].
    destruct (Hpc l Hl) as [Hp Hc]. split.
    + apply (reference_kept_prop projects_id (λ p, projects_user_id p ∈ gone)) in Hp;
        [|exact Hnp].
      exact Hp.
    + apply (reference_kept_prop clients_id (λ c, clients_user_id c ∈ gone)) in Hc;
        [|exact Hnc].
      exact Hc.
  - eapply Forall_filter_weaken; [exact Htk|]. intros t _ Hno Hp.
    by apply (reference_kept_prop projects_id (λ p, projects_user_id p ∈ gone)) in Hp.
  - eapply Forall_filter_weaken; [exact Htl|]. intros t _ Hno Hp.
    by apply (reference_kept_prop projects_id (λ p, projects_user_id p ∈ gone)) in Hp.
Qed.

Lemma with_auth_users_id (s : db) : with_auth_users s (auth_users s) = s.
Proof. by destruct s. Qed.

Lemma gone_ids_spec {A} (key : A → uuid) (G : list uuid) (l : list A) (x : uuid) :
  x ∈ key <$> filter (λ r, key r ∈ G) l ↔ x ∈ G ∧ x ∈ key <$> l.
Proof.
  rewrite elem_of_fmap_filter, list_elem_of_fmap. split.
  - intros (r & Hr & HG & ->). eauto.
  - intros (HG & r & -> & Hr). eauto.
Qed.

Lemma profiles_delete_references (id : uuid) (s : db) :
  references_ok s → references_ok (profiles_delete id s).
Proof.
  intros Hok. unfold profiles_delete.
  rewrite <- (with_auth_users_id s) at 2.
  apply cascade_profiles_references; [done|..].
  - apply filter_ext_in. intros r Hr. rewrite elem_of_fmap_filter. split.
    + intros Hne (r' & _ & E & E'). congruence.
    + intros Hno E. apply Hno. eauto.
  - destruct Hok as (Hpf & _). eapply Forall_filter_weaken; [exact Hpf|]. auto.
Qed.

Lemma auth_users_delete_references (id : uuid) (s : db) :
  references_ok s → references_ok (auth_users_delete id s).
Proof.
  intros Hok. unfold auth_users_delete.
  cbn [profiles with_auth_users].
  set (gone := auth_id <$> filter (λ r, auth_id r = id) (auth_users s)).
  replace (with_profiles
             (with_auth_users s (filter (λ r, auth_id r ≠ id) (auth_users s)))
             (filter (λ r, profiles_id r ∉ gone) (profiles s)))
    with (with_profiles
            (with_auth_users s (filter (λ r, auth_id r ≠ id) (auth_users s)))
            (filter (λ r, profiles_id r ∉
                          profiles_id <$> filter (λ r, profiles_id r ∈ gone) (profiles s))
                    (profiles s))).
  - apply cascade_profiles_references; [done|done|].
    destruct Hok as (Hpf & _). eapply Forall_filter_weaken; [exact Hpf|].
    intros r Hr Hno Ha. rewrite gone_ids_spec in Hno.
    apply list_elem_of_fmap in Ha as (u & E & Hu).
    apply elem_of_fmap_filter. exists u. split; [done|]. split; [|done].
    intros Hid. apply Hno. split.
    + subst gone. apply elem_of_fmap_filter. eauto.
    + apply list_elem_of_fmap. eauto.
  - f_equal. apply filter_ext_in. intros r Hr. rewrite gone_ids_spec. split.
    + intros Hno HG. apply Hno. split; [done|]. apply list_elem_of_fmap. eauto.
    + intros Hno [HG _]. done.
Qed.

(** X1.  Deleting rows never leaves an orphan: if every reference of the
    database points at an existing row, it still does after a delete on
    projects, on clients or on project_clients under any caller's policies,
    after deleting a profile or an account with their cascades, and after
    [deleteProject] and the components' deletes. *)
Theorem deletes_leave_no_orphans (s : db) :
  references_ok s →
  (∀ auth_uid where_, references_ok (projects_delete auth_uid where_ s).1) ∧
  (∀ auth_uid where_, references_ok (clients_delete auth_uid where_ s).1) ∧
  (∀ auth_uid where_, references_ok (project_clients_delete auth_uid where_ s)) ∧
  (∀ id, references_ok (profiles_delete id s)) ∧
  (∀ id, references_ok (auth_users_delete id s)) ∧
  (∀ rq pid, references_ok (deleteProject rq pid s).1) ∧
  (∀ rq pid, references_ok (handleDeleteProject rq pid s).1) ∧
  (∀ rq cid, references_ok (handleDeleteClient rq cid s).1) ∧
  (∀ rq pid, references_ok (delete_project_clients rq pid s).1).
Proof.
  intros Hok.
  split; [intros; by apply projects_delete_references|].
  split; [intros; by apply clients_delete_references|].
  split; [intros; by apply project_clients_delete_references|].
  split; [intros; by apply profiles_delete_references|].
  split; [intros; by apply auth_users_delete_references|].
  split; [|split; [|split]].
  - intros rq pid. unfold deleteProject. destruct (user rq) as [u|]; [|done].
    unfold supabase. destruct (storage_reachable rq); [|done].
    pose proof (projects_delete_references (Some u)
      (λ p, bool_decide (projects_id p = pid) && bool_decide (projects_user_id p = u))
      s Hok) as H.
    by destruct (projects_delete _ _ s).
  - intros rq pid. unfold handleDeleteProject, supabase.
    destruct (storage_reachable rq); [|done].
    pose proof (projects_delete_references (user rq)
      (λ p, bool_decide (projects_id p = pid)) s Hok) as H.
    by destruct (projects_delete _ _ s).
  - intros rq cid. unfold handleDeleteClient, supabase.
    destruct (storage_reachable rq); [|done].
    pose proof (clients_delete_references (user rq)
      (λ c, bool_decide (clients_id c = cid)) s Hok) as H.
    by destruct (clients_delete _ _ s).
  - intros rq pid. unfold delete_project_clients, supabase.
    destruct (storage_reachable rq); [|done]. cbn.
    by apply project_clients_delete_references.
Qed.

Lemma deletes_leave_no_orphans_witness :
  references_ok sample_db ∧
  references_ok (deleteProject (sample_request (Some alice)) 10%N sample_db).1 ∧
  tasks (deleteProject (sample_request (Some alice)) 10%N sample_db).1 = [].
Proof.
  split; [exact sample_db_references_ok|]. split; [|reflexivity].
  exact (proj1 (proj2 (proj2 (proj2 (proj2 (proj2
           (deletes_leave_no_orphans sample_db sample_db_references_ok))))))
         (sample_request (Some alice)) 10%N).
Defined.

(** ** The keys stay unique *)



Section update_rows_key.
Context {R K : Type}.
Variables (policy where_ : R → bool) (assign trigger : R → R).
Variable row_check : R → result unit.
Variable key : R → K.

End update_rows_key.

Lemma updated_project_id u now r :
  projects_id (update_updated_at_column now (assign_project u r))
  = default (projects_id r) (PartialProject.id u).
Proof. reflexivity. Qed.



Lemma updated_profile_id u now r :
  profiles_id (update_updated_at_column now (assign_profile u r))
  = default (profiles_id r) (PartialProfile.id u).
Proof. reflexivity. Qed.























Lemma project_clients_insert_row_facts auth_uid u gen now (s s' : db) :
  project_clients_insert_row auth_uid u gen now s = Ok s' →
  ∃ r, s' = with_project_clients s (project_clients s ++ [r]) ∧
       PartialProjectClient.project_id u = Some (project_clients_project_id r) ∧
       PartialProjectClient.client_id u = Some (project_clients_client_id r) ∧
       project_clients_id r = default gen (PartialProjectClient.id u) ∧
       owns_project auth_uid s (project_clients_project_id r) ∧
       (project_clients_id r ∉ project_clients_id <$> project_clients s) ∧
       (link_pair r ∉ link_pair <$> project_clients s) ∧
       project_clients_project_id r ∈ projects_id <$> projects s ∧
       project_clients_client_id r ∈ clients_id <$> clients s.
Proof.
  unfold project_clients_insert_row.
  destruct (PartialProjectClient.project_id u) as [p|]; [|done].
  destruct (PartialProjectClient.client_id u) as [c|].
  - intros H. inv_require H. inversion H; subst.
    apply bool_decide_eq_true in Hreq0, Hreq1, Hreq2, Hreq3.
    eexists. split; [reflexivity|].
    cbn [project_clients_project_id project_clients_client_id project_clients_id].
    split; [done|]. split; [done|]. split; [done|].
    split; [by apply Is_true_true|]. done.
  - intros H. inv_require H. discriminate.
Qed.








(** ** Inserts and updates keep the references valid *)


Lemma projects_insert_owner auth_uid u gen now (s s' : db) (r : Project) :
  projects_insert auth_uid u gen now s = Ok (s', r) →
  projects_user_id r ∈ profiles_id <$> profiles s ∧ projects_policy auth_uid r.
Proof.
  unfold projects_insert.
  destruct (PartialProject.user_id u) as [owner|]; [|done].
  destruct (PartialProject.title u) as [title|].
  - intros H. apply bind_ok in H as ([] & Hc & H'). inv_require H'.
    inversion H'; subst. apply bool_decide_eq_true in Hreq0. split; [done|].
    unfold projects_row_check in Hc. inv_require Hc. by apply Is_true_true.
  - intros H. inv_require H. discriminate.
Qed.






Section update_rows_members.
Context {R : Type}.
Variables (policy where_ : R → bool) (assign trigger : R → R).
Variable row_check : R → result unit.

(** A row of the table after an update is a row the statement left alone
    or a row it wrote, and those passed the checks. *)
Lemma update_rows_member (tbl tbl' ret : list R) (r' : R) :
  update_rows policy where_ assign trigger row_check tbl = Ok (tbl', ret) →
  r' ∈ tbl' →
  r' ∈ tbl ∨
  ∃ r, r ∈ tbl ∧ policy r && where_ r ∧ r' = trigger (assign r) ∧ r' ∈ ret ∧
       row_check r' = Ok ().
Proof.
  intros Hup Hr'. apply update_rows_ok in Hup as (-> & -> & Hchk).
  apply list_elem_of_fmap in Hr' as (r & -> & Hr).
  destruct (decide (policy r && where_ r)) as [Hm|Hm].
  - right. exists r. pose proof Hm as Hm'. apply Is_true_true in Hm'. rewrite Hm'.
    assert (Hin : trigger (assign r) ∈
              (λ r, trigger (assign r)) <$> filter (λ r, policy r && where_ r) tbl).
    { apply list_elem_of_fmap. exists r. split; [done|]. by apply list_elem_of_filter. }
    repeat split; try done. rewrite Forall_forall in Hchk. by apply Hchk.
  - left. apply negb_prop_intro, Is_true_true, negb_true_iff in Hm. by rewrite Hm.
Qed.
End update_rows_members.







(** ** Reading back what was written *)

Lemma projects_insert_fields auth_uid u gen now (s s' : db) (r : Project) :
  projects_insert auth_uid u gen now s = Ok (s', r) →
  PartialProject.user_id u = Some (projects_user_id r) ∧
  projects_created_at r = default (Some now) (PartialProject.created_at u) ∧
  projects_updated_at r = default (Some now) (PartialProject.updated_at u).
Proof.
  unfold projects_insert.
  destruct (PartialProject.user_id u) as [owner|]; [|done].
  destruct (PartialProject.title u) as [title|].
  - intros H. apply bind_ok in H as ([] & Hc & H'). inv_require H'.
    by inversion H'; subst.
  - intros H. inv_require H. discriminate.
Qed.

Lemma select_own_projects (u : uuid) (l : list Project) :
  select_rows (projects_policy (Some u)) (λ p, bool_decide (projects_user_id p = u)) l
  = filter (λ p, projects_user_id p = u) l.
Proof.
  unfold select_rows. apply list_filter_iff. intros p.
  rewrite andb_True, bool_decide_spec, projects_policy_spec. split.
  - by intros [_ ?].
  - intros <-. done.
Qed.

Lemma row_embed auth_uid (s : db) (l : list Project) :
  Embedded.row <$> (embed auth_uid s <$> l) = l.
Proof. rewrite <- list_fmap_compose. by rewrite <- (list_fmap_id l) at 2. Qed.

(** The rows of [getProjects] are the caller's projects, each once. *)
Lemma getProjects_rows (rq : request) (u : uuid) (s : db) :
  user rq = Some u → storage_reachable rq = true →
  Embedded.row <$> getProjects rq s ≡ₚ filter (λ p, projects_user_id p = u) (projects s).
Proof.
  intros Hu Hup. unfold getProjects. rewrite Hu, Hup, row_embed.
  by rewrite merge_sort_Permutation, select_own_projects.
Qed.

Lemma select_by_id_none (policy : Project → bool) (where_ : Project → bool)
    (pid : uuid) (l : list Project) :
  pid ∉ projects_id <$> l →
  select_rows policy (λ p, bool_decide (projects_id p = pid) && where_ p) l = [].
Proof.
  intros Hnew. unfold select_rows. apply filter_none, Forall_forall.
  intros p Hp. rewrite !andb_True, bool_decide_spec. intros (_ & Hid & _).
  apply Hnew. apply list_elem_of_fmap. eauto.
Qed.

(** X4.  What [createProject] returns is what it stored: the new row is
    the caller's, whatever owner and timestamps the argument carried, it is
    stamped with the clock of the application server, it is the only change
    to the database, and the caller reads it back with [getProject] and
    finds it in [getProjects]. *)
Theorem createProject_then_getProject (rq rq' : request) (project : PartialProject.t)
    (s s' : db) (r : Project) :
  createProject rq project s = (s', Some r) →
  user rq' = user rq → storage_reachable rq' = true →
  user rq = Some (projects_user_id r) ∧
  projects_created_at r = Some (Date_now rq) ∧
  projects_updated_at r = Some (Date_now rq) ∧
  s' = with_projects s (projects s ++ [r]) ∧
  getProject rq' (projects_id r) s' = Some (embed (user rq) s' r) ∧
  r ∈ Embedded.row <$> getProjects rq' s'.
Proof.
  unfold createProject. destruct (user rq) as [u|] eqn:Hu; [|by inversion 1].
  unfold supabase. destruct (storage_reachable rq); [|by inversion 1].
  destruct (projects_insert _ _ _ _ s) as [[s1 p]|e] eqn:E; [|by inversion 1].
  cbn. intros [= <- <-] Hu' Hup'.
  pose proof (projects_insert_fields _ _ _ _ _ _ _ E) as (Hown & Hc & Hm).
  cbn in Hown, Hc, Hm. injection Hown as Hown.
  pose proof (projects_insert_ok _ _ _ _ _ _ _ E) as (-> & _ & _ & _ & Hnew).
  split; [by rewrite Hown|]. split; [done|]. split; [done|]. split; [done|].
  assert (Hpol : projects_policy (Some u) p) by (by apply projects_policy_spec; rewrite Hown).
  split.
  - unfold getProject. rewrite Hu', Hup'. cbn [projects with_projects].
    unfold select_rows. rewrite filter_app.
    fold (select_rows (projects_policy (Some u))
            (λ p0, bool_decide (projects_id p0 = projects_id p) &&
                   bool_decide (projects_user_id p0 = u)) (projects s)).
    rewrite select_by_id_none by done.
    rewrite filter_cons_True.
    + done.
    + rewrite !andb_True, !bool_decide_spec. done.
  - rewrite (getProjects_rows rq' u) by done. cbn [projects with_projects].
    apply list_elem_of_filter. split; [done|]. apply elem_of_app. right. by left.
Qed.

Lemma createProject_then_getProject_witness :
  ∃ s' r,
    createProject (sample_request (Some alice)) (sample_new_project 12) sample_db
    = (s', Some r) ∧
    projects_user_id r = alice ∧
    getProject (sample_request (Some alice)) 12%N s' = Some (embed (Some alice) s' r).
Proof.
  eexists _, _. split; [reflexivity|].
  destruct (createProject_then_getProject (sample_request (Some alice))
              (sample_request (Some alice)) (sample_new_project 12) sample_db _ _
              eq_refl eq_refl eq_refl) as (Hu & _ & _ & _ & Hget & _).
  split; [reflexivity|]. exact Hget.
Defined.

Section update_rows_reselect.
Context {R : Type}.
Variables (policy where_ : R → bool) (assign trigger : R → R).
Variable row_check : R → result unit.

(** When the rows an update wrote still match its filter, selecting with
    the same filter afterwards gives the rows it returned. *)
Lemma update_rows_reselect (tbl tbl' ret : list R) :
  update_rows policy where_ assign trigger row_check tbl = Ok (tbl', ret) →
  (∀ x, x ∈ tbl → policy x && where_ x → row_check (trigger (assign x)) = Ok () →
        policy (trigger (assign x)) && where_ (trigger (assign x))) →
  select_rows policy where_ tbl' = ret.
Proof.
  intros Hup Hstill. apply update_rows_ok in Hup as (-> & -> & Hchk).
  unfold select_rows. revert Hstill Hchk.
  induction tbl as [|x tbl IH]; intros Hstill; [done|].
  assert (IH' := IH (λ y Hy, Hstill y (list_elem_of_further _ _ _ Hy))). clear IH.
  rewrite fmap_cons, (filter_cons _ x tbl).
  destruct (decide (policy x && where_ x)) as [Hm|Hm]; intros Hchk.
  - rewrite fmap_cons in Hchk. apply Forall_cons in Hchk as [Hc Hchk].
    pose proof (Hstill x (list_elem_of_here _ _) Hm Hc) as Hnew.
    pose proof Hm as Hm'. apply Is_true_true in Hm'. rewrite Hm'.
    rewrite filter_cons_True by done. rewrite fmap_cons. f_equal. by apply IH'.
  - pose proof Hm as Hm'.
    apply negb_prop_intro, Is_true_true, negb_true_iff in Hm'. rewrite Hm'.
    rewrite filter_cons_False by done. by apply IH'.
Qed.

(** The one row an update returned comes from one stored row. *)
Lemma update_rows_single (tbl tbl' ret : list R) (r : R) :
  update_rows policy where_ assign trigger row_check tbl = Ok (tbl', ret) →
  single ret = Ok r →
  ret = [r] ∧ row_check r = Ok () ∧
  ∃ r0, r0 ∈ tbl ∧ policy r0 && where_ r0 ∧ r = trigger (assign r0).
Proof.
  intros Hup Hs. destruct ret as [|r1 [|r2 ret]]; try discriminate.
  injection Hs as ->. split; [done|].
  apply update_rows_ok in Hup as (_ & Hret & Hchk).
  apply Forall_cons in Hchk as [Hc _]. split; [done|].
  destruct (filter _ tbl) as [|r0 [|r1 l]] eqn:E; try discriminate.
  injection Hret as ->. exists r0.
  assert (Hin : r0 ∈ filter (λ r, policy r && where_ r) tbl) by (rewrite E; left).
  apply list_elem_of_filter in Hin as [? ?]. done.
Qed.
End update_rows_reselect.

Lemma projects_row_check_policy auth_uid (r : Project) :
  projects_row_check auth_uid r = Ok () → projects_policy auth_uid r.
Proof.
  unfold projects_row_check. intros H. inv_require H. by apply Is_true_true.
Qed.

(** X5.  An update is read back: when [updateProject] returns a row for a
    set of columns that leaves the key alone, the row is the stored one
    with the supplied columns assigned and [updated_at] set by the trigger,
    it has the requested id, it is the caller's, and [getProject] returns
    it; in the same way [getProfile] returns the row [updateProfile]
    returned. *)
Theorem update_then_get (rq rq' : request) (s : db) :
  user rq' = user rq → storage_reachable rq' = true →
  (∀ pid updates s' r,
     updateProject rq pid updates s = (s', Some r) →
     PartialProject.id updates = None →
     (∃ r0, r0 ∈ projects s ∧ projects_id r0 = pid ∧
            r = update_updated_at_column (CURRENT_TIMESTAMP rq)
                  (assign_project (updatesWithTimestamp updates (Date_now rq)) r0)) ∧
     projects_id r = pid ∧
     user rq = Some (projects_user_id r) ∧
     getProject rq' pid s' = Some (embed (user rq) s' r)) ∧
  (∀ updates s' r,
     updateProfile rq updates s = (s', Some r) →
     PartialProfile.id updates = None →
     (∃ r0, r0 ∈ profiles s ∧
            r = update_updated_at_column (CURRENT_TIMESTAMP rq) (assign_profile updates r0)) ∧
     user rq = Some (profiles_id r) ∧
     getProfile rq' s' = Some r).
Proof.
  intros Hu' Hup'. split.
  - intros pid updates s' r. unfold updateProject.
    destruct (user rq) as [u|] eqn:Hu; [|by inversion 1].
    unfold supabase. destruct (storage_reachable rq); [|by inversion 1].
    unfold returning_single.
    destruct (projects_update _ _ _ _ s) as [[s1 ret]|e] eqn:E; [|by inversion 1].
    cbn. destruct (single ret) as [r1|e] eqn:Hs; [|by inversion 1].
    cbn. intros [= <- <-] Hid.
    apply projects_update_ok in E as (tbl & Hrows & ->).
    destruct (update_rows_single _ _ _ _ _ _ _ _ _ Hrows Hs)
      as (-> & Hchk & r0 & Hr0 & Hm & Hr1).
    apply andb_True in Hm as [Hpol0 Hw0]. apply andb_True in Hw0 as [Hid0 Hown0].
    apply bool_decide_spec in Hid0, Hown0.
    apply projects_row_check_policy, projects_policy_spec in Hchk.
    injection Hchk as Hown.
    assert (Hrid : projects_id r1 = pid).
    { rewrite Hr1. rewrite (updated_project_id _ _ r0). cbn. by rewrite Hid. }
    split; [eauto|]. split; [done|]. split; [by rewrite Hown|].
    unfold getProject. rewrite Hu', Hup'. cbn [projects with_projects].
    rewrite (update_rows_reselect _ _ _ _ _ _ _ _ Hrows); [done|].
    intros x Hx Hmx Hcx. apply andb_True in Hmx as [_ Hwx].
    apply andb_True in Hwx as [Hidx _]. apply bool_decide_spec in Hidx.
    pose proof (projects_row_check_policy _ _ Hcx) as Hpx.
    rewrite !andb_True, !bool_decide_spec. split; [done|]. split.
    + rewrite (updated_project_id _ _ x). cbn. by rewrite Hid.
    + apply projects_policy_spec in Hpx. by injection Hpx.
  - intros updates s' r. unfold updateProfile.
    destruct (user rq) as [u|] eqn:Hu; [|by inversion 1].
    unfold supabase. destruct (storage_reachable rq); [|by inversion 1].
    unfold returning_single.
    destruct (profiles_update _ _ _ _ s) as [[s1 ret]|e] eqn:E; [|by inversion 1].
    cbn. destruct (single ret) as [r1|e] eqn:Hs; [|by inversion 1].
    cbn. intros [= <- <-] Hid.
    unfold profiles_update in E.
    apply bind_ok in E as ([tbl rt] & Hrows & E). inv_require E.
    injection E as <- <-.
    destruct (update_rows_single _ _ _ _ _ _ _ _ _ Hrows Hs)
      as (-> & Hchk & r0 & Hr0 & Hm & Hr1).
    apply andb_True in Hm as [Hpol0 Hid0]. apply bool_decide_spec in Hid0.
    assert (Hrid : profiles_id r1 = u).
    { rewrite Hr1. rewrite (updated_profile_id _ _ r0). by rewrite Hid. }
    split; [eauto|]. split; [by rewrite Hrid|].
    unfold getProfile. rewrite Hu', Hup'. cbn [profiles with_profiles].
    rewrite (update_rows_reselect _ _ _ _ _ _ _ _ Hrows); [done|].
    intros x Hx Hmx Hcx. apply andb_True in Hmx as [_ Hidx].
    apply bool_decide_spec in Hidx.
    assert (Hp : profiles_policy (Some u)
                   (update_updated_at_column (CURRENT_TIMESTAMP rq) (assign_profile updates x))).
    { unfold profiles_row_check, require in Hcx.
      revert Hcx.
      destruct (profiles_policy (Some u) (update_updated_at_column _ _));
        [done|discriminate]. }
    rewrite andb_True, bool_decide_spec. split; [done|].
    rewrite (updated_profile_id _ _ x). by rewrite Hid.
Qed.

Lemma update_then_get_witness :
  ∃ s' r,
    updateProject (sample_request (Some alice)) 10%N (sample_updates 50 None) sample_db
    = (s', Some r) ∧
    projects_progress r = Some 50 ∧
    getProject (sample_request (Some alice)) 10%N s' = Some (embed (Some alice) s' r).
Proof.
  eexists _, _. split; [vm_compute; reflexivity|]. split; [reflexivity|].
  destruct (update_then_get (sample_request (Some alice)) (sample_request (Some alice))
              sample_db eq_refl eq_refl) as [H _].
  destruct (H 10%N (sample_updates 50 None) _ _ eq_refl eq_refl) as (_ & _ & _ & Hg).
  exact Hg.
Defined.

(** ** What a delete removes *)

Lemma deleted_project_ids (u pid : uuid) (l : list Project) (p : Project) (i : uuid) :
  p ∈ l → projects_id p = pid → projects_user_id p = u →
  i ∉ projects_id <$>
        filter (λ p, projects_policy (Some u) p &&
                     (bool_decide (projects_id p = pid) &&
                      bool_decide (projects_user_id p = u))) l
  ↔ i ≠ pid.
Proof.
  intros Hp Hid Hown. split.
  - intros Hni ->. apply Hni. apply list_elem_of_fmap. exists p. split; [done|].
    apply list_elem_of_filter. split; [|done].
    rewrite !andb_True, !bool_decide_spec, projects_policy_spec.
    by rewrite Hown.
  - intros Hne Hi. apply list_elem_of_fmap in Hi as (q & -> & Hq).
    apply list_elem_of_filter in Hq as [Hm _].
    rewrite !andb_True, !bool_decide_spec in Hm. by destruct Hm as (_ & ? & _).
Qed.

(** X6.  [deleteProject] removes the caller's project with the given id
    and nothing else of the projects, the profiles and the clients; when
    the caller has such a project, the tasks, the timeline entries and the
    client links that go are exactly those of that project.  Afterwards the
    caller's [getProject] for the id finds nothing and [getProjects] does
    not list it. *)
Theorem deleteProject_removes_the_project (rq rq' : request) (u pid : uuid) (s : db) :
  user rq = Some u → storage_reachable rq = true →
  user rq' = Some u →
  let s' := (deleteProject rq pid s).1 in
  projects s' = filter (λ p, ¬ (projects_id p = pid ∧ projects_user_id p = u)) (projects s) ∧
  auth_users s' = auth_users s ∧ profiles s' = profiles s ∧ clients s' = clients s ∧
  (∀ p, p ∈ projects s → projects_id p = pid → projects_user_id p = u →
     tasks s' = filter (λ t, tasks_project_id t ≠ pid) (tasks s) ∧
     project_timeline s'
     = filter (λ e, project_timeline_project_id e ≠ pid) (project_timeline s) ∧
     project_clients s'
     = filter (λ l, project_clients_project_id l ≠ pid) (project_clients s)) ∧
  getProject rq' pid s' = None ∧
  pid ∉ projects_id <$> (Embedded.row <$> getProjects rq' s').
Proof.
  intros Hu Hup Hu' s'. subst s'.
  unfold deleteProject, supabase, commit. rewrite Hu, Hup.
  unfold projects_delete, delete_rows.
  cbn [fst snd projects auth_users profiles clients tasks project_timeline
       project_clients cascade_projects with_projects].
  assert (Hkept :
    filter (λ r, negb (projects_policy (Some u) r &&
                       (bool_decide (projects_id r = pid) &&
                        bool_decide (projects_user_id r = u)))) (projects s)
    = filter (λ p, ¬ (projects_id p = pid ∧ projects_user_id p = u)) (projects s)).
  { apply list_filter_iff. intros p.
    rewrite negb_True, !andb_True, !bool_decide_spec, projects_policy_spec.
    split; intros Hn H; apply Hn; [|tauto].
    destruct H as [? Hown]. by rewrite Hown. }
  rewrite Hkept.
  split; [done|]. split; [done|]. split; [done|]. split; [done|]. split.
  - intros p Hp Hid Hown.
    split; [|split]; apply list_filter_iff; intros x;
      apply (deleted_project_ids u pid (projects s) p); done.
  - assert (Hnone : ∀ where_,
      select_rows (projects_policy (Some u))
        (λ p, bool_decide (projects_id p = pid) && where_ p)
        (filter (λ p, ¬ (projects_id p = pid ∧ projects_user_id p = u)) (projects s))
      = []).
    { intros where_. unfold select_rows. apply filter_none, Forall_forall.
      intros p Hp. apply list_elem_of_filter in Hp as [Hkeep _].
      rewrite !andb_True, bool_decide_spec, projects_policy_spec.
      intros (Hown & Hid & _). apply Hkeep. split; [done|]. by injection Hown. }
    split.
    + unfold getProject. rewrite Hu'.
      destruct (storage_reachable rq'); [|done].
      cbn [projects]. by rewrite Hnone.
    + unfold getProjects. rewrite Hu'.
      destruct (storage_reachable rq'); [|by rewrite !fmap_nil; apply not_elem_of_nil].
      rewrite row_embed. cbn [projects]. intros Hin.
      apply list_elem_of_fmap in Hin as (p & Hid & Hp).
      rewrite merge_sort_Permutation in Hp.
      apply list_elem_of_filter in Hp as [Hm Hp].
      apply list_elem_of_filter in Hp as [Hkeep _].
      rewrite andb_True, bool_decide_spec in Hm. destruct Hm as [_ Hown].
      by apply Hkeep.
Qed.

Lemma deleteProject_removes_the_project_witness :
  projects (deleteProject (sample_request (Some alice)) 10%N sample_db).1
  = [sample_project 11 bob completed (Some 100)] ∧
  tasks (deleteProject (sample_request (Some alice)) 10%N sample_db).1 = [] ∧
  getProject (sample_request (Some alice)) 10%N
    (deleteProject (sample_request (Some alice)) 10%N sample_db).1 = None.
Proof.
  destruct (deleteProject_removes_the_project (sample_request (Some alice))
              (sample_request (Some alice)) alice 10%N sample_db
              eq_refl eq_refl eq_refl) as (Hp & _ & _ & _ & Hdep & Hget & _).
  split; [rewrite Hp; reflexivity|].
  split; [|exact Hget].
  destruct (Hdep (sample_project 10 alice in_progress (Some 40))) as (Ht & _);
    [left|reflexivity|reflexivity|].
  rewrite Ht. reflexivity.
Defined.

(** ** Updates and ownership *)

Section update_rows_key_kept.
Context {R K : Type}.
Variables (policy where_ : R → bool) (assign trigger : R → R).
Variable row_check : R → result unit.
Variable key : R → K.

(** A column keeps its values, row by row, when the rows that pass the
    checks have the value they had. *)
Lemma update_rows_key_kept (tbl tbl' ret : list R) :
  (∀ r, policy r → row_check (trigger (assign r)) = Ok () →
        key (trigger (assign r)) = key r) →
  update_rows policy where_ assign trigger row_check tbl = Ok (tbl', ret) →
  key <$> tbl' = key <$> tbl.
Proof.
  intros Hkey Hup. apply update_rows_ok in Hup as (-> & -> & Hchk).
  rewrite Forall_forall in Hchk.
  rewrite <- list_fmap_compose. apply list_fmap_ext. intros i r Hr. cbn.
  destruct (decide (policy r && where_ r)) as [Hm|Hm].
  - pose proof Hm as Hm'. apply Is_true_true in Hm'. rewrite Hm'.
    pose proof Hm as [Hp _]%andb_True. apply Hkey; [done|]. apply Hchk.
    apply list_elem_of_fmap. exists r. split; [done|].
    apply list_elem_of_filter. split; [done|]. by eapply list_elem_of_lookup_2.
  - apply negb_prop_intro, Is_true_true, negb_true_iff in Hm. by rewrite Hm.
Qed.
End update_rows_key_kept.

Lemma projects_update_owner a w u now (s s' : db) (ret : list Project) :
  projects_update a w u now s = Ok (s', ret) →
  projects_user_id <$> projects s' = projects_user_id <$> projects s.
Proof.
  intros H. apply projects_update_ok in H as (tbl & Hup & ->).
  cbn [projects with_projects].
  eapply (update_rows_key_kept _ _ _ _ _ projects_user_id); [|exact Hup].
  intros r Hp Hc. apply projects_row_check_policy in Hc.
  apply projects_policy_spec in Hp, Hc. congruence.
Qed.

(** X7.  No update hands a record over: an update of projects or of
    clients leaves the owner of every row as it was, an update of profiles
    leaves the identity of every profile as it was, a task that an update
    wrote belongs to a project of the caller, and [updateProject] leaves
    the owner of every project as it was, whatever owner the update
    names. *)
Theorem updates_keep_owner (a : option uuid) (s : db) :
  (∀ w u now s' ret, projects_update a w u now s = Ok (s', ret) →
     projects_user_id <$> projects s' = projects_user_id <$> projects s) ∧
  (∀ w u now s' ret, clients_update a w u now s = Ok (s', ret) →
     clients_user_id <$> clients s' = clients_user_id <$> clients s) ∧
  (∀ w u now s' ret, profiles_update a w u now s = Ok (s', ret) →
     profiles_id <$> profiles s' = profiles_id <$> profiles s) ∧
  (∀ w u now s' ret, tasks_update a w u now s = Ok (s', ret) →
     Forall (λ t, owns_project a s (tasks_project_id t)) ret) ∧
  (∀ rq pid updates,
     projects_user_id <$> projects (updateProject rq pid updates s).1
     = projects_user_id <$> projects s).
Proof.
  split; [intros; by eapply projects_update_owner|]. split; [|split; [|split]].
  - intros w u now s' ret H. apply clients_update_ok in H as (tbl & Hup & ->).
    cbn [clients with_clients].
    eapply (update_rows_key_kept _ _ _ _ _ clients_user_id); [|exact Hup].
    intros r Hp Hc. unfold clients_row_check, require in Hc.
    destruct (clients_policy a (update_updated_at_column now (assign_client u r)))
      eqn:Hnew; [|discriminate].
    apply Is_true_true in Hnew. apply clients_policy_spec in Hp, Hnew. congruence.
  - intros w u now s' ret H. unfold profiles_update in H.
    apply bind_ok in H as ([tbl rt] & Hup & H). inv_require H.
    injection H as <- <-. cbn [profiles with_profiles].
    eapply (update_rows_key_kept _ _ _ _ _ profiles_id); [|exact Hup].
    intros r Hp Hc. unfold profiles_row_check, require in Hc.
    destruct (profiles_policy a (update_updated_at_column now (assign_profile u r)))
      eqn:Hnew; [|discriminate].
    apply Is_true_true in Hnew. unfold profiles_policy in Hp, Hnew.
    apply is_true_eq_uuid in Hp as (v & Ha & Hv).
    apply is_true_eq_uuid in Hnew as (v' & Ha' & Hv'). congruence.
  - intros w u now s' ret H. apply tasks_update_ok in H as (tbl & Hup & ->).
    apply update_rows_ok in Hup as (_ & _ & Hchk).
    eapply Forall_impl; [exact Hchk|]. intros t Hc. cbn in Hc.
    unfold tasks_row_check in Hc. inv_require Hc. by apply Is_true_true.
  - intros rq pid updates. unfold updateProject. destruct (user rq) as [u|]; [|done].
    unfold supabase. destruct (storage_reachable rq); [|done].
    unfold returning_single.
    destruct (projects_update _ _ _ _ s) as [[s' ret]|e] eqn:E; [|done].
    cbn. destruct (single ret); [|done]. cbn. by eapply projects_update_owner.
Qed.

Lemma updates_keep_owner_witness :
  (updateProject (sample_request (Some alice)) 10%N (sample_transfer bob) sample_db).2
  = None ∧
  projects_user_id <$>
    projects (updateProject (sample_request (Some alice)) 10%N (sample_transfer bob)
                sample_db).1
  = [alice; bob].
Proof.
  split; [reflexivity|].
  destruct (updates_keep_owner (Some alice) sample_db) as (_ & _ & _ & _ & H).
  rewrite H. reflexivity.
Defined.

(** ** What the list functions return *)

Global Instance updated_at_desc_total : Total updated_at_desc.
Proof.
  intros a b. unfold updated_at_desc.
  destruct (projects_updated_at a), (projects_updated_at b); try tauto. lia.
Qed.

Global Instance updated_at_desc_trans : Transitive updated_at_desc.
Proof.
  intros a b c. unfold updated_at_desc.
  destruct (projects_updated_at a), (projects_updated_at b), (projects_updated_at c);
    try tauto. lia.
Qed.

Lemma select_own_clients (u : uuid) (l : list Client) :
  select_rows (clients_policy (Some u)) (λ c, bool_decide (clients_user_id c = u)) l
  = filter (λ c, clients_user_id c = u) l.
Proof.
  unfold select_rows. apply list_filter_iff. intros c.
  rewrite andb_True, bool_decide_spec, clients_policy_spec. split.
  - by intros [_ ?].
  - intros <-. done.
Qed.

Section lists.
Variable text_le : relation string.
Context `{∀ x y, Decision (text_le x y)}.
Context `{!Total text_le}.

Local Instance by_name_total :
  Total (λ a b : Client, text_le (clients_name a) (clients_name b)).
Proof. intros a b. apply (total text_le). Qed.

(** X8.  For a signed-in caller and a storage that answers, [getProjects]
    lists the caller's projects, each once and no other, the most recently
    updated first (a project without [updated_at] before the others), each
    with all the tasks of that project; [getClients] lists the caller's
    clients, each once and no other, in the order of their names, for
    any collation that orders every two names. *)
Theorem lists_are_own_and_sorted (rq : request) (u : uuid) (s : db) :
  user rq = Some u → storage_reachable rq = true →
  Embedded.row <$> getProjects rq s ≡ₚ filter (λ p, projects_user_id p = u) (projects s) ∧
  StronglySorted updated_at_desc (Embedded.row <$> getProjects rq s) ∧
  Forall (λ e, Embedded.tasks e
               = filter (λ t, tasks_project_id t = projects_id (Embedded.row e)) (tasks s))
         (getProjects rq s) ∧
  getClients text_le rq s ≡ₚ filter (λ c, clients_user_id c = u) (clients s) ∧
  Sorted (λ a b, text_le (clients_name a) (clients_name b)) (getClients text_le rq s).
Proof.
  intros Hu Hup. split; [by apply getProjects_rows|].
  unfold getProjects, getClients. rewrite Hu, Hup, row_embed.
  split; [apply StronglySorted_merge_sort; apply _|]. split; [|split].
  - apply Forall_fmap, Forall_forall. intros p Hp. cbn.
    rewrite merge_sort_Permutation, select_own_projects in Hp.
    apply list_elem_of_filter in Hp as [Hown Hp].
    rewrite (owner_sees_tasks _ _ (projects_id p)).
    + apply list_filter_iff. intros t. by rewrite bool_decide_spec.
    + apply Is_true_true, owns_project_spec. exists p.
      split; [done|]. split; [done|]. apply projects_policy_spec. by rewrite Hown.
    + intros t. by rewrite bool_decide_spec.
  - by rewrite merge_sort_Permutation, select_own_clients.
  - apply Sorted_merge_sort; apply _.
Qed.
End lists.

Lemma lists_are_own_and_sorted_witness :
  Embedded.row <$> getProjects (sample_request (Some alice)) sample_db
  ≡ₚ [sample_project 10 alice in_progress (Some 40)] ∧
  getClients (λ x y, String.leb x y) (sample_request (Some alice)) sample_db
  ≡ₚ [sample_client 20 alice].
Proof.
  assert (Htot : Total (λ x y : string, Is_true (String.leb x y))).
  { intros x y. destruct (String.leb_total x y) as [E|E]; rewrite E; [by left|by right]. }
  destruct (lists_are_own_and_sorted (λ x y, String.leb x y)
              (sample_request (Some alice)) alice sample_db eq_refl eq_refl)
    as (Hp & _ & _ & Hc & _).
  split; [exact Hp | exact Hc].
Defined.

(** ** The range of [priority] *)

Lemma with_tasks_id (s : db) : with_tasks s (tasks s) = s.
Proof. by destruct s. Qed.

Lemma priority_check_sound (r : Task) :
  check_satisfied (tasks_priority_check r) = true ↔ priority_null_or_in_range r.
Proof.
  unfold tasks_priority_check, priority_null_or_in_range, sql_ge, sql_le.
  destruct (tasks_priority r) as [v|]; cbn.
  - split.
    + intros Hc w [= <-].
      destruct (decide (1 ≤ v)) as [H0|H0], (decide (v ≤ 5)) as [H1|H1]; [lia|..];
        exfalso; revert Hc;
        rewrite ?(bool_decide_true _ H0), ?(bool_decide_false _ H0),
                ?(bool_decide_true _ H1), ?(bool_decide_false _ H1); done.
    + intros Hx. specialize (Hx v eq_refl). rewrite !bool_decide_true by lia. done.
  - split; [intros _ v; discriminate | done].
Qed.

Lemma tasks_row_check_priority auth_uid (s : db) (r : Task) :
  tasks_row_check auth_uid s r = Ok () → priority_null_or_in_range r.
Proof.
  unfold tasks_row_check. intros H. inv_require H.
  apply priority_check_sound. unfold require in H. by case_match.
Qed.

(** X9.  If the priority of every task is [NULL] or within [1,5], it still
    is after every update of tasks that commits; an update that carries a
    priority outside [1,5] is rejected, unless it matches no row and
    stores nothing. *)
Theorem priority_stays_in_range (auth_uid : option uuid) (s : db) :
  Forall priority_null_or_in_range (tasks s) →
  (∀ where_ u now s' ret,
     tasks_update auth_uid where_ u now s = Ok (s', ret) →
     Forall priority_null_or_in_range (tasks s')) ∧
  (∀ where_ u now v,
     PartialTask.priority u = Some (Some v) → ¬ 1 ≤ v ≤ 5 →
     (∃ e, tasks_update auth_uid where_ u now s = Error e) ∨
     tasks_update auth_uid where_ u now s = Ok (s, [])).
Proof.
  intros Hinv. split.
  - intros where_ u now s' ret H.
    apply tasks_update_ok in H as (tbl & Hup & ->). cbn.
    rewrite Forall_forall in Hinv |- *. intros r' Hr'.
    destruct (update_rows_member _ _ _ _ _ _ _ _ _ Hup Hr')
      as [Hold|(r & _ & _ & _ & _ & Hc)].
    + by apply Hinv.
    + by eapply tasks_row_check_priority.
  - intros where_ u now v Hv Hout.
    destruct (tasks_update auth_uid where_ u now s) as [[s' ret]|e] eqn:E; [|eauto].
    right. apply tasks_update_ok in E as (tbl & Hup & ->).
    destruct ret as [|r' ret].
    + apply update_rows_no_match in Hup as ->. by rewrite with_tasks_id.
    + exfalso. apply update_rows_ok in Hup as (_ & Hret & Hchk).
      apply Forall_cons in Hchk as [Hc _].
      apply tasks_row_check_priority in Hc.
      destruct (filter _ (tasks s)) as [|r rest]; [discriminate|].
      rewrite fmap_cons in Hret. injection Hret as -> _.
      apply Hout, Hc. cbn. by rewrite Hv.
Qed.

Lemma priority_stays_in_range_witness :
  Forall priority_null_or_in_range (tasks sample_db) ∧
  tasks_update (Some alice) (λ t, bool_decide (tasks_id t = 40%N)) (sample_priority 6) 101
    sample_db = Error check_violation ∧
  ∃ s' ret,
    tasks_update (Some alice) (λ t, bool_decide (tasks_id t = 40%N)) (sample_priority 5) 101
      sample_db = Ok (s', ret) ∧
    Forall priority_null_or_in_range (tasks s').
Proof.
  assert (Hinv : Forall priority_null_or_in_range (tasks sample_db)).
  { unfold sample_db. cbn [tasks].
    repeat (apply Forall_cons; split; [intros v [= <-]; lia|]). apply Forall_nil_2. }
  split; [exact Hinv|]. split; [reflexivity|].
  eexists _, _. split; [reflexivity|].
  destruct (priority_stays_in_range (Some alice) sample_db Hinv) as [H _].
  eapply (H (λ t, bool_decide (tasks_id t = 40%N)) (sample_priority 5) 101).
  reflexivity.
Defined.

(** ** The dashboard page and the statistics view *)








(** ** Pagination *)

Lemma totalPages_bounds {A} (items : list A) :
  Z.of_nat (length items) ≤ ITEMS_PER_PAGE * totalPages items
  < Z.of_nat (length items) + ITEMS_PER_PAGE.
Proof.
  unfold totalPages, Math_ceil_div, ITEMS_PER_PAGE.
  pose proof (Z.div_mod (- Z.of_nat (length items)) 12 ltac:(lia)).
  pose proof (Z.mod_pos_bound (- Z.of_nat (length items)) 12 ltac:(lia)).
  lia.
Qed.

Lemma take_min_length {A} (n : nat) (l : list A) :
  take (n `min` length l) l = take n l.
Proof.
  destruct (decide (n ≤ length l)%nat) as [Hle|Hgt].
  - by rewrite Nat.min_l.
  - rewrite Nat.min_r by lia. by rewrite !take_ge by lia.
Qed.

(** A page is the next [ITEMS_PER_PAGE] items after those of the pages
    before it. *)
Lemma paginatedProjects_chunk {A} (page : nat) (items : list A) :
  paginatedProjects (Z.of_nat (S page)) items = take 12 (drop (12 * page) items).
Proof.
  unfold paginatedProjects, slice, ITEMS_PER_PAGE. cbv zeta.
  assert (Hs : (Z.of_nat (S page) - 1) * 12 = Z.of_nat (12 * page)) by lia.
  rewrite Hs. rewrite !bool_decide_false by lia.
  destruct (decide (12 * page ≤ length items)%nat) as [Hle|Hgt].
  - rewrite (Z.min_l (Z.of_nat (12 * page))) by lia. rewrite Nat2Z.id.
    rewrite <- (take_min_length 12). rewrite length_drop. f_equal. lia.
  - rewrite !Z.min_r by lia. rewrite Z.sub_diag, Nat2Z.id.
    rewrite !drop_ge by lia. by rewrite !take_nil.
Qed.

Lemma chunks_concat {A} (k : nat) (l : list A) :
  (length l ≤ 12 * k)%nat →
  concat ((λ i, take 12 (drop (12 * i) l)) <$> seq 0 k) = l.
Proof.
  revert l. induction k as [|k IH]; intros l Hl.
  - destruct l; [done|cbn in Hl; lia].
  - cbn [seq fmap list_fmap concat]. rewrite <- fmap_S_seq, <- list_fmap_compose.
    rewrite Nat.mul_0_r, drop_0.
    transitivity (take 12 l ++ drop 12 l); [|apply take_drop]. f_equal.
    etrans; [|apply (IH (drop 12 l)); rewrite length_drop; lia]. f_equal.
    apply list_fmap_ext. intros _ i _. unfold compose. rewrite drop_drop.
    do 2 f_equal. lia.
Qed.

(** X11.  The pages of the project and client lists: pages 1 to
    [totalPages], one after the other, are the list itself; each of them
    holds at least one and at most [ITEMS_PER_PAGE] items; a page past
    [totalPages] is empty; and there is no page exactly when the list is
    empty. *)
Theorem pages_cover_the_list {A} (items : list A) :
  concat ((λ page, paginatedProjects (Z.of_nat page) items)
          <$> seq 1 (Z.to_nat (totalPages items))) = items ∧
  (∀ page, 1 ≤ page ≤ totalPages items →
     (1 ≤ length (paginatedProjects page items) ≤ 12)%nat) ∧
  (∀ page, totalPages items < page → paginatedProjects page items = []) ∧
  (totalPages items = 0 ↔ items = []).
Proof.
  pose proof (totalPages_bounds items) as Hb. unfold ITEMS_PER_PAGE in Hb.
  split; [|split; [|split]].
  - rewrite <- fmap_S_seq, <- list_fmap_compose.
    etrans; [|apply (chunks_concat (Z.to_nat (totalPages items)) items); lia].
    f_equal. apply list_fmap_ext. intros _ i _. unfold compose.
    apply paginatedProjects_chunk.
  - intros page Hpage.
    replace page with (Z.of_nat (S (Z.to_nat (page - 1)))) by lia.
    rewrite paginatedProjects_chunk, length_take, length_drop. lia.
  - intros page Hpage.
    replace page with (Z.of_nat (S (Z.to_nat (page - 1)))) by lia.
    rewrite paginatedProjects_chunk, drop_ge by lia. done.
  - split.
    + intros H0. rewrite H0 in Hb. destruct items; [done|cbn in Hb; lia].
    + intros ->. reflexivity.
Qed.

Lemma pages_cover_the_list_witness :
  totalPages (seq 0 30) = 3 ∧
  paginatedProjects 3 (seq 0 30) = [24; 25; 26; 27; 28; 29]%nat ∧
  (1 ≤ length (paginatedProjects 3 (seq 0 30)) ≤ 12)%nat ∧
  paginatedProjects 4 (seq 0 30) = [].
Proof.
  destruct (pages_cover_the_list (seq 0 30)) as (_ & Hin & Hout & _).
  split; [reflexivity|]. split; [reflexivity|]. split.
  - apply Hin. vm_compute. split; discriminate.
  - apply Hout. reflexivity.
Defined.

(** ** The edit-project modal *)

(** X12.  The state of the edit modal stays valid: whatever the progress
    and the increment, [adjustProgress] yields a progress within [0,100],
    which the [CHECK] on the column and its [INTEGER] type accept; and
    [handleClientToggle], called for a box that was not ticked when it
    reports a tick, keeps the selection free of duplicates, leaves the
    client in the selection exactly when the box is ticked, and leaves the
    other clients where they were. *)
Theorem modal_state_stays_valid (clientId : uuid) (checked : bool) (prev : list uuid) :
  NoDup prev → (checked = true → clientId ∉ prev) →
  NoDup (handleClientToggle clientId checked prev) ∧
  (clientId ∈ handleClientToggle clientId checked prev ↔ checked = true) ∧
  (∀ c, c ≠ clientId → c ∈ handleClientToggle clientId checked prev ↔ c ∈ prev) ∧
  (∀ progress increment,
     0 ≤ adjustProgress progress increment ≤ 100 ∧
     (0 ≤ progress + increment ≤ 100 →
      adjustProgress progress increment = progress + increment) ∧
     ∀ r, projects_progress r = Some (adjustProgress progress increment) →
          check_satisfied (projects_progress_check r) = true ∧
          fits_integer (projects_progress r) = true).
Proof.
  intros Hnd Hnew. unfold handleClientToggle. split; [|split; [|split]].
  - destruct checked.
    + apply NoDup_app. split; [done|]. split; [|apply NoDup_singleton].
      intros x Hx Hx'. apply list_elem_of_singleton in Hx' as ->. by apply Hnew.
    + by apply NoDup_filter.
  - destruct checked.
    + split; [done|]. intros _. apply elem_of_app. right. by left.
    + split; [|done]. intros H. apply list_elem_of_filter in H as [H _]. done.
  - intros c Hc. destruct checked.
    + rewrite elem_of_app, list_elem_of_singleton. tauto.
    + rewrite list_elem_of_filter. tauto.
  - intros progress increment. unfold adjustProgress.
    split; [lia|]. split; [lia|].
    intros r Hr. split.
    + apply progress_check_sound. intros v Hv. rewrite Hr in Hv.
      injection Hv as <-. lia.
    + rewrite Hr. cbn. apply bool_decide_eq_true. lia.
Qed.

Lemma modal_state_stays_valid_witness :
  NoDup (handleClientToggle 21%N true [20%N]) ∧
  handleClientToggle 20%N false [20%N; 21%N] = [21%N] ∧
  adjustProgress 98 5 = 100.
Proof.
  split; [|split; reflexivity].
  apply (modal_state_stays_valid 21%N true [20%N]).
  - apply NoDup_singleton.
  - intros _ H. apply list_elem_of_singleton in H. discriminate.
Defined.

Lemma projectClientData_cons (gen : nat → uuid) (pid c : uuid) (sel : list uuid) :
  projectClientData gen pid (c :: sel)
  = ({| PartialProjectClient.id := None;
        PartialProjectClient.project_id := Some pid;
        PartialProjectClient.client_id := Some c;
        PartialProjectClient.reference_note := None;
        PartialProjectClient.created_at := None |}, gen 0%nat)
    :: projectClientData (gen ∘ S) pid sel.
Proof. reflexivity. Qed.

(** The rows a successful insert of a selection appended. *)
Lemma insert_selection_ok a gen pid sel now (s s' : db) :
  project_clients_insert a (projectClientData gen pid sel) now s = Ok s' →
  ∃ new, s' = with_project_clients s (project_clients s ++ new) ∧
         project_clients_client_id <$> new = sel ∧
         Forall (λ r, project_clients_project_id r = pid) new.
Proof.
  revert gen s. induction sel as [|c sel IH]; intros gen s H.
  - cbn in H. injection H as <-. exists []. rewrite app_nil_r.
    split; [by destruct s|]. by split.
  - rewrite projectClientData_cons in H. cbn [project_clients_insert] in H.
    apply bind_ok in H as (s1 & H1 & H2).
    apply project_clients_insert_row_ok in H1 as (r & -> & Hp & Hc).
    cbn in Hp, Hc. injection Hp as Hp. injection Hc as Hc.
    apply IH in H2 as (new & -> & Hcs & Hps).
    exists (r :: new). cbn [project_clients with_project_clients].
    rewrite <- app_assoc. split; [done|]. split.
    + cbn. by rewrite Hcs, Hc.
    + by constructor.
Qed.

(** When an insert of a selection goes through. *)
Lemma insert_selection_succeeds a gen pid sel now (s : db) :
  owns_project a s pid →
  Forall (λ c, c ∈ clients_id <$> clients s) sel →
  NoDup sel →
  Forall (λ c, (pid, c) ∉ link_pair <$> project_clients s) sel →
  (∀ i j, gen i = gen j → i = j) →
  (∀ i, gen i ∉ project_clients_id <$> project_clients s) →
  ∃ s', project_clients_insert a (projectClientData gen pid sel) now s = Ok s'.
Proof.
  revert gen s. induction sel as [|c sel IH]; intros gen s Hown Hcl Hnd Hpair Hinj Hfresh.
  - by exists s.
  - rewrite projectClientData_cons. cbn [project_clients_insert].
    apply Forall_cons in Hcl as [Hc Hcl]. apply Forall_cons in Hpair as [Hpc Hpair].
    apply NoDup_cons in Hnd as [Hnc Hnd].
    unfold project_clients_insert_row.
    cbn [PartialProjectClient.project_id PartialProjectClient.client_id
         PartialProjectClient.id PartialProjectClient.reference_note
         PartialProjectClient.created_at default].
    rewrite bind_require_true by (unfold project_clients_policy; cbn; by apply Is_true_true).
    rewrite bind_require_true by (apply bool_decide_eq_true; apply Hfresh).
    rewrite bind_require_true by (apply bool_decide_eq_true; exact Hpc).
    rewrite bind_require_true
      by (apply bool_decide_eq_true; apply (owns_project_exists a); by apply Is_true_true).
    rewrite bind_require_true by (by apply bool_decide_eq_true).
    cbn [mbind result_bind].
    apply IH.
    + exact Hown.
    + exact Hcl.
    + exact Hnd.
    + cbn [project_clients with_project_clients]. eapply Forall_impl.
      * apply Forall_and. split; [exact Hpair|]. apply Forall_forall.
        intros x Hx. exact (λ E : x = c, Hnc (eq_ind x (λ y, y ∈ sel) Hx c E)).
      * intros x [Hx Hne]. cbn beta in Hx, Hne.
        rewrite fmap_app, elem_of_app. intros [Hin|Hin]; [done|].
        cbn in Hin. apply list_elem_of_singleton in Hin. injection Hin as ->. done.
    + intros i j E. apply Hinj in E. by injection E.
    + intros i. cbn [project_clients with_project_clients compose].
      rewrite fmap_app, elem_of_app. intros [Hin|Hin]; [by apply (Hfresh (S i))|].
      cbn in Hin. apply list_elem_of_singleton in Hin. apply Hinj in Hin. discriminate.
Qed.

(** Deleting the links of a project the caller owns removes them all and
    no other. *)
Lemma delete_links_of_own_project a pid (s : db) :
  owns_project a s pid →
  project_clients_delete a (λ l, bool_decide (project_clients_project_id l = pid)) s
  = with_project_clients s
      (filter (λ l, project_clients_project_id l ≠ pid) (project_clients s)).
Proof.
  intros Hown. unfold project_clients_delete, delete_rows. cbn [snd]. f_equal.
  apply list_filter_iff. intros l.
  rewrite negb_True, andb_True, bool_decide_spec. unfold project_clients_policy.
  split.
  - intros Hn E. apply Hn. split; [by rewrite E|done].
  - intros Hne [_ E]. done.
Qed.

(** What the first call of [onSubmit] leaves when it returns a row. *)
Lemma update_by_id_returns a pid u now rq (s s1 : db) (r : Project) :
  PartialProject.id u = None →
  supabase rq s
    (returning_single
       (projects_update a (λ p, bool_decide (projects_id p = pid)) u now s))
  = (s1, Ok r) →
  project_clients s1 = project_clients s ∧ clients s1 = clients s ∧
  projects_id r = pid ∧ owns_project a s1 pid ∧
  (∃ r0, r0 ∈ projects s ∧ r = update_updated_at_column now (assign_project u r0)).
Proof.
  intros Hid. unfold supabase. destruct (storage_reachable rq); [|by inversion 1].
  unfold returning_single.
  destruct (projects_update _ _ _ _ s) as [[s' ret]|e] eqn:E; [|by inversion 1].
  cbn. destruct (single ret) as [r1|e] eqn:Hs; [|by inversion 1].
  cbn. intros [= <- <-].
  apply projects_update_ok in E as (tbl & Hrows & ->).
  destruct (update_rows_single _ _ _ _ _ _ _ _ _ Hrows Hs)
    as (-> & Hchk & r0 & Hr0 & Hm & Hr1).
  apply andb_True in Hm as [Hpol0 Hid0]. apply bool_decide_spec in Hid0.
  assert (Hrid : projects_id r1 = pid).
  { rewrite Hr1, (updated_project_id _ _ r0). by rewrite Hid. }
  split; [done|]. split; [done|]. split; [done|]. split; [|eauto].
  apply owns_project_spec. exists r1. cbn [projects with_projects].
  split; [|split; [done|by apply projects_row_check_policy]].
  apply update_rows_ok in Hrows as (-> & _ & _).
  apply list_elem_of_fmap. exists r0. split; [|done].
  assert (Hm : projects_policy a r0 && bool_decide (projects_id r0 = pid) = true).
  { apply Is_true_true, andb_True. split; [done|]. by apply bool_decide_spec. }
  by rewrite Hm.
Qed.

Lemma links_of_kept (pid : uuid) (l new : list ProjectClient) :
  Forall (λ r, project_clients_project_id r = pid) new →
  filter (λ r, project_clients_project_id r = pid)
    (filter (λ r, project_clients_project_id r ≠ pid) l ++ new) = new ∧
  filter (λ r, project_clients_project_id r ≠ pid)
    (filter (λ r, project_clients_project_id r ≠ pid) l ++ new)
  = filter (λ r, project_clients_project_id r ≠ pid) l.
Proof.
  intros Hnew. rewrite !filter_app. split.
  - rewrite (filter_none (λ r, project_clients_project_id r = pid) (filter _ l)).
    + by rewrite filter_all.
    + apply Forall_forall. intros r Hr. apply list_elem_of_filter in Hr as [Hne _]. done.
  - rewrite (filter_none _ new).
    + rewrite app_nil_r. apply filter_all, Forall_forall. intros r Hr.
      by apply list_elem_of_filter in Hr as [Hne _].
    + eapply Forall_impl; [exact Hnew|]. intros r Hr Hne. done.
Qed.

(** X13.  [onSubmit] of the edit modal, when it reports success: the row
    it hands on is the project with that id, carrying the progress of the
    modal.  For a project that is not a client project the links are left
    as they were.  For a client project, when the delete reaches the
    storage in the session of the update, the links of other projects are
    left as they were, and the links of this project are afterwards either
    one per selected client, in the order of the selection, or none at
    all (the delete went through and the insert did not, which the modal
    still reports as success).  They are one per selected client when the
    insert reaches the storage in the same session, the selection has no
    duplicate and names stored clients, and the generated ids are new. *)
Theorem onSubmit_rewrites_the_links (parseFloat : string → option Z)
    (rq_update rq_delete rq_insert : request) (gen : nat → uuid) (project : Project)
    (data : ProjectFormData.t) (progress : Z) (selectedClients : list uuid)
    (s s' : db) (r : Project) :
  onSubmit parseFloat rq_update rq_delete rq_insert gen project data progress
    selectedClients s = (s', Some r) →
  projects_id r = projects_id project ∧
  projects_progress r = Some progress ∧
  (ProjectFormData.type data ≠ client → project_clients s' = project_clients s) ∧
  (ProjectFormData.type data = client →
   user rq_delete = user rq_update → storage_reachable rq_delete = true →
   filter (λ l, project_clients_project_id l ≠ projects_id project) (project_clients s')
   = filter (λ l, project_clients_project_id l ≠ projects_id project) (project_clients s) ∧
   (filter (λ l, project_clients_project_id l = projects_id project) (project_clients s')
    = [] ∨
    project_clients_client_id <$>
      filter (λ l, project_clients_project_id l = projects_id project) (project_clients s')
    = selectedClients) ∧
   (user rq_insert = user rq_update → storage_reachable rq_insert = true →
    NoDup selectedClients →
    Forall (λ c, c ∈ clients_id <$> clients s) selectedClients →
    (∀ i j, gen i = gen j → i = j) →
    (∀ i, gen i ∉ project_clients_id <$> project_clients s) →
    project_clients_client_id <$>
      filter (λ l, project_clients_project_id l = projects_id project) (project_clients s')
    = selectedClients)).
Proof.
  unfold onSubmit. set (pid := projects_id project).
  destruct (supabase rq_update s _) as [s1 [r1|e]] eqn:Hupd; [|by inversion 1].
  apply update_by_id_returns in Hupd as (Hpc & Hcl & Hrid & Hown & r0 & Hr0 & Hr1);
    [|done].
  case_bool_decide as Htype.
  - intros [= <- <-]. split; [done|]. split; [by rewrite Hr1|].
    split; [done|]. intros _ Hu Hup.
    assert (Hs2 : (delete_project_clients rq_delete pid s1).1
                  = with_project_clients s1
                      (filter (λ l, project_clients_project_id l ≠ pid)
                         (project_clients s))).
    { unfold delete_project_clients, supabase. rewrite Hup. cbn [commit fst].
      rewrite Hu, delete_links_of_own_project by done. by rewrite Hpc. }
    rewrite Hs2. clear Hs2.
    set (s2 := with_project_clients s1 _).
    assert (Hnone :
      filter (λ l, project_clients_project_id l ≠ pid) (project_clients s2)
      = filter (λ l, project_clients_project_id l ≠ pid) (project_clients s) ∧
      filter (λ l, project_clients_project_id l = pid) (project_clients s2) = []).
    { destruct (links_of_kept pid (project_clients s) [] (Forall_nil_2 _)) as [H1 H2].
      rewrite app_nil_r in H1, H2. by split. }
    assert (Hins : ∀ s3,
      project_clients_insert (user rq_insert) (projectClientData gen pid selectedClients)
        (CURRENT_TIMESTAMP rq_insert) s2 = Ok s3 →
      filter (λ l, project_clients_project_id l ≠ pid) (project_clients s3)
      = filter (λ l, project_clients_project_id l ≠ pid) (project_clients s) ∧
      project_clients_client_id <$>
        filter (λ l, project_clients_project_id l = pid) (project_clients s3)
      = selectedClients).
    { intros s3 H3. apply insert_selection_ok in H3 as (new & -> & Hcs & Hps).
      cbn [project_clients with_project_clients s2].
      destruct (links_of_kept pid (project_clients s) new Hps) as [H1 H2].
      by rewrite H1, H2. }
    case_bool_decide as Hlen.
    + unfold insert_project_clients, supabase.
      destruct (storage_reachable rq_insert) eqn:Hup3.
      * destruct (project_clients_insert _ _ _ s2) as [s3|e] eqn:E3.
        -- cbn [fmap result_fmap commit fst].
           destruct (Hins s3 eq_refl) as [H1 H2].
           split; [done|]. split; [by right|]. done.
        -- cbn [fmap result_fmap commit fst]. destruct Hnone as [H1 H2].
           split; [done|]. split; [by left|].
           intros Hu3 _ Hnd Hcls Hinj Hfresh. exfalso.
           destruct (insert_selection_succeeds (user rq_insert) gen pid selectedClients
                       (CURRENT_TIMESTAMP rq_insert) s2) as [s3 H3];
             [| | | | | |congruence]; try done.
           ++ rewrite Hu3. exact Hown.
           ++ cbn [clients s2 with_project_clients]. by rewrite Hcl.
           ++ apply Forall_forall. intros c _ Hin.
              apply list_elem_of_fmap in Hin as (l & Hl & Hin).
              cbn [project_clients s2 with_project_clients] in Hin.
              apply list_elem_of_filter in Hin as [Hne _].
              injection Hl as Hl _. by rewrite Hl in Hne.
           ++ intros i Hin. apply (Hfresh i).
              cbn [project_clients s2 with_project_clients] in Hin.
              apply list_elem_of_fmap in Hin as (l & Hl & Hin).
              apply list_elem_of_filter in Hin as [_ Hin].
              apply list_elem_of_fmap. eauto.
      * cbn [fst]. destruct Hnone as [H1 H2].
        split; [done|]. split; [by left|]. intros _ Hup3'. congruence.
    + destruct Hnone as [H1 H2]. split; [done|]. split; [by left|].
      intros _ _ _ _ _ _. rewrite H2.
      destruct selectedClients; [done|]. cbn in Hlen. lia.
  - intros [= <- <-]. split; [done|]. split; [by rewrite Hr1|].
    split; [done|]. intros Hc. done.
Qed.

Lemma onSubmit_rewrites_the_links_witness :
  ∃ s' r,
    onSubmit (λ _, None) (sample_request (Some alice)) (sample_request (Some alice))
      (sample_request (Some alice)) sample_gen
      (sample_project 10 alice in_progress (Some 40)) sample_form 45 [21%N; 20%N]
      sample_db = (s', Some r) ∧
    projects_progress r = Some 45 ∧
    project_clients_client_id <$>
      filter (λ l, project_clients_project_id l = 10%N) (project_clients s')
    = [21%N; 20%N].
Proof.
  eexists _, _. split; [vm_compute; reflexivity|].
  destruct (onSubmit_rewrites_the_links (λ _, None) (sample_request (Some alice))
              (sample_request (Some alice)) (sample_request (Some alice)) sample_gen
              (sample_project 10 alice in_progress (Some 40)) sample_form 45
              [21%N; 20%N] sample_db _ _ eq_refl) as (_ & Hpr & _ & H).
  split; [exact Hpr|].
  destruct (H eq_refl eq_refl eq_refl) as (_ & _ & Hsel).
  apply Hsel.
  - reflexivity.
  - reflexivity.
  - apply (bool_decide_unpack _). exact I.
  - apply (bool_decide_unpack _). exact I.
  - intros i j E. unfold sample_gen in E. lia.
  - intros i Hin. unfold sample_gen in Hin. cbn in Hin.
    apply list_elem_of_singleton in Hin. lia.
Defined.

(** The same call with a selection that names a client that is not
    stored: the modal reports success, and the project has lost the link
    it had. *)
Example onSubmit_loses_the_links :
  let after :=
    onSubmit (λ _, None) (sample_request (Some alice)) (sample_request (Some alice))
      (sample_request (Some alice)) sample_gen
      (sample_project 10 alice in_progress (Some 40)) sample_form 45 [20%N; 99%N]
      sample_db in
  is_Some after.2 ∧
  project_clients sample_db = [sample_link 30 10 20] ∧
  project_clients after.1 = [].
Proof. vm_compute. split; [eauto|done]. Qed.

(** ** The [projects_with_clients] view *)


Lemma filter_key_NoDup {A} (key : A → uuid) (l : list A) (x : A) :
  NoDup (key <$> l) → x ∈ l → filter (λ y, key y = key x) l = [x].
Proof.
  induction l as [|y l IH]; intros Hnd Hx; [by apply elem_of_nil in Hx|].
  rewrite fmap_cons in Hnd. apply NoDup_cons in Hnd as [Hy Hnd].
  rewrite filter_cons. apply elem_of_cons in Hx as [->|Hx].
  - rewrite decide_True by done. f_equal. apply filter_none, Forall_forall.
    intros z Hz E. apply Hy. rewrite <- E. apply list_elem_of_fmap. eauto.
  - rewrite decide_False; [by apply IH|].
    intros E. apply Hy. rewrite E. apply list_elem_of_fmap. eauto.
Qed.




(** ** When a create succeeds, and what a failure leaves *)







(** ** Lookups by key *)

(** X17.  With the primary keys in place, a signed-in caller's
    [getProject] returns a project exactly when a project with that id is
    stored and is the caller's, and then returns that project with its
    embedded resources; [getProfile] returns a profile exactly when it is
    the stored profile of the caller. *)
Theorem gets_find_own_records (rq : request) (u : uuid) (s : db) :
  user rq = Some u → storage_reachable rq = true →
  NoDup (projects_id <$> projects s) →
  NoDup (profiles_id <$> profiles s) →
  (∀ pid e,
     getProject rq pid s = Some e ↔
     ∃ p, p ∈ projects s ∧ projects_id p = pid ∧ projects_user_id p = u ∧
          e = embed (Some u) s p) ∧
  (∀ r, getProfile rq s = Some r ↔ r ∈ profiles s ∧ profiles_id r = u).
Proof.
  intros Hu Hup Hpk Hfk. split.
  - intros pid e. unfold getProject. rewrite Hu, Hup.
    assert (Hsel : select_rows (projects_policy (Some u))
                     (λ p, bool_decide (projects_id p = pid) &&
                           bool_decide (projects_user_id p = u)) (projects s)
                   = filter (λ p, projects_user_id p = u)
                       (filter (λ p, projects_id p = pid) (projects s))).
    { unfold select_rows. rewrite list_filter_filter. apply list_filter_iff.
      intros p. rewrite !andb_True, !bool_decide_spec, projects_policy_spec.
      split; [tauto|]. intros [Hown Hid]. by rewrite Hown. }
    rewrite Hsel. split.
    + destruct (single _) as [p|err] eqn:Hs; [|done]. intros [= <-].
      destruct (filter _ _) as [|p' [|q l]] eqn:E; try discriminate.
      injection Hs as ->.
      assert (Hin : p ∈ filter (λ p, projects_user_id p = u)
                         (filter (λ p, projects_id p = pid) (projects s)))
        by (rewrite E; left).
      apply list_elem_of_filter in Hin as [Hown Hin].
      apply list_elem_of_filter in Hin as [Hid Hin]. eauto 6.
    + intros (p & Hp & <- & <- & ->).
      rewrite (filter_key_NoDup projects_id (projects s) p Hpk Hp).
      by rewrite filter_cons_True.
  - intros r. unfold getProfile. rewrite Hu, Hup.
    assert (Hsel : select_rows (profiles_policy (Some u))
                     (λ r, bool_decide (profiles_id r = u)) (profiles s)
                   = filter (λ r, profiles_id r = u) (profiles s)).
    { unfold select_rows. apply list_filter_iff. intros p.
      rewrite andb_True, bool_decide_spec. unfold profiles_policy.
      rewrite is_true_eq_uuid. split; [tauto|]. intros <-. eauto. }
    rewrite Hsel. split.
    + destruct (single _) as [p|err] eqn:Hs; [|done]. intros [= <-].
      destruct (filter _ _) as [|p' [|q l]] eqn:E; try discriminate.
      injection Hs as ->.
      assert (Hin : p ∈ filter (λ r, profiles_id r = u) (profiles s))
        by (rewrite E; left).
      by apply list_elem_of_filter in Hin as [? ?].
    + intros [Hr <-].
      by rewrite (filter_key_NoDup profiles_id (profiles s) r Hfk Hr).
Qed.

Lemma gets_find_own_records_witness :
  getProject (sample_request (Some alice)) 11%N sample_db = None ∧
  getProfile (sample_request (Some alice)) sample_db
  = Some (sample_profile alice "alice@example.org").
Proof.
  destruct (gets_find_own_records (sample_request (Some alice)) alice sample_db
              eq_refl eq_refl) as [Hproj Hprof].
  - apply (bool_decide_unpack _). exact I.
  - apply (bool_decide_unpack _). exact I.
  - split; [reflexivity|]. apply Hprof. split; [left|reflexivity].
Defined.

(** ** The filters on the owner and the policies *)

Section where_ext.
Context {R : Type}.
Variables (policy w1 w2 : R → bool) (assign trigger : R → R).
Variable row_check : R → result unit.
Hypothesis agree : ∀ r, policy r → w1 r = w2 r.

Lemma match_where_ext (r : R) : policy r && w1 r = policy r && w2 r.
Proof. destruct (policy r) eqn:E; [|done]. cbn. apply agree. by rewrite E. Qed.

(** Filters that agree on the rows the policy shows select, update and
    delete the same rows. *)
Lemma select_rows_where_ext (tbl : list R) :
  select_rows policy w1 tbl = select_rows policy w2 tbl.
Proof.
  unfold select_rows. apply list_filter_iff. intros r. by rewrite match_where_ext.
Qed.

Lemma update_rows_where_ext (tbl : list R) :
  update_rows policy w1 assign trigger row_check tbl
  = update_rows policy w2 assign trigger row_check tbl.
Proof.
  induction tbl as [|r tbl IH]; [done|].
  cbn [update_rows]. by rewrite match_where_ext, IH.
Qed.

Lemma delete_rows_where_ext (tbl : list R) :
  delete_rows policy w1 tbl = delete_rows policy w2 tbl.
Proof.
  unfold delete_rows. f_equal; apply list_filter_iff; intros r;
    by rewrite match_where_ext.
Qed.
End where_ext.

Lemma owner_filter_agrees (u pid : uuid) (p : Project) :
  projects_policy (Some u) p →
  bool_decide (projects_id p = pid) && bool_decide (projects_user_id p = u)
  = bool_decide (projects_id p = pid).
Proof.
  intros Hp. apply projects_policy_spec in Hp. injection Hp as <-.
  rewrite (bool_decide_true (u = u)) by done.
  by rewrite andb_true_r.
Qed.

(** X18.  Under the policies the filters on the owner that
    [lib/database.ts] adds change nothing: for a signed-in caller
    [deleteProject] does what the dashboard's [handleDeleteProject] does
    without the filter, an update of projects filtered by id and owner is the
    update filtered by id alone, and whenever the storage answers the
    modals' [fetchClients], which names no owner, yields the list
    [getClients] yields. *)
Theorem owner_filters_are_redundant (text_le : relation string)
    `{∀ x y, Decision (text_le x y)} (rq : request) (s : db) :
  (storage_reachable rq = true →
   fetchClients text_le rq s = Some (getClients text_le rq s)) ∧
  (∀ u, user rq = Some u →
     (∀ pid, deleteProject rq pid s = handleDeleteProject rq pid s) ∧
     (∀ pid updates now,
        projects_update (Some u)
          (λ p, bool_decide (projects_id p = pid) && bool_decide (projects_user_id p = u))
          updates now s
        = projects_update (Some u) (λ p, bool_decide (projects_id p = pid))
            updates now s)).
Proof.
  split.
  - intros Hup. unfold fetchClients, getClients. rewrite Hup.
    destruct (user rq) as [u|].
    + do 2 f_equal. apply select_rows_where_ext. intros c Hc.
      apply clients_policy_spec in Hc. injection Hc as <-.
      by rewrite bool_decide_true.
    + f_equal. unfold select_rows. rewrite filter_none; [done|].
      apply Forall_forall. intros c _ Hc. apply andb_True in Hc as [Hc _].
      by apply clients_policy_spec in Hc.
  - intros u Hu. split.
    + intros pid. unfold deleteProject, handleDeleteProject. rewrite Hu.
      unfold supabase. destruct (storage_reachable rq); [|done].
      unfold projects_delete.
      by rewrite (delete_rows_where_ext _ _ _ (owner_filter_agrees u pid)).
    + intros pid updates now. unfold projects_update.
      by rewrite (update_rows_where_ext _ _ _ _ _ _ (owner_filter_agrees u pid)).
Qed.

Lemma owner_filters_are_redundant_witness :
  fetchClients (λ x y, String.leb x y) (sample_request (Some alice)) sample_db
  = Some (getClients (λ x y, String.leb x y) (sample_request (Some alice)) sample_db) ∧
  getClients (λ x y, String.leb x y) (sample_request (Some alice)) sample_db
  = [sample_client 20 alice].
Proof.
  destruct (owner_filters_are_redundant (λ x y, String.leb x y)
              (sample_request (Some alice)) sample_db) as [H _].
  split; [exact (H eq_refl)|reflexivity].
Defined.

(** ** Links and ownership *)

Lemma project_clients_insert_own a rows now (s s' : db) :
  project_clients_insert a rows now s = Ok s' →
  ∃ new, s' = with_project_clients s (project_clients s ++ new) ∧
         Forall (λ l, owns_project a s (project_clients_project_id l)) new ∧
         length new = length rows.
Proof.
  revert s. induction rows as [|[u gen] rows IH]; intros s H.
  - cbn in H. injection H as <-. exists []. rewrite app_nil_r.
    split; [by destruct s|]. by split.
  - cbn [project_clients_insert] in H. apply bind_ok in H as (s1 & H1 & H2).
    apply project_clients_insert_row_facts in H1 as (r & -> & _ & _ & _ & Hown & _).
    apply IH in H2 as (new & -> & Hnew & Hlen).
    exists (r :: new). cbn [project_clients with_project_clients].
    rewrite <- app_assoc. split; [done|]. split; [|cbn; by rewrite Hlen].
    constructor; [done|]. exact Hnew.
Qed.

Lemma anonymous_owns_nothing (s : db) (p : uuid) : owns_project None s p = false.
Proof.
  apply bool_decide_eq_false. intros H. apply Exists_exists in H as (r & _ & _ & H).
  done.
Qed.

(** X19.  Links are written and removed on the caller's own projects
    only: the rows an insert into project_clients appended all belong to
    projects of the caller, one row per row sent, and the rows before them
    are untouched; a link that a delete removed belonged to a project of
    the caller and matched the filter; a caller who is not signed in can
    insert no link and removes none. *)
Theorem links_only_on_own_projects (a : option uuid) (s : db) :
  (∀ rows now s',
     project_clients_insert a rows now s = Ok s' →
     ∃ new, s' = with_project_clients s (project_clients s ++ new) ∧
            Forall (λ l, owns_project a s (project_clients_project_id l)) new ∧
            length new = length rows) ∧
  (∀ (w : ProjectClient → bool) l,
     l ∈ project_clients s → l ∉ project_clients (project_clients_delete a w s) →
     owns_project a s (project_clients_project_id l) ∧ w l) ∧
  (a = None →
   (∀ rows now, rows ≠ [] → ∃ e, project_clients_insert a rows now s = Error e) ∧
   (∀ w, project_clients_delete a w s = s)).
Proof.
  split; [intros; by eapply project_clients_insert_own|]. split.
  - intros w l Hl Hgone. unfold project_clients_delete, delete_rows in Hgone.
    cbn [snd project_clients with_project_clients] in Hgone.
    destruct (decide (project_clients_policy a s l && w l)) as [Hm|Hm].
    + by apply andb_True in Hm.
    + exfalso. apply Hgone. apply list_elem_of_filter. split; [|done].
      by apply negb_True.
  - intros ->. split.
    + intros rows now Hne.
      destruct (project_clients_insert None rows now s) as [s'|e] eqn:E; [|eauto].
      exfalso. apply project_clients_insert_own in E as (new & _ & Hown & Hlen).
      destruct rows as [|row rows]; [done|]. destruct new as [|l new]; [done|].
      apply Forall_cons in Hown as [Hown _].
      by rewrite anonymous_owns_nothing in Hown.
    + intros w. unfold project_clients_delete, delete_rows. cbn [snd].
      rewrite filter_all; [by destruct s|].
      apply Forall_forall. intros l _. unfold project_clients_policy.
      by rewrite anonymous_owns_nothing.
Qed.

Lemma links_only_on_own_projects_witness :
  project_clients_insert (Some alice) [(sample_new_link 11 20, 31%N)] 101 sample_db
  = Error insufficient_privilege ∧
  ∃ s', project_clients_insert (Some alice) [(sample_new_link 10 21, 31%N)] 101 sample_db
        = Ok s' ∧
        length (project_clients s') = 2%nat.
Proof.
  split; [reflexivity|].
  destruct (links_only_on_own_projects (Some alice) sample_db) as (Hins & _).
  eexists. split; [reflexivity|].
  destruct (Hins [(sample_new_link 10 21, 31%N)] 101 _ eq_refl) as (new & Hs & _ & Hlen).
  rewrite Hs. cbn [project_clients with_project_clients].
  rewrite length_app, Hlen. reflexivity.
Defined.

(** ** The lists the pages keep after a delete *)




(** ** The settings form *)

Lemma select_own_profile (u : uuid) (l : list Profile) :
  select_rows (profiles_policy (Some u)) (λ r, bool_decide (profiles_id r = u)) l
  = filter (λ r, profiles_id r = u) l.
Proof.
  unfold select_rows. apply list_filter_iff. intros p.
  rewrite andb_True, bool_decide_spec. unfold profiles_policy.
  rewrite is_true_eq_uuid. split; [tauto|]. intros <-. eauto.
Qed.

Lemma profiles_update_ok auth_uid where_ u now (s s' : db) (ret : list Profile) :
  profiles_update auth_uid where_ u now s = Ok (s', ret) →
  ∃ tbl,
    update_rows (profiles_policy auth_uid) where_ (assign_profile u)
      (update_updated_at_column now) (profiles_row_check auth_uid) (profiles s)
    = Ok (tbl, ret) ∧
    s' = with_profiles s tbl ∧
    (PartialProfile.email u = None ∨ NoDup (profiles_email <$> tbl)).
Proof.
  unfold profiles_update. intros H.
  apply bind_ok in H as ([tbl rt] & Hup & H'). inv_require H'.
  inversion H'; subst. apply bool_decide_eq_true in Hreq0. eauto.
Qed.

(** X21.  The settings form, saving for a caller whose stored profile is
    the one the page holds: when it reports success, the stored profile is
    the one the page then keeps (the old one with the name and the email of
    the form) except for [updated_at], which the trigger has set to the
    clock of the database, and the profiles of the other identities are
    untouched; when another profile already has that email the form
    reports a failure and nothing is stored. *)
Theorem settings_form_saves_the_profile (rq : request) (full_name email : string)
    (p : Profile) (s : db) :
  getProfile rq s = Some p →
  (∀ s' kept,
     handleSubmit rq full_name email (Some p) s = (s', Some kept) →
     kept = Some (with_form_values full_name email p) ∧
     getProfile rq s'
     = Some (update_updated_at_column (CURRENT_TIMESTAMP rq)
               (with_form_values full_name email p)) ∧
     (∀ r, r ∈ profiles s → profiles_id r ≠ profiles_id p → r ∈ profiles s')) ∧
  (∀ r, r ∈ profiles s → profiles_id r ≠ profiles_id p → profiles_email r = email →
     handleSubmit rq full_name email (Some p) s = (s, None)).
Proof.
  unfold getProfile, handleSubmit. destruct (user rq) as [u|]; [|done].
  unfold supabase. destruct (storage_reachable rq); [|done].
  destruct (single _) as [p0|err] eqn:Hs; [|done]. intros [= ->].
  rewrite select_own_profile in Hs.
  destruct (filter (λ r, profiles_id r = u) (profiles s)) as [|p' [|q l]] eqn:E;
    try discriminate.
  injection Hs as ->.
  assert (Hp : p ∈ profiles s ∧ profiles_id p = u).
  { assert (Hin : p ∈ filter (λ r, profiles_id r = u) (profiles s)) by (rewrite E; left).
    apply list_elem_of_filter in Hin as [? ?]. done. }
  destruct Hp as [Hp Hpid].
  split.
  - intros s' kept.
    destruct (profiles_update _ _ _ _ s) as [[s1 ret]|e] eqn:Hupd; [|by inversion 1].
    cbn [commit]. intros [= <- <-]. split; [done|].
    apply profiles_update_ok in Hupd as (tbl & Hrows & -> & _).
    cbn [profiles with_profiles]. split.
    + rewrite (update_rows_reselect _ _ _ _ _ _ _ _ Hrows).
      * apply update_rows_ok in Hrows as (_ & -> & _).
        fold (select_rows (profiles_policy (Some u))
                (λ r, bool_decide (profiles_id r = u)) (profiles s)).
        by rewrite select_own_profile, E.
      * intros x Hx Hmx Hcx. apply andb_True in Hmx as [_ Hidx].
        apply bool_decide_spec in Hidx.
        assert (Hpx : profiles_policy (Some u)
                        (update_updated_at_column (CURRENT_TIMESTAMP rq)
                           (assign_profile (settings_update full_name email) x))).
        { unfold profiles_row_check, require in Hcx. revert Hcx.
          destruct (profiles_policy (Some u) (update_updated_at_column _ _));
            [done|discriminate]. }
        rewrite andb_True, bool_decide_spec. split; [done|].
        by rewrite (updated_profile_id _ _ x).
    + intros r Hr Hne. eapply update_rows_keeps; [exact Hrows|done|].
      apply andb_false_iff. right. apply bool_decide_eq_false. by rewrite <- Hpid.
  - intros r Hr Hne Hemail.
    destruct (profiles_update _ _ _ _ s) as [[s1 ret]|e] eqn:Hupd; [|done].
    exfalso. apply profiles_update_ok in Hupd as (tbl & Hrows & -> & [Hno|Hnd]);
      [discriminate|].
    apply update_rows_ok in Hrows as (-> & _ & _).
    rewrite <- list_fmap_compose in Hnd.
    apply Hne. symmetry.
    assert (Heq : p = r); [|by rewrite Heq].
    apply (NoDup_fmap_eq _ _ p r Hnd Hp Hr). unfold compose.
    assert (Hmp : profiles_policy (Some u) p && bool_decide (profiles_id p = u) = true).
    { apply Is_true_true, andb_True. split; [|by apply bool_decide_spec].
      unfold profiles_policy. apply is_true_eq_uuid. exists u. by rewrite Hpid. }
    assert (Hmr : profiles_policy (Some u) r && bool_decide (profiles_id r = u) = false).
    { apply andb_false_iff. right. apply bool_decide_eq_false. by rewrite <- Hpid. }
    rewrite Hmp, Hmr. by rewrite Hemail.
Qed.

Lemma settings_form_saves_the_profile_witness :
  getProfile (sample_request (Some alice)) sample_db
  = Some (sample_profile alice "alice@example.org") ∧
  handleSubmit (sample_request (Some alice)) "Alice" "bob@example.org"
    (Some (sample_profile alice "alice@example.org")) sample_db = (sample_db, None) ∧
  is_Some (handleSubmit (sample_request (Some alice)) "Alice" "a@example.org"
             (Some (sample_profile alice "alice@example.org")) sample_db).2.
Proof.
  split; [reflexivity|]. split; [|vm_compute; eauto].
  destruct (settings_form_saves_the_profile (sample_request (Some alice)) "Alice"
              "bob@example.org" (sample_profile alice "alice@example.org") sample_db
              eq_refl) as [_ H].
  apply (H (sample_profile bob "bob@example.org")).
  - right. left.
  - discriminate.
  - reflexivity.
Defined.

(** ** The create-project modal *)

(** X22.  [onSubmit] of the create modal, when it reports success: the new
    project is the caller's, starts with progress 0 and nothing paid, and
    is appended to the projects; the links it appended all point at the new
    project and are either one per selected client, in the order of the
    selection, or none (no selection, not a client project, or the insert
    of the links failed, which the modal still reports as success).  They
    are one per selected client for a client project when the insert of the
    links reaches the storage in the same session, the selection has no
    duplicate and names stored clients, the generated ids are new and no
    stored link points at a project that is not stored. *)
Theorem create_modal_links_the_selection (parseFloat : string → option Z)
    (rq_insert rq_links : request) (gen : nat → uuid)
    (data : CreateProjectModal.ProjectFormData.t) (selectedClients : list uuid)
    (s s' : db) (r : Project) :
  CreateProjectModal.onSubmit parseFloat rq_insert rq_links gen data selectedClients s
  = (s', Some r) →
  user rq_insert = Some (projects_user_id r) ∧
  projects_progress r = Some 0 ∧ projects_paid_amount r = Some 0 ∧
  projects s' = projects s ++ [r] ∧
  (∃ new, project_clients s' = project_clients s ++ new ∧
          Forall (λ l, project_clients_project_id l = projects_id r) new ∧
          (new = [] ∨ project_clients_client_id <$> new = selectedClients)) ∧
  (CreateProjectModal.ProjectFormData.type data = client →
   user rq_links = user rq_insert → storage_reachable rq_links = true →
   NoDup selectedClients →
   Forall (λ c, c ∈ clients_id <$> clients s) selectedClients →
   (∀ i j, gen i = gen j → i = j) →
   (∀ i, gen i ∉ project_clients_id <$> project_clients s) →
   Forall (λ l, project_clients_project_id l ∈ projects_id <$> projects s)
          (project_clients s) →
   ∃ new, project_clients s' = project_clients s ++ new ∧
          project_clients_client_id <$> new = selectedClients).
Proof.
  unfold CreateProjectModal.onSubmit.
  destruct (user rq_insert) as [u|] eqn:Hu; [|by inversion 1].
  unfold supabase at 1. destruct (storage_reachable rq_insert); [|by inversion 1].
  destruct (projects_insert _ _ _ _ s) as [[s1 p]|e] eqn:E; [|by inversion 1].
  cbn [commit].
  pose proof (projects_insert_fields _ _ _ _ _ _ _ E) as (Hown & _ & _).
  cbn in Hown. injection Hown as Hown.
  pose proof (projects_insert_owner _ _ _ _ _ _ _ E) as [_ Hpol].
  pose proof (projects_insert_ok _ _ _ _ _ _ _ E) as (-> & _ & Hpr & _ & Hnew).
  cbn in Hpr.
  assert (Hpaid : projects_paid_amount p = Some 0).
  { unfold projects_insert in E. cbn in E.
    apply bind_ok in E as ([] & _ & E). inv_require E. by injection E as _ <-. }
  set (s1 := with_projects s (projects s ++ [p])).
  assert (Hlinks : ∀ s3,
    project_clients_insert (user rq_links)
      (projectClientData gen (projects_id p) selectedClients)
      (CURRENT_TIMESTAMP rq_links) s1 = Ok s3 →
    projects s3 = projects s ++ [p] ∧
    ∃ new, project_clients s3 = project_clients s ++ new ∧
           Forall (λ l, project_clients_project_id l = projects_id p) new ∧
           project_clients_client_id <$> new = selectedClients).
  { intros s3 H3. apply insert_selection_ok in H3 as (new & -> & Hcs & Hps).
    split; [done|]. exists new. done. }
  assert (Hnone :
    ∃ new, project_clients s1 = project_clients s ++ new ∧
           Forall (λ l, project_clients_project_id l = projects_id p) new ∧
           (new = [] ∨ project_clients_client_id <$> new = selectedClients)).
  { exists []. rewrite app_nil_r. split; [done|]. split; [done|]. by left. }
  destruct (bool_decide (0 < length selectedClients)%nat) eqn:Hlen; cycle 1.
  { cbn [andb]. intros [= <- <-].
    split; [by rewrite Hown|]. split; [done|]. split; [done|]. split; [done|].
    split; [exact Hnone|]. intros _ _ _ _ _ _ _ _. exists []. rewrite app_nil_r.
    split; [done|]. apply bool_decide_eq_false in Hlen.
    destruct selectedClients; [done|]. cbn in Hlen. lia. }
  cbn [andb].
  destruct (bool_decide (CreateProjectModal.ProjectFormData.type data = client))
    eqn:Htype; cycle 1.
  { apply bool_decide_eq_false in Htype. intros [= <- <-].
    split; [by rewrite Hown|]. split; [done|]. split; [done|]. split; [done|].
    split; [exact Hnone|]. done. }
  unfold insert_project_clients, supabase.
  destruct (storage_reachable rq_links) eqn:Hup2; cycle 1.
  { cbn [fst]. intros [= <- <-].
    split; [by rewrite Hown|]. split; [done|]. split; [done|]. split; [done|].
    split; [exact Hnone|]. intros _ _ ?. congruence. }
  destruct (project_clients_insert _ _ _ s1) as [s3|e] eqn:E3.
  - cbn [fmap result_fmap commit fst]. intros [= <- <-].
    destruct (Hlinks s3 eq_refl) as (Hprojs & new & Hpcs & Hps & Hcs).
    split; [by rewrite Hown|]. split; [done|]. split; [done|]. split; [done|].
    split; [exists new; eauto|]. intros _ _ _ _ _ _ _ _. eauto.
  - cbn [fmap result_fmap commit fst]. intros [= <- <-].
    split; [by rewrite Hown|]. split; [done|]. split; [done|]. split; [done|].
    split; [exact Hnone|].
    intros _ Hu2 _ Hnd Hcls Hinj Hfresh Hrefs. exfalso.
    destruct (insert_selection_succeeds (user rq_links) gen (projects_id p)
                selectedClients (CURRENT_TIMESTAMP rq_links) s1) as [s3 H3];
      [| | | | | |congruence]; try done.
    + rewrite Hu2. apply owns_project_spec. exists p.
      split; [|done]. cbn [projects s1 with_projects]. apply elem_of_app. right. by left.
    + apply Forall_forall. intros c _ Hin.
      apply list_elem_of_fmap in Hin as (l & Hl & Hin).
      cbn [project_clients s1 with_projects] in Hin.
      rewrite Forall_forall in Hrefs. apply Hnew.
      injection Hl as Hl _. rewrite Hl. by apply Hrefs.
Qed.

Lemma create_modal_links_the_selection_witness :
  ∃ s' r,
    CreateProjectModal.onSubmit (λ _, None) (sample_request (Some alice))
      (sample_request (Some alice)) sample_gen CreateProjectModal.sample_form
      [20%N; 21%N] sample_db = (s', Some r) ∧
    projects_id r = 99%N ∧
    ∃ new, project_clients s' = project_clients sample_db ++ new ∧
           project_clients_client_id <$> new = [20%N; 21%N].
Proof.
  eexists _, _. split; [vm_compute; reflexivity|]. split; [reflexivity|].
  destruct (create_modal_links_the_selection (λ _, None) (sample_request (Some alice))
              (sample_request (Some alice)) sample_gen CreateProjectModal.sample_form
              [20%N; 21%N] sample_db _ _ eq_refl) as (_ & _ & _ & _ & _ & H).
  apply H.
  - reflexivity.
  - reflexivity.
  - reflexivity.
  - apply (bool_decide_unpack _). exact I.
  - apply (bool_decide_unpack _). exact I.
  - intros i j E. unfold sample_gen in E. lia.
  - intros i Hin. unfold sample_gen in Hin. cbn in Hin.
    apply list_elem_of_singleton in Hin. lia.
  - apply (bool_decide_unpack _). exact I.
Defined.
